(** * tbpweb: terms, officers, course ordering and exam forms

    A shallow embedding of the business logic of [base/models.py],
    [courses/models.py] and [exams/forms.py].  Database tables are finite
    maps or row lists, Python exceptions are values of [exn], and every
    method that touches the database, the cache or the form object is a
    function in a small state-and-exception monad. *)

From Stdlib Require Import ZArith Ascii String DecimalString DecimalZ DecimalPos.
From stdpp Require Import base gmap strings list fin_maps sorting.

Local Open Scope Z_scope.
Set Warnings "-clear-no-such-hyp".

(** ** Python values and exceptions *)

Module Py.

Inductive exn : Type :=
  | ValueError (msg : string)
  | KeyError (key : string)
  | IntegrityError
  | DoesNotExist
  | MultipleObjectsReturned
  | ValidationError (msg : string)
  | OverflowError.

(** The result of running a method on a state of type [S]: it returns a
    value, or raises; either way the state it leaves behind is recorded. *)
Inductive result (S A : Type) : Type :=
  | Return (a : A) (st : S)
  | Raise (e : exn) (st : S).
Arguments Return {S A} a st.
Arguments Raise {S A} e st.

Definition M (S A : Type) : Type := S → result S A.

Definition ret {S A} (a : A) : M S A := λ st, Return a st.
Definition raise {S A} (e : exn) : M S A := λ st, Raise e st.
Definition bind {S A B} (m : M S A) (k : A → M S B) : M S B :=
  λ st, match m st with
        | Return a st' => k a st'
        | Raise e st' => Raise e st'
        end.
Definition get {S} : M S S := λ st, Return st st.
Definition put {S} (st : S) : M S unit := λ _, Return tt st.
Definition modify {S} (f : S → S) : M S unit := λ st, Return tt (f st).

(** [for x in xs: body x] *)
Fixpoint for_each {S A} (xs : list A) (body : A → M S unit) : M S unit :=
  match xs with
  | [] => ret tt
  | x :: xs' => bind (body x) (λ _, for_each xs' body)
  end.

(** *** Strings *)

(** [s[0:n]] and [s[n:]] *)
Fixpoint str_take (n : nat) (s : string) : string :=
  match n, s with
  | S n', String c s' => String c (str_take n' s')
  | _, _ => EmptyString
  end.

Fixpoint str_drop (n : nat) (s : string) : string :=
  match n, s with
  | S n', String _ s' => str_drop n' s'
  | _, _ => s
  end.

(** [sub in s] *)
Fixpoint contains (sub s : string) : bool :=
  String.prefix sub s ||
  match s with
  | EmptyString => false
  | String _ s' => contains sub s'
  end.

(** [s.lstrip(chars)], [s.rstrip(chars)], [s.strip(chars)], with the
    character class given as a predicate. *)
Fixpoint lstrip (p : ascii → bool) (s : string) : string :=
  match s with
  | String c s' => if p c then lstrip p s' else s
  | EmptyString => EmptyString
  end.

Fixpoint rstrip (p : ascii → bool) (s : string) : string :=
  match s with
  | String c s' =>
      let r := rstrip p s' in
      if p c && String.eqb r EmptyString then EmptyString else String c r
  | EmptyString => EmptyString
  end.

Definition strip (p : ascii → bool) (s : string) : string :=
  rstrip p (lstrip p s).

Definition between (lo hi c : ascii) : bool :=
  (N_of_ascii lo <=? N_of_ascii c)%N && (N_of_ascii c <=? N_of_ascii hi)%N.

(** [string.letters] in the C locale: [a-z] and [A-Z]. *)
Definition is_letter (c : ascii) : bool :=
  between "a" "z" c || between "A" "Z" c.

(** The characters [str.strip()] and [int()] treat as white space. *)
Definition is_space (c : ascii) : bool :=
  match c with
  | " " | "009" | "010" | "011" | "012" | "013" => true
  | _ => false
  end%char.

(** [s.split(sep, 1)] as the pair of the text before the first [sep] and the
    text after it; [None] when [sep] does not occur (the list has one
    element). *)
Fixpoint split1 (sep : ascii) (s : string) : option (string * string) :=
  match s with
  | EmptyString => None
  | String c s' =>
      if Ascii.eqb c sep then Some (EmptyString, s')
      else match split1 sep s' with
           | Some (a, b) => Some (String c a, b)
           | None => None
           end
  end.

(** *** Integers *)

(** [str(z)] for an integer. *)
Definition str (z : Z) : string := NilZero.string_of_int (Z.to_int z).

Definition digits (s : string) : option Z :=
  match NilZero.uint_of_string s with
  | Some d => Some (Z.of_uint d)
  | None => None
  end.

(** [int(s)] in base ten: surrounding white space is dropped, one sign is
    allowed, and what is left must be a non-empty run of decimal digits.
    [None] stands for [ValueError]. *)
Definition int (s : string) : option Z :=
  match strip is_space s with
  | String "-" r => Z.opp <$> digits r
  | String "+" r => digits r
  | r => digits r
  end.

Fixpoint all_digits (s : string) : bool :=
  match s with
  | EmptyString => true
  | String c s' => between "0" "9" c && all_digits s'
  end.

(** Python's comparison of byte strings. *)
Definition str_lt (a b : string) : bool := String.ltb a b.
Definition str_gt (a b : string) : bool := String.ltb b a.

End Py.

Import Py.

#[global] Instance M_ret {S} : MRet (M S) := λ A, @ret S A.
#[global] Instance M_bind {S} : MBind (M S) := λ A B k m, bind m k.

(** ** base/models.py *)

Module Base.

(** A [Term] instance.  [id] is [None] for an object that has no primary
    key yet. *)
Record Term : Type := mkTerm {
  id : option Z;
  term : string;
  year : Z;
  current : bool
}.

#[global] Instance Term_eq_dec : EqDecision Term.
Proof. solve_decision. Defined.

Definition UNKNOWN : string := "un".
Definition WINTER : string := "wi".
Definition SPRING : string := "sp".
Definition SUMMER : string := "su".
Definition FALL : string := "fa".

Definition TERM_MAPPING : gmap string Z :=
  <[UNKNOWN := 0]> (<[WINTER := 1]> (<[SPRING := 2]> (<[SUMMER := 3]>
    (<[FALL := 4]> ∅)))).

Record OfficerPosition : Type := mkOfficerPosition {
  short_name : string;
  long_name : string;
  executive : bool;
  auxiliary : bool
}.

(** A row of the officer table.  [user] and [term_id] are foreign keys;
    the position is kept as the row it points at. *)
Record Officer : Type := mkOfficer {
  officer_pk : nat;
  user : nat;
  position : OfficerPosition;
  term_id : Z
}.

(** The database and the cache.  The term table maps the [id] column to the
    row.  Auth groups are identified by their name, which is unique in the
    auth application; [user_groups] is the membership relation. *)
Record State : Type := mkState {
  terms : gmap Z Term;
  cache_current_term : option Term;
  groups : gset string;
  user_groups : gset (nat * string);
  officers : list Officer
}.

Definition set_terms (f : gmap Z Term → gmap Z Term) (st : State) : State :=
  mkState (f (terms st)) (cache_current_term st) (groups st)
          (user_groups st) (officers st).
Definition set_cache (c : option Term) (st : State) : State :=
  mkState (terms st) c (groups st) (user_groups st) (officers st).
Definition set_groups (f : gset string → gset string) (st : State) : State :=
  mkState (terms st) (cache_current_term st) (f (groups st))
          (user_groups st) (officers st).
Definition set_user_groups
    (f : gset (nat * string) → gset (nat * string)) (st : State) : State :=
  mkState (terms st) (cache_current_term st) (groups st)
          (f (user_groups st)) (officers st).
Definition set_officers (f : list Officer → list Officer) (st : State) : State :=
  mkState (terms st) (cache_current_term st) (groups st)
          (user_groups st) (f (officers st)).

(** *** The framework's part *)

(** [with transaction.atomic(): body]: when the body raises, the tables go
    back to what they were; the cache is not part of the transaction. *)
Definition transaction_atomic {A} (body : M State A) : M State A :=
  λ st, match body st with
        | Return a st' => Return a st'
        | Raise e st' => Raise e (set_cache (cache_current_term st') st)
        end.

(** [Group.objects.get_or_create(name=name)] *)
Definition Group_get_or_create (name : string) : M State string :=
  λ st, Return name (set_groups (λ g, {[name]} ∪ g) st).

(** [unique_together = ('term', 'year')]: another row has this pair. *)
Definition unique_together_violated (pk : Z) (self : Term)
    (m : gmap Z Term) : bool :=
  bool_decide (map_Exists
    (λ k r, k ≠ pk ∧ term r = term self ∧ year r = year self) m).

(** [super(Term, self).save()]: the row with this primary key is updated,
    or inserted when there is none. *)
Definition Model_save (self : Term) : M State unit :=
  λ st, match id self with
        | None => Raise IntegrityError st
        | Some pk =>
            if unique_together_violated pk self (terms st)
            then Raise IntegrityError st
            else Return tt (set_terms (<[pk := self]>) st)
        end.

(** [Term.objects.filter(current=True).exclude(id=pk).update(current=False)] *)
Definition clear_other_current (pk : option Z) (m : gmap Z Term)
    : gmap Z Term :=
  map_imap (λ k r,
    Some (if current r && bool_decide (Some k ≠ pk)
          then mkTerm (id r) (term r) (year r) false
          else r)) m.

(** The integers the database adapter takes as a query parameter: 64 bits,
    signed. *)
Definition storable (y : Z) : Prop := -2^63 ≤ y < 2^63.

#[global] Instance storable_dec y : Decision (storable y).
Proof. unfold storable. apply _. Defined.

(** [self.get(term=t, year=y)] on the term manager.  An integer beyond 64
    bits is refused by the adapter with [OverflowError] before any row is
    read. *)
Definition TermManager_get (t : string) (y : Z) : M State Term :=
  λ st, if bool_decide (storable y) then
          match map_to_list
                  (filter (λ kr, term kr.2 = t ∧ year kr.2 = y) (terms st)) with
          | [] => Raise DoesNotExist st
          | [(_, r)] => Return r st
          | _ => Raise MultipleObjectsReturned st
          end
        else Raise OverflowError st.

(** [officer.term]: the foreign key is followed when it is read. *)
Definition Officer_term (self : Officer) : M State Term :=
  λ st, match terms st !! term_id self with
        | Some t => Return t st
        | None => Raise DoesNotExist st
        end.

(** *** OfficerPosition *)

Fixpoint corresponding_groups_loop (is_current_term : bool)
    (group_names : list string) (groups : list string)
    : M State (list string) :=
  match group_names with
  | [] => mret groups
  | group_name :: rest =>
      group ← Group_get_or_create group_name;
      let groups := groups ++ [group] in
      if is_current_term then
        group ← Group_get_or_create ("Current " +:+ group_name);
        corresponding_groups_loop is_current_term rest (groups ++ [group])
      else corresponding_groups_loop is_current_term rest groups
  end.

Definition OfficerPosition_get_corresponding_groups
    (self : OfficerPosition) (term : option Term) : M State (list string) :=
  let is_current_term :=
    match term with Some t => current t | None => false end in
  let group_names := [long_name self] in
  let group_names :=
    if negb (auxiliary self) then group_names ++ ["Officer"%string]
    else group_names in
  let group_names :=
    if executive self then group_names ++ ["Executive"%string]
    else group_names in
  corresponding_groups_loop is_current_term group_names [].

(** *** Officer *)

Definition Officer__add_user_to_officer_groups (self : Officer)
    : M State unit :=
  t ← Officer_term self;
  groups ← OfficerPosition_get_corresponding_groups (position self) (Some t);
  modify (set_user_groups
    (λ ug, ug ∪ list_to_set ((λ g, (user self, g)) <$> groups))).

Fixpoint still_needed_groups (officers : list Officer) (groups : gset string)
    : M State (gset string) :=
  match officers with
  | [] => mret groups
  | officer :: rest =>
      t ← Officer_term officer;
      gs ← OfficerPosition_get_corresponding_groups (position officer) (Some t);
      still_needed_groups rest (groups ∪ list_to_set gs)
  end.

Definition Officer__remove_user_from_officer_groups (self : Officer)
    : M State unit :=
  t ← Officer_term self;
  gs ← OfficerPosition_get_corresponding_groups (position self) (Some t);
  let stale_groups : gset string := list_to_set gs in
  st ← get;
  let officers :=
    filter (λ o, user o = user self) (officers st) in
  groups ← still_needed_groups officers ∅;
  let stale_groups := stale_groups ∖ groups in
  modify (set_user_groups
    (λ ug, filter (λ p, ¬ (p.1 = user self ∧ p.2 ∈ stale_groups)) ug)).

Definition officer_post_save (instance : Officer) : M State unit :=
  Officer__add_user_to_officer_groups instance.

Definition officer_post_delete (instance : Officer) : M State unit :=
  Officer__remove_user_from_officer_groups instance.

(** [instance.delete()]: the row leaves the table, then the [post_delete]
    signal runs the connected handler. *)
Definition Officer_delete (instance : Officer) : M State unit :=
  modify (set_officers
    (filter (λ o, officer_pk o ≠ officer_pk instance)));;
  officer_post_delete instance.

(** *** Term *)

Definition Term___term_as_int (self : Term) : M State Z :=
  match TERM_MAPPING !! term self with
  | Some n => mret n
  | None => raise (KeyError (term self))
  end.

Definition Term__calculate_pk (self : Term) : M State Z :=
  n ← Term___term_as_int self;
  mret (year self * 10 + n).

Definition Term_update_term_officer_groups (self : Term) : M State unit :=
  if current self then
    st ← get;
    modify (set_user_groups
      (filter (λ p, ¬ (p.2 ∈ groups st ∧ contains "Current" p.2))));;
    let officers :=
      filter (λ o, Some (term_id o) = id self) (officers st) in
    for_each officers Officer__add_user_to_officer_groups
  else mret tt.

Definition pk_mismatch : exn :=
  ValueError ("You cannot update the year or term without " +:+
              "also updating the primary key value.").

(** Lines 159-163 of [Term.save]: a primary key that is already set must be
    the one [term] and [year] give. *)
Definition Term_check_pk (self : Term) : M State unit :=
  match id self with
  | None => mret tt
  | Some i =>
      if bool_decide (year self ≠ i `div` 10) then raise pk_mismatch
      else
        n ← Term___term_as_int self;
        if bool_decide (n ≠ i `mod` 10) then raise pk_mismatch
        else mret tt
  end.

(** Lines 171-178 of [Term.save]: the body of the atomic block. *)
Definition Term_save_atomic (self : Term) : M State unit :=
  (if current self
   then modify (set_terms (clear_other_current (id self)))
   else mret tt);;
  Model_save self;;
  Term_update_term_officer_groups self;;
  if current self then modify (set_cache (Some self)) else mret tt.

(** [Term.save]; the value returned is [self] as the call leaves it. *)
Definition Term_save (self : Term) : M State Term :=
  if bool_decide (term self = UNKNOWN) && bool_decide (year self = 0)
  then mret self
  else
    Term_check_pk self;;
    pk ← Term__calculate_pk self;
    let self := mkTerm (Some pk) (term self) (year self) (current self) in
    transaction_atomic (Term_save_atomic self);;
    mret self.


(** A Python value passed where a URL name is expected. *)
Inductive value : Type :=
  | VStr (s : string)
  | VInt (z : Z)
  | VNone.



(** *** Term: names and keys *)

Definition TERM_CHOICES : list (string * string) :=
  [(UNKNOWN, "Unknown"); (WINTER, "Winter"); (SPRING, "Spring");
   (SUMMER, "Summer"); (FALL, "Fall")]%string.

(** [self.get_term_display()]: the label of the choice, or the value itself
    when it is no choice. *)
Definition get_term_display (self : Term) : string :=
  match filter (λ c, c.1 = term self) TERM_CHOICES with
  | (_, label) :: _ => label
  | [] => term self
  end.

(** ['%s %d' % (self.get_term_display(), self.year)] *)
Definition verbose_name (self : Term) : string :=
  get_term_display self +:+ " " +:+ str (year self).

Definition natural_key (self : Term) : string * Z := (term self, year self).

Definition Term___str__ (self : Term) : string :=
  let name := verbose_name self in
  if current self then name +:+ " (Current)" else name.

(** *** Term: comparisons *)

(** What a comparison can be handed as [other]. *)
Inductive operand : Type :=
  | OTerm (t : Term)
  | OOther.

(** The first lines of every comparison: an operand that is no [Term] is
    replaced by [Term(year=timezone.now().year, term=Term.UNKNOWN)].
    [this_year] is [timezone.now().year]. *)
Definition as_term (this_year : Z) (other : operand) : Term :=
  match other with
  | OTerm t => t
  | OOther => mkTerm None UNKNOWN this_year false
  end.

Definition Term___lt__ (this_year : Z) (self : Term) (other : operand)
    : M State bool :=
  let other := as_term this_year other in
  if bool_decide (year self < year other) then mret true
  else if bool_decide (year self > year other) then mret false
  else
    a ← Term___term_as_int self;
    b ← Term___term_as_int other;
    mret (bool_decide (a < b)).

Definition Term___le__ (this_year : Z) (self : Term) (other : operand)
    : M State bool :=
  let other := as_term this_year other in
  b ← Term___lt__ this_year other (OTerm self);
  mret (negb b).

Definition Term___eq__ (this_year : Z) (self : Term) (other : operand)
    : bool :=
  let other := as_term this_year other in
  bool_decide (term self = term other) && bool_decide (year self = year other).

Definition Term___ne__ (this_year : Z) (self : Term) (other : operand)
    : bool :=
  let other := as_term this_year other in
  negb (Term___eq__ this_year self (OTerm other)).

Definition Term___gt__ (this_year : Z) (self : Term) (other : operand)
    : M State bool :=
  let other := as_term this_year other in
  Term___lt__ this_year other (OTerm self).

Definition Term___ge__ (this_year : Z) (self : Term) (other : operand)
    : M State bool :=
  let other := as_term this_year other in
  b ← Term___lt__ this_year self (OTerm other);
  mret (negb b).

(** *** TermManager *)

(** [self.get(current=True)] *)
Definition TermManager_get_current : M State Term :=
  λ st, match map_to_list
                (filter (λ kr, current kr.2 = true) (terms st)) with
        | [] => Raise DoesNotExist st
        | [(_, r)] => Return r st
        | _ => Raise MultipleObjectsReturned st
        end.

Definition TermManager_get_current_term : M State (option Term) :=
  st ← get;
  match cache_current_term st with
  | Some term => mret (Some term)
  | None =>
      λ st, match TermManager_get_current st with
            | Return term st' => Return (Some term) (set_cache (Some term) st')
            | Raise DoesNotExist st' => Return None st'
            | Raise e st' => Raise e st'
            end
  end.

Definition TermManager_get_by_natural_key (term : string) (year : Z)
    : M State (option Term) :=
  λ st, match TermManager_get term year st with
        | Return t st' => Return (Some t) st'
        | Raise DoesNotExist st' => Return None st'
        | Raise e st' => Raise e st'
        end.

(** A query set over the term table, as the rows it yields with their
    keys.  [Meta.ordering = ('id',)]: the rows come by ascending [id]. *)
Definition key_le (a b : Z * Term) : Prop := a.1 ≤ b.1.
Definition key_ge (a b : Z * Term) : Prop := b.1 ≤ a.1.

#[global] Instance key_le_dec a b : Decision (key_le a b).
Proof. unfold key_le. apply _. Defined.
#[global] Instance key_ge_dec a b : Decision (key_ge a b).
Proof. unfold key_ge. apply _. Defined.

Definition all_terms (st : State) : list (Z * Term) :=
  merge_sort key_le (map_to_list (terms st)).

(** [getattr(settings, 'TERM_TYPE', 'quarter')], with [None] for a settings
    module that does not define it. *)
Definition getattr_TERM_TYPE (setting : option string) : string :=
  default "quarter"%string setting.

(** [TermManager.get_terms]; the query set is returned as the rows it
    yields in the state the method leaves. *)
Definition TermManager_get_terms (TERM_TYPE : option string)
    (include_future include_summer include_unknown reverse : bool)
    : M State (list Term) :=
  st ← get;
  let terms := all_terms st in
  let terms :=
    if negb include_unknown
    then filter (λ kr, term kr.2 ≠ UNKNOWN) terms else terms in
  let terms :=
    if negb include_summer
    then filter (λ kr, term kr.2 ≠ SUMMER) terms else terms in
  let terms :=
    if bool_decide (getattr_TERM_TYPE TERM_TYPE = "semester"%string)
    then filter (λ kr, term kr.2 ≠ WINTER) terms else terms in
  terms ←
    (if negb include_future then
       current_term ← TermManager_get_current_term;
       match current_term with
       | Some current_term =>
           match id current_term with
           | Some i => mret (filter (λ kr : Z * Term, kr.1 ≤ i) terms)
           | None => raise (ValueError "Cannot use None as a query value")
           end
       | None => mret terms
       end
     else mret terms);
  if reverse then mret (snd <$> merge_sort key_ge terms)
  else mret (snd <$> terms).

(** *** Officer: creation *)

(** [Officer(user=..., position=..., term=...).save()]: a new row.
    [unique_together] and the foreign key to the term are checked, the row
    enters the table under the next primary key, then the [post_save]
    signal runs the connected handler on it. *)
Definition next_officer_pk (rows : list Officer) : nat :=
  S (foldr (λ o n, Nat.max (officer_pk o) n) 0%nat rows).

Definition Officer_create (user_ : nat) (position_ : OfficerPosition)
    (term_id_ : Z) : M State Officer :=
  st ← get;
  if bool_decide (Exists (λ o, user o = user_
                               ∧ short_name (position o) = short_name position_
                               ∧ term_id o = term_id_)
                         (officers st))
     || bool_decide (terms st !! term_id_ = None)
  then raise IntegrityError
  else
    let instance :=
      mkOfficer (next_officer_pk (officers st)) user_ position_ term_id_ in
    modify (set_officers (λ rows, rows ++ [instance]));;
    officer_post_save instance;;
    mret instance.

End Base.

(** ** courses/models.py *)

Module Courses.

Record Department : Type := mkDepartment {
  department_pk : nat;
  long_name : string;
  short_name : string;
  abbreviation : string
}.

Record Course : Type := mkCourse {
  course_pk : nat;
  department : Department;
  number : string
}.

(** What [Course.__lt__] can be handed as [other]. *)
Inductive value : Type :=
  | VCourse (c : Course)
  | VOther.

(** The hyphen handling of lines 64-69: the number without its hyphenated
    suffix, and the suffix read as an integer ([0] without a hyphen). *)
Definition split_hyphen (number : string) : option (string * Z) :=
  match split1 "-" number with
  | Some (before, after) =>
      hyph ← int after;
      Some (before, hyph)
  | None => Some (number, 0)
  end.

(** [Course.__lt__]; [None] stands for the [ValueError] of [int()]. *)
Definition Course___lt__ (self : Course) (other : value) : option bool :=
  match other with
  | VOther => Some false
  | VCourse other =>
      if str_lt (abbreviation (department self))
                (abbreviation (department other)) then Some true
      else if str_gt (abbreviation (department self))
                     (abbreviation (department other)) then Some false
      else
        '(our_number, our_hyph) ← split_hyphen (number self);
        '(oth_number, oth_hyph) ← split_hyphen (number other);
        our_int ← int (strip is_letter our_number);
        oth_int ← int (strip is_letter oth_number);
        let our_post := lstrip is_letter our_number in
        let oth_post := lstrip is_letter oth_number in
        if bool_decide (our_int < oth_int) then Some true
        else if bool_decide (our_int > oth_int) then Some false
        else if str_lt our_post oth_post then Some true
        else if str_gt our_post oth_post then Some false
        else if str_lt our_number oth_number then Some true
        else if str_gt our_number oth_number then Some false
        else Some (bool_decide (our_hyph < oth_hyph))
  end.

(** *** The ordering as it is described

    The second definition follows the description of the ordering, not the
    code: a course number is read as leading letters, an integer, trailing
    letters and an optional hyphenated numeric suffix, and two courses are
    compared on the department abbreviation, the integer, the trailing
    letters, the leading letters and the suffix, in that order. *)

Fixpoint all_letters (s : string) : bool :=
  match s with
  | EmptyString => true
  | String c s' => is_letter c && all_letters s'
  end.

Fixpoint leading_letters (s : string) : string :=
  match s with
  | String c s' => if is_letter c then String c (leading_letters s') else EmptyString
  | EmptyString => EmptyString
  end.

Fixpoint trailing_letters (s : string) : string :=
  match s with
  | String c s' => if all_letters s then s else trailing_letters s'
  | EmptyString => EmptyString
  end.

Record number_parts : Type := mkParts {
  prefix_letters : string;
  integer_part : Z;
  postfix_letters : string;
  hyphen_suffix : Z
}.

(** The number without its hyphenated suffix, and the suffix as an
    integer. *)
Definition base_number (number : string) : string :=
  match split1 "-" number with
  | Some (before, _) => before
  | None => number
  end.

Definition suffix_of (number : string) : option Z :=
  match split1 "-" number with
  | Some (_, after) => int after
  | None => Some 0
  end.

Definition parts_of (number : string) : option number_parts :=
  let base := base_number number in
  let pre := leading_letters base in
  let post := trailing_letters base in
  let middle :=
    str_take (String.length base - String.length pre - String.length post)
             (str_drop (String.length pre) base) in
  n ← int middle;
  h ← suffix_of number;
  Some (mkParts pre n post h).

Definition described_lt (self other : Course) : option bool :=
  let a := abbreviation (department self) in
  let b := abbreviation (department other) in
  if str_lt a b then Some true
  else if str_gt a b then Some false
  else
    p ← parts_of (number self);
    q ← parts_of (number other);
    Some (
      if bool_decide (integer_part p < integer_part q) then true
      else if bool_decide (integer_part p > integer_part q) then false
      else if str_lt (postfix_letters p) (postfix_letters q) then true
      else if str_gt (postfix_letters p) (postfix_letters q) then false
      else if str_lt (prefix_letters p) (prefix_letters q) then true
      else if str_gt (prefix_letters p) (prefix_letters q) then false
      else bool_decide (hyphen_suffix p < hyphen_suffix q)).


(** *** The other comparisons of [Course] *)

Definition Course___le__ (self : Course) (other : value) : option bool :=
  match other with
  | VOther => Some false
  | VCourse other => negb <$> Course___lt__ other (VCourse self)
  end.

Definition Course___eq__ (self : Course) (other : value) : bool :=
  match other with
  | VOther => false
  | VCourse other =>
      bool_decide (number self = number other)
      && bool_decide (department_pk (department self)
                      = department_pk (department other))
  end.

Definition Course___ne__ (self : Course) (other : value) : bool :=
  negb (Course___eq__ self other).

Definition Course___gt__ (self : Course) (other : value) : option bool :=
  match other with
  | VOther => Some false
  | VCourse other => Course___lt__ other (VCourse self)
  end.

Definition Course___ge__ (self : Course) (other : value) : option bool :=
  match other with
  | VOther => Some false
  | VCourse _ => negb <$> Course___lt__ self other
  end.

(** *** Course.save *)

(** [s.upper()] on ASCII. *)
Definition upper_char (c : ascii) : ascii :=
  if between "a" "z" c then ascii_of_N (N_of_ascii c - 32) else c.

Fixpoint upper (s : string) : string :=
  match s with
  | EmptyString => EmptyString
  | String c s' => String (upper_char c) (upper s')
  end.

(** [super(Course, self).save()] on the course table, for an instance that
    carries its primary key: the row with this key is replaced, or the row
    is added; [unique_together = ('department', 'number')] refuses a second
    row with the pair. *)
Definition Course_Model_save (self : Course) : M (list Course) unit :=
  λ rows,
    if bool_decide (Exists (λ r, course_pk r ≠ course_pk self
                                 ∧ department_pk (department r)
                                   = department_pk (department self)
                                 ∧ number r = number self) rows)
    then Raise IntegrityError rows
    else if bool_decide (Exists (λ r, course_pk r = course_pk self) rows)
    then Return tt ((λ r, if bool_decide (course_pk r = course_pk self)
                          then self else r) <$> rows)
    else Return tt (rows ++ [self]).

(** [Course.save]; the value returned is [self] as the call leaves it. *)
Definition Course_save (self : Course) : M (list Course) Course :=
  let self :=
    mkCourse (course_pk self) (department self)
             (strip is_space (upper (number self))) in
  Course_Model_save self;;
  mret self.

End Courses.

(** ** exams/forms.py *)

Module Exams.

Record Instructor : Type := mkInstructor {
  instructor_pk : nat;
  first_name : string;
  last_name : string
}.

Definition full_name (self : Instructor) : string :=
  first_name self +:+ " " +:+ last_name self.

(** A row of [courses.models.CourseInstance].  Foreign keys are primary
    keys of the rows they point at; the many-to-many [instructors] relation
    is the set of instructor keys. *)
Record CourseInstance : Type := mkCourseInstance {
  course_instance_pk : nat;
  ci_term : option Z;
  ci_course : nat;
  ci_instructors : gset nat
}.

(** Modelled from the spec: [exams.models.Exam] is not among the sources.
    The row has its primary key and the three columns the forms filter
    on. *)
Record Exam : Type := mkExam {
  exam_pk : nat;
  exam_course_instance : nat;
  exam_number : string;
  exam_type : string
}.

(** [self.cleaned_data]: a field that failed its own validation is absent,
    and [cleaned_data.get] gives [None] for it. *)
Record CleanedData : Type := mkCleanedData {
  cd_department : option Courses.Department;
  cd_course_number : option string;
  cd_term : option Z;
  cd_instructors : option (list Instructor);
  cd_exam_number : option string;
  cd_exam_type : option string
}.

(** The form object: its input and the attributes the methods assign. *)
Record Form : Type := mkForm {
  cleaned_data : CleanedData;
  instance_pk : option nat;
  _errors : gmap string (list string);
  exam_instructors : option (list Instructor);
  course_instance : option CourseInstance
}.

(** Modelled from the spec: [exams.models.InstructorPermission] is not among
    the sources.  [permissions] is that table, one row per instructor at
    most, as the value of its [permission_allowed] column: [True], [False],
    or [None] for a null.  The other fields are the tables of
    [courses/models.py], the exam table and the form. *)
Record State : Type := mkState {
  courses : list Courses.Course;
  permissions : gmap nat (option bool);
  course_instances : list CourseInstance;
  exams : list Exam;
  form : Form
}.

Definition set_form (f : Form → Form) (st : State) : State :=
  mkState (courses st) (permissions st) (course_instances st) (exams st)
          (f (form st)).
Definition set_course_instances
    (f : list CourseInstance → list CourseInstance) (st : State) : State :=
  mkState (courses st) (permissions st) (f (course_instances st)) (exams st)
          (form st).

Definition set_error (field msg : string) (self : Form) : Form :=
  mkForm (cleaned_data self) (instance_pk self)
         (<[field := [msg]]> (_errors self))
         (exam_instructors self) (course_instance self).
Definition set_exam_instructors (v : option (list Instructor))
    (self : Form) : Form :=
  mkForm (cleaned_data self) (instance_pk self) (_errors self)
         v (course_instance self).
Definition set_course_instance (v : CourseInstance) (self : Form) : Form :=
  mkForm (cleaned_data self) (instance_pk self) (_errors self)
         (exam_instructors self) (Some v).

(** Modelled from the spec: [shortcuts.get_object_or_none] is not among the
    sources.  It is the manager's [get] with [DoesNotExist] turned into
    [None]: the one matching row, [None] without a match, and
    [MultipleObjectsReturned] with several. *)
Definition get_object_or_none {A} (rows : list A) (p : A → bool)
    : M State (option A) :=
  match filter (λ r, p r = true) rows with
  | [] => mret None
  | [r] => mret (Some r)
  | _ => raise MultipleObjectsReturned
  end.

Definition course_matches (department : option Courses.Department)
    (course_number : option string) (c : Courses.Course) : bool :=
  match department, course_number with
  | Some d, Some n =>
      bool_decide (Courses.department_pk (Courses.department c)
                   = Courses.department_pk d)
      && bool_decide (Courses.number c = n)
  | _, _ => false
  end.

(** [str(department)] inside [format]: the long name, or [None]. *)
Definition format_department (d : option Courses.Department) : string :=
  match d with Some d => Courses.long_name d | None => "None" end.
Definition format_str (s : option string) : string :=
  match s with Some s => s | None => "None" end.

Definition ineligible_msg (instructor : Instructor) : string :=
  "Instructor " +:+ full_name instructor +:+
  " has requested that their" +:+
  "exams not be uploaded to our exam files" +:+
  "database.".

(** Lines 64-73: the permission check over the selected instructors. *)
Fixpoint check_permissions (instructors : list Instructor) : M State unit :=
  match instructors with
  | [] => mret tt
  | instructor :: rest =>
      st ← get;
      match permissions st !! instructor_pk instructor with
      | Some permission_allowed =>
          if negb (default false permission_allowed) then
            modify (set_form (set_error "instructors"
                                (ineligible_msg instructor)));;
            raise (ValidationError "Ineligible exam")
          else check_permissions rest
      | None => check_permissions rest
      end
  end.

(** The query of lines 75-81: the annotated count, the term, the course and
    one [filter(instructors=instructor)] per selected instructor. *)
Definition instance_matches (term : option Z) (course : Courses.Course)
    (instructors : list Instructor) (ci : CourseInstance) : bool :=
  bool_decide (size (ci_instructors ci) = length instructors)
  && bool_decide (ci_term ci = term)
  && bool_decide (ci_course ci = Courses.course_pk course)
  && forallb (λ i, bool_decide (instructor_pk i ∈ ci_instructors ci))
             instructors.

Definition fresh_pk (rows : list CourseInstance) : nat :=
  S (foldr (λ ci n, Nat.max (course_instance_pk ci) n) 0%nat rows).

(** Lines 75-89 of [set_course_instance]: the course instance with exactly
    these instructors is looked up, or created. *)
Definition resolve_course_instance (term : option Z)
    (course : Courses.Course) (instructors : list Instructor) : M State unit :=
  st ← get;
  match filter (λ ci, instance_matches term course instructors ci = true)
               (course_instances st) with
  | [] =>
      let ci := mkCourseInstance (fresh_pk (course_instances st))
                  term (Courses.course_pk course)
                  (list_to_set (instructor_pk <$> instructors)) in
      modify (set_course_instances (λ rows, rows ++ [ci]));;
      modify (set_form (set_course_instance ci))
  | [ci] => modify (set_form (set_course_instance ci))
  | _ => raise MultipleObjectsReturned
  end.

Definition invalid_course_msg (department : option Courses.Department)
    (course_number : option string) : string :=
  format_department department +:+ " " +:+ format_str course_number
  +:+ " does not exist.".

Definition ExamForm_set_course_instance : M State unit :=
  st ← get;
  let department := cd_department (cleaned_data (form st)) in
  let course_number := cd_course_number (cleaned_data (form st)) in
  let term := cd_term (cleaned_data (form st)) in
  course ← get_object_or_none (courses st)
             (course_matches department course_number);
  match course with
  | None =>
      let error_msg := invalid_course_msg department course_number in
      modify (set_form (set_error "department" error_msg));;
      modify (set_form (set_error "course_number" error_msg));;
      raise (ValidationError "Invalid course")
  | Some course =>
      modify (set_form
        (set_exam_instructors (cd_instructors (cleaned_data (form st)))));;
      match cd_instructors (cleaned_data (form st)) with
      | None | Some [] => raise (ValidationError "Please fill out all fields.")
      | Some instructors =>
          check_permissions instructors;;
          resolve_course_instance term course instructors
      end
  end.

Definition exam_matches (ci : option CourseInstance)
    (number type : option string) (e : Exam) : bool :=
  bool_decide (Some (exam_course_instance e) = course_instance_pk <$> ci)
  && bool_decide (Some (exam_number e) = number)
  && bool_decide (Some (exam_type e) = type).

Definition upload_duplicate : exn :=
  ValidationError "This exam already exists in the database.".
Definition edit_duplicate : exn :=
  ValidationError ("This exam already exists in the database. " +:+
                   "Please double check and delete as necessary.").

Definition UploadForm_clean : M State CleanedData :=
  st ← get;
  let cleaned_data := cleaned_data (form st) in
  ExamForm_set_course_instance;;
  st ← get;
  let duplicates :=
    filter (λ e, exam_matches (course_instance (form st))
                   (cd_exam_number cleaned_data)
                   (cd_exam_type cleaned_data) e = true) (exams st) in
  if bool_decide (duplicates ≠ []) then raise upload_duplicate
  else mret cleaned_data.

Definition EditForm_clean : M State CleanedData :=
  st ← get;
  let cleaned_data := cleaned_data (form st) in
  ExamForm_set_course_instance;;
  st ← get;
  let duplicates :=
    filter (λ e, Some (exam_pk e) ≠ instance_pk (form st))
      (filter (λ e, exam_matches (course_instance (form st))
                      (cd_exam_number cleaned_data)
                      (cd_exam_type cleaned_data) e = true) (exams st)) in
  if bool_decide (duplicates ≠ []) then raise edit_duplicate
  else mret cleaned_data.

(** Lines 138-142 of [UploadForm.save]: the loop over
    [self.exam_instructors] that marks the exam.  The value threaded is
    [self.instance.blacklisted], as it is when [super().save] is called. *)
Fixpoint UploadForm_save_blacklisted (instructors : list Instructor)
    (blacklisted : bool) : M State bool :=
  match instructors with
  | [] => mret blacklisted
  | instructor :: rest =>
      st ← get;
      match permissions st !! instructor_pk instructor with
      | Some (Some false) => UploadForm_save_blacklisted rest true
      | _ => UploadForm_save_blacklisted rest blacklisted
      end
  end.

End Exams.

(** ** Definitions used to state the properties *)

Import Base.

(** The names [get_corresponding_groups] starts from (lines 321-329). *)
Definition position_group_names (p : OfficerPosition) : list string :=
  [long_name p]
  ++ (if negb (auxiliary p) then ["Officer"%string] else [])
  ++ (if executive p then ["Executive"%string] else []).

(** Each name, followed by its "Current" variant for a current term. *)
Definition with_current (is_current_term : bool) (names : list string)
    : list string :=
  flat_map (λ n, if is_current_term then [n; "Current " +:+ n] else [n]) names.

(** The groups an officer row corresponds to in a given state: what
    [position.get_corresponding_groups(term=officer.term)] returns there. *)
Definition corresponding_groups (st : State) (o : Officer) : list string :=
  match Officer_term o st with
  | Return t st1 =>
      match OfficerPosition_get_corresponding_groups (position o) (Some t) st1 with
      | Return gs _ => gs
      | Raise _ _ => []
      end
  | Raise _ _ => []
  end.

Definition is_current (term : option Term) : bool :=
  match term with Some t => current t | None => false end.

(** Two states that differ at most by auth groups that were created. *)
Definition only_groups_added (st st' : State) : Prop :=
  terms st' = terms st ∧ cache_current_term st' = cache_current_term st
  ∧ user_groups st' = user_groups st ∧ officers st' = officers st
  ∧ groups st ⊆ groups st'.

Definition sentinel (self : Term) : Prop :=
  term self = UNKNOWN ∧ year self = 0.

Definition at_most_one_current (m : gmap Z Term) : Prop :=
  ∀ k1 k2 r1 r2,
    m !! k1 = Some r1 → m !! k2 = Some r2 →
    current r1 = true → current r2 = true → k1 = k2.

(** The constraints the schema declares on the term table: the term code is
    one of the choices, and [(term, year)] is unique. *)
Definition schema_ok (m : gmap Z Term) : Prop :=
  (∀ k r, m !! k = Some r → is_Some (TERM_MAPPING !! term r))
  ∧ (∀ k1 k2 r1 r2,
       m !! k1 = Some r1 → m !! k2 = Some r2 →
       term r1 = term r2 → year r1 = year r2 → k1 = k2).

(** Every stored year is one the database can be asked for. *)
Definition years_storable (m : gmap Z Term) : Prop :=
  ∀ k r, m !! k = Some r → storable (year r).

(** Every officer row's user is in the groups the row corresponds to. *)
Definition groups_justified (st : State) : Prop :=
  ∀ o g, o ∈ officers st → g ∈ corresponding_groups st o →
         (user o, g) ∈ user_groups st.

(** The memberships the rows [os] justify. *)
Definition memberships_of (st : State) (os : list Officer)
    : gset (nat * string) :=
  list_to_set (flat_map (λ o, (λ g, (user o, g)) <$> corresponding_groups st o)
                        os).

(** Foreign keys hold: officer rows point at stored terms, memberships at
    existing groups. *)
Definition officers_have_terms (st : State) : Prop :=
  ∀ o, o ∈ officers st → is_Some (terms st !! term_id o).
Definition memberships_have_groups (st : State) : Prop :=
  ∀ u g, (u, g) ∈ user_groups st → g ∈ groups st.

(** What [get_terms] keeps of the row [t] stored under [k], when [cur] is
    what [get_current_term] answered. *)
Definition term_listed (TERM_TYPE : option string)
    (include_future include_summer include_unknown : bool)
    (cur : option Term) (k : Z) (t : Term) : Prop :=
  (include_unknown = false → term t ≠ UNKNOWN)
  ∧ (include_summer = false → term t ≠ SUMMER)
  ∧ (getattr_TERM_TYPE TERM_TYPE = "semester"%string → term t ≠ WINTER)
  ∧ (include_future = false →
     ∀ c i, cur = Some c → id c = Some i → k ≤ i).

(** The rows [get_terms] has selected before it asks for the current term. *)
Definition static_rows (TERM_TYPE : option string)
    (include_summer include_unknown : bool) (st : State) : list (Z * Term) :=
  let terms := all_terms st in
  let terms :=
    if negb include_unknown
    then filter (λ kr, term kr.2 ≠ UNKNOWN) terms else terms in
  let terms :=
    if negb include_summer
    then filter (λ kr, term kr.2 ≠ SUMMER) terms else terms in
  if bool_decide (getattr_TERM_TYPE TERM_TYPE = "semester"%string)
  then filter (λ kr, term kr.2 ≠ WINTER) terms else terms.

(** The rows [get_terms] has selected before it orders them. *)
Definition selected_rows (TERM_TYPE : option string)
    (include_future include_summer include_unknown : bool)
    : M State (list (Z * Term)) :=
  st ← get;
  let terms := static_rows TERM_TYPE include_summer include_unknown st in
  if negb include_future then
    current_term ← TermManager_get_current_term;
    match current_term with
    | Some current_term =>
        match id current_term with
        | Some i => mret (filter (λ kr : Z * Term, kr.1 ≤ i) terms)
        | None => raise (ValueError "Cannot use None as a query value")
        end
    | None => mret terms
    end
  else mret terms.

Definition key_lt (a b : Z * Term) : Prop := a.1 < b.1.
Definition key_gt (a b : Z * Term) : Prop := b.1 < a.1.

(** *** Course ordering *)

(** What [Course.__lt__] compares of a number, in the order it compares
    it: the integer, the number without its leading letters, the number
    without its suffix, and the suffix. *)
Definition number_key (number : string) : option (Z * (string * (string * Z))) :=
  '(num, hyph) ← Courses.split_hyphen number;
  i ← int (strip is_letter num);
  Some (i, (lstrip is_letter num, (num, hyph))).

(** A three-way comparison that is an order: [Eq] is equality, swapping
    the operands swaps the answer, and [Lt] is transitive. *)
Class Ordering {A} (cmp : A → A → comparison) : Prop := {
  cmp_eq x y : cmp x y = Eq ↔ x = y;
  cmp_opp x y : cmp y x = CompOpp (cmp x y);
  cmp_trans x y z : cmp x y = Lt → cmp y z = Lt → cmp x z = Lt
}.

Definition lex {A B} (cmpA : A → A → comparison) (cmpB : B → B → comparison)
    (x y : A * B) : comparison :=
  match cmpA x.1 y.1 with
  | Eq => cmpB x.2 y.2
  | c => c
  end.

Definition key_compare
    : Z * (string * (string * Z)) → Z * (string * (string * Z)) → comparison :=
  lex Z.compare (lex String.compare (lex String.compare Z.compare)).

Definition course_compare (a b : Courses.Course) : option comparison :=
  match String.compare (Courses.abbreviation (Courses.department a))
                       (Courses.abbreviation (Courses.department b)) with
  | Eq =>
      ka ← number_key (Courses.number a);
      kb ← number_key (Courses.number b);
      Some (key_compare ka kb)
  | c => Some c
  end.

(** A string as [Course.save] leaves a number: no lower-case letter, no
    white space at either end. *)
Definition normalised (s : string) : Prop :=
  Forall (λ c, between "a" "z" c = false) (list_ascii_of_string s)
  ∧ lstrip is_space s = s ∧ rstrip is_space s = s.

(** What the course table guarantees: primary keys are unique, so is the
    pair of department and number, and every number is as [Course.save]
    writes it. *)
Definition course_table_ok (rows : list Courses.Course) : Prop :=
  NoDup (Courses.course_pk <$> rows)
  ∧ (∀ r1 r2, r1 ∈ rows → r2 ∈ rows →
       Courses.department_pk (Courses.department r1)
       = Courses.department_pk (Courses.department r2) →
       Courses.number r1 = Courses.number r2 →
       Courses.course_pk r1 = Courses.course_pk r2)
  ∧ Forall (λ r, normalised (Courses.number r)) rows.

(** *** Exam forms *)

(** The instructors the form selected. *)
Definition selected (st : Exams.State) : list Exams.Instructor :=
  default [] (Exams.cd_instructors (Exams.cleaned_data (Exams.form st))).

(** The course the form names is in the course table, once. *)
Definition course_found (st : Exams.State) (course : Courses.Course) : Prop :=
  filter (λ c, Exams.course_matches
                 (Exams.cd_department (Exams.cleaned_data (Exams.form st)))
                 (Exams.cd_course_number (Exams.cleaned_data (Exams.form st)))
                 c = true)
         (Exams.courses st) = [course].

(** A course instance has exactly the term, the course and the instructors
    of the form: as many instructors as were selected, and each of them. *)
Definition exact_match (term : option Z) (course : Courses.Course)
    (instructors : list Exams.Instructor) (ci : Exams.CourseInstance) : Prop :=
  Exams.ci_term ci = term
  ∧ Exams.ci_course ci = Courses.course_pk course
  ∧ size (Exams.ci_instructors ci) = length instructors
  ∧ ∀ i, i ∈ instructors → Exams.instructor_pk i ∈ Exams.ci_instructors ci.

(** A stored exam has the course instance, number and type of the form. *)
Definition same_exam (st : Exams.State) (ci : Exams.CourseInstance)
    (e : Exams.Exam) : Prop :=
  Exams.exam_course_instance e = Exams.course_instance_pk ci
  ∧ Some (Exams.exam_number e)
    = Exams.cd_exam_number (Exams.cleaned_data (Exams.form st))
  ∧ Some (Exams.exam_type e)
    = Exams.cd_exam_type (Exams.cleaned_data (Exams.form st)).

(** [self._errors.get(field)] *)
Definition errors_on (field : string) (st : Exams.State)
    : option (list string) :=
  Exams._errors (Exams.form st) !! field.

(** [set_course_instance] touched nothing but the form's own attributes and
    the course instance table. *)
Definition form_frame (st st' : Exams.State) : Prop :=
  Exams.courses st' = Exams.courses st
  ∧ Exams.permissions st' = Exams.permissions st
  ∧ Exams.exams st' = Exams.exams st
  ∧ Exams.cleaned_data (Exams.form st') = Exams.cleaned_data (Exams.form st)
  ∧ Exams.instance_pk (Exams.form st') = Exams.instance_pk (Exams.form st).

(** Every stored exam points at a stored course instance: the foreign key
    of [Exam.course_instance]. *)
Definition exams_reference_instances (st : Exams.State) : Prop :=
  ∀ e, e ∈ Exams.exams st →
    ∃ ci, ci ∈ Exams.course_instances st
          ∧ Exams.course_instance_pk ci = Exams.exam_course_instance e.

(** *** Example data *)

Definition empty_db : State := mkState ∅ None ∅ ∅ [].

Definition fall_2012 : Term := mkTerm None FALL 2012 true.
Definition fall_2012_saved : Term := mkTerm (Some 20124) FALL 2012 true.
Definition sentinel_current : Term := mkTerm None UNKNOWN 0 true.

(** The state after [fall_2012.save()] on the empty database. *)
Definition db_fall : State :=
  mkState {[ 20124 := fall_2012_saved ]} (Some fall_2012_saved) ∅ ∅ [].

Definition president : OfficerPosition :=
  mkOfficerPosition "pres" "President" true false.
Definition historian : OfficerPosition :=
  mkOfficerPosition "hist" "Historian" false false.

Definition officer_president : Officer := mkOfficer 1 7 president 20124.
Definition officer_historian : Officer := mkOfficer 2 7 historian 20124.

(** User 7 holds two positions in the current term and is in every group
    they correspond to. *)
Definition db_officers : State :=
  mkState {[ 20124 := fall_2012_saved ]} (Some fall_2012_saved)
    (list_to_set ["President"; "Current President"; "Officer";
                  "Current Officer"; "Executive"; "Current Executive";
                  "Historian"; "Current Historian"]%string)
    (list_to_set [(7%nat, "President"); (7%nat, "Current President");
                  (7%nat, "Officer"); (7%nat, "Current Officer");
                  (7%nat, "Executive"); (7%nat, "Current Executive");
                  (7%nat, "Historian"); (7%nat, "Current Historian")]%string)
    [officer_president; officer_historian].

Definition db_officers_after : State :=
  match Officer_delete officer_president db_officers with
  | Return _ st | Raise _ st => st
  end.

Definition compsci : Courses.Department :=
  Courses.mkDepartment 1 "Computer Science" "CS" "COMPSCI".
Definition cs_061B : Courses.Course := Courses.mkCourse 1 compsci "061B".
Definition cs_61A : Courses.Course := Courses.mkCourse 2 compsci "61A".
Definition cs_C61AL : Courses.Course := Courses.mkCourse 3 compsci "C61AL".

Definition harvey : Exams.Instructor := Exams.mkInstructor 1 "Brian" "Harvey".

Definition upload_61A : Exams.Form :=
  Exams.mkForm
    (Exams.mkCleanedData (Some compsci) (Some "61A"%string) (Some 20124)
       (Some [harvey]) (Some "mt1"%string) (Some "exam"%string))
    None ∅ None None.

(** The course table is empty and the instructor has refused. *)
Definition exams_no_course : Exams.State :=
  Exams.mkState [] {[ 1%nat := Some false ]} [] [] upload_61A.
(** The course exists and the instructor has refused. *)
Definition exams_refused : Exams.State :=
  Exams.mkState [cs_61A] {[ 1%nat := Some false ]} [] [] upload_61A.
(** The course exists and the instructor has no permission row. *)
Definition exams_fresh : Exams.State :=
  Exams.mkState [cs_61A] ∅ [] [] upload_61A.
Definition exams_fresh_after : Exams.State :=
  match Exams.ExamForm_set_course_instance exams_fresh with
  | Return _ st | Raise _ st => st
  end.

Definition spring_2013 : Term := mkTerm None SPRING 2013 false.
Definition spring_2013_saved : Term := mkTerm (Some 20132) SPRING 2013 false.

(** The state after [spring_2013.save()] on [db_fall]. *)
Definition db_spring : State :=
  match Term_save spring_2013 db_fall with
  | Return _ st | Raise _ st => st
  end.

Definition spring_2013_current : Term := mkTerm None SPRING 2013 true.

(** The state after [spring_2013_current.save()] on [db_fall]. *)
Definition db_spring_current : State :=
  match Term_save spring_2013_current db_fall with
  | Return _ st | Raise _ st => st
  end.

Definition fall_2011_saved : Term := mkTerm (Some 20114) FALL 2011 true.

(** A table in which two terms are current, as a bulk update can leave it,
    and the state after [spring_2013.save()] on it. *)
Definition db_two_current : State :=
  mkState {[ 20114 := fall_2011_saved; 20124 := fall_2012_saved ]} None ∅ ∅ [].
Definition db_two_current_after : State :=
  match Term_save spring_2013 db_two_current with
  | Return _ st | Raise _ st => st
  end.
Definition spring_2013_current_saved : Term :=
  mkTerm (Some 20132) SPRING 2013 true.

(** The state after a new current term is saved over [db_officers]. *)
Definition db_officers_spring : State :=
  match Term_save spring_2013_current db_officers with
  | Return _ st | Raise _ st => st
  end.

Definition cs_61b_typed : Courses.Course := Courses.mkCourse 4 compsci " 61b ".
Definition cs_61B : Courses.Course := Courses.mkCourse 4 compsci "61B".
Definition cs_61a_typed : Courses.Course := Courses.mkCourse 5 compsci "61a ".

Definition instance_61A : Exams.CourseInstance :=
  Exams.mkCourseInstance 1 (Some 20124) 2 {[ 1%nat ]}.
Definition midterm_61A : Exams.Exam := Exams.mkExam 1 1 "mt1" "exam".

(** The exam the form uploads is stored already. *)
Definition exams_stored : Exams.State :=
  Exams.mkState [cs_61A] ∅ [instance_61A] [midterm_61A] upload_61A.
Definition exams_stored_after : Exams.State :=
  match Exams.UploadForm_clean exams_stored with
  | Return _ st | Raise _ st => st
  end.

(** ** Properties *)

Ltac run :=
  unfold mbind, M_bind, mret, M_ret, bind, ret, raise, modify, get, put;
  simpl.

Section term_save.

Lemma TERM_MAPPING_lookup s m :
  TERM_MAPPING !! s = Some m ↔
  (s = UNKNOWN ∧ m = 0) ∨ (s = WINTER ∧ m = 1) ∨ (s = SPRING ∧ m = 2)
  ∨ (s = SUMMER ∧ m = 3) ∨ (s = FALL ∧ m = 4).
Proof.
  unfold TERM_MAPPING. rewrite !lookup_insert_Some, lookup_empty.
  unfold UNKNOWN, WINTER, SPRING, SUMMER, FALL.
  split.
  - intros H. repeat (destruct H as [[<- <-]|[? H]]; [tauto|]). done.
  - intros H.
    repeat (destruct H as [[-> ->]|H]; [repeat (first [left; done | right; split; [done|]])|]).
    destruct H as [-> ->]. repeat (first [left; done | right; split; [done|]]).
Qed.

Lemma TERM_MAPPING_range s m : TERM_MAPPING !! s = Some m → 0 ≤ m ≤ 4.
Proof. rewrite TERM_MAPPING_lookup. naive_solver lia. Qed.

End term_save.
Section officer_groups.

Lemma corresponding_groups_loop_run cur names acc st :
  corresponding_groups_loop cur names acc st =
  Return (acc ++ with_current cur names)
         (set_groups (λ g, list_to_set (with_current cur names) ∪ g) st).
Proof.
  revert acc st. induction names as [|n names IH]; intros acc st; run.
  - rewrite app_nil_r. destruct st; unfold set_groups; simpl.
    f_equal. f_equal. set_solver.
  - destruct cur; run.
    + rewrite IH.
      rewrite <- !app_assoc. simpl. f_equal.
      destruct st; unfold set_groups; simpl. f_equal. set_solver.
    + rewrite IH. rewrite <- !app_assoc. simpl. f_equal.
      destruct st; unfold set_groups; simpl. f_equal. set_solver.
Qed.

Lemma get_corresponding_groups_run p term st :
  OfficerPosition_get_corresponding_groups p term st =
  Return (with_current (is_current term) (position_group_names p))
         (set_groups
            (λ g, list_to_set
                    (with_current (is_current term) (position_group_names p)) ∪ g)
            st).
Proof.
  unfold OfficerPosition_get_corresponding_groups, position_group_names.
  rewrite corresponding_groups_loop_run. simpl.
  destruct (auxiliary p), (executive p); simpl; reflexivity.
Qed.

Lemma elem_of_with_current cur names g :
  g ∈ with_current cur names ↔
  g ∈ names ∨ (cur = true ∧ ∃ n, n ∈ names ∧ g = "Current " +:+ n).
Proof.
  unfold with_current. rewrite list_elem_of_In, in_flat_map. split.
  - intros (n & Hn & Hg). apply list_elem_of_In in Hn.
    destruct cur; simpl in Hg.
    + destruct Hg as [<-|[<-|[]]]; [by left|]. right. eauto.
    + destruct Hg as [<-|[]]. by left.
  - intros [Hg|(-> & n & Hn & ->)].
    + exists g. rewrite <- list_elem_of_In. split; [done|].
      destruct cur; simpl; auto.
    + exists n. rewrite <- list_elem_of_In. split; [done|]. simpl. auto.
Qed.

Lemma elem_of_position_group_names p n :
  n ∈ position_group_names p ↔
  n = long_name p ∨ (auxiliary p = false ∧ n = "Officer"%string)
  ∨ (executive p = true ∧ n = "Executive"%string).
Proof.
  unfold position_group_names.
  destruct (auxiliary p), (executive p); simpl;
    rewrite ?elem_of_cons, ?elem_of_nil; naive_solver.
Qed.


(** C2. [get_corresponding_groups] returns the group named after the
    position, [Officer] unless the position is auxiliary, [Executive] when it
    is executive, and the [Current] variant of each of these exactly when the
    term is current; nothing else.  Every returned group exists afterwards. *)
Theorem get_corresponding_groups_exact (p : OfficerPosition) (t : Term) (st : State) :
  let base n :=
    n = long_name p ∨ (auxiliary p = false ∧ n = "Officer"%string)
    ∨ (executive p = true ∧ n = "Executive"%string) in
  ∃ gs st',
    OfficerPosition_get_corresponding_groups p (Some t) st = Return gs st'
    ∧ (∀ g, g ∈ gs ↔
            base g ∨ (current t = true ∧ ∃ n, base n ∧ g = "Current " +:+ n))
    ∧ (∀ g, g ∈ gs → g ∈ groups st')
    ∧ only_groups_added st st'.
Proof.
  intros base. rewrite get_corresponding_groups_run. eexists _, _.
  split; [reflexivity|]. split; [|split].
  - intros g. rewrite elem_of_with_current, elem_of_position_group_names.
    simpl. unfold base.
    setoid_rewrite elem_of_position_group_names. reflexivity.
  - intros g Hg. simpl. set_solver.
  - unfold only_groups_added. simpl. set_solver.
Qed.

Lemma only_groups_added_refl st : only_groups_added st st.
Proof. unfold only_groups_added. set_solver. Qed.

Lemma only_groups_added_trans st1 st2 st3 :
  only_groups_added st1 st2 → only_groups_added st2 st3 →
  only_groups_added st1 st3.
Proof.
  unfold only_groups_added. intros (?&?&?&?&?) (?&?&?&?&?).
  repeat split; try congruence. set_solver.
Qed.

Lemma only_groups_added_set_groups st names :
  only_groups_added st (set_groups (λ g, names ∪ g) st).
Proof. unfold only_groups_added. simpl. set_solver. Qed.

Lemma corresponding_groups_eq st o t :
  terms st !! term_id o = Some t →
  corresponding_groups st o =
  with_current (current t) (position_group_names (position o)).
Proof.
  intros Ht. unfold corresponding_groups, Officer_term. rewrite Ht.
  by rewrite get_corresponding_groups_run.
Qed.

Lemma corresponding_groups_frame st st' o :
  terms st' = terms st →
  corresponding_groups st' o = corresponding_groups st o.
Proof.
  intros Ht. unfold corresponding_groups, Officer_term. rewrite Ht.
  destruct (terms st !! term_id o); [|done].
  by rewrite !get_corresponding_groups_run.
Qed.

Lemma still_needed_groups_run os acc st :
  (∀ o, o ∈ os → is_Some (terms st !! term_id o)) →
  ∃ st', still_needed_groups os acc st =
           Return (acc ∪ list_to_set (flat_map (corresponding_groups st) os)) st'
         ∧ only_groups_added st st'.
Proof.
  revert acc st. induction os as [|o os IH]; intros acc st Hfk.
  - exists st. run. split; [|apply only_groups_added_refl].
    f_equal. set_solver.
  - destruct (Hfk o) as [t Ht]; [set_solver|].
    simpl. run. unfold Officer_term at 1. rewrite Ht.
    rewrite get_corresponding_groups_run.
    set (st1 := set_groups _ st).
    destruct (IH (acc ∪ list_to_set
                    (with_current (is_current (Some t))
                       (position_group_names (position o)))) st1)
      as (st' & Hrun & Hadd).
    { intros o' Ho'. simpl. apply Hfk. set_solver. }
    exists st'. rewrite Hrun. split.
    + f_equal. rewrite (corresponding_groups_eq st o t Ht).
      rewrite list_to_set_app_L.
      assert (Hfl : flat_map (corresponding_groups st1) os
                    = flat_map (corresponding_groups st) os).
      { apply flat_map_ext. intros a. by apply corresponding_groups_frame. }
      rewrite Hfl. simpl. set_solver.
    + eapply only_groups_added_trans; [|exact Hadd].
      apply only_groups_added_set_groups.
Qed.

(** Deleting [o] returns when the foreign keys of [o] and of the remaining
    rows of its user point at stored terms. *)
Lemma officer_delete_run (st : State) (o : Officer) :
  (∀ o', o' = o ∨ (o' ∈ officers st ∧ officer_pk o' ≠ officer_pk o
                   ∧ user o' = user o) →
         is_Some (terms st !! term_id o')) →
  ∃ st',
    Officer_delete o st = Return tt st'
    ∧ officers st' =
        filter (λ o', officer_pk o' ≠ officer_pk o) (officers st)
    ∧ terms st' = terms st
    ∧ ∀ u g,
        (u, g) ∈ user_groups st' ↔
        (u, g) ∈ user_groups st
        ∧ ¬ (u = user o ∧ g ∈ corresponding_groups st o
             ∧ ∀ o', o' ∈ officers st' → user o' = user o →
                     g ∉ corresponding_groups st o').
Proof.
  intros Hfk.
  destruct (Hfk o) as [t Ht]; [by left|].
  unfold Officer_delete, officer_post_delete,
    Officer__remove_user_from_officer_groups.
  run. unfold Officer_term at 1. simpl. rewrite Ht.
  rewrite get_corresponding_groups_run.
  set (st1 := set_groups _ _).
  set (remaining := filter (λ o', officer_pk o' ≠ officer_pk o) (officers st)).
  destruct (still_needed_groups_run
              (filter (λ o0, user o0 = user o) remaining) ∅ st1)
    as (st' & Hrun & Hadd).
  { intros o' Ho'. simpl. apply Hfk. right.
    apply list_elem_of_filter in Ho' as [Hu Ho'].
    apply list_elem_of_filter in Ho' as [Hpk Ho']. done. }
  change (officers st1) with remaining. rewrite Hrun.
  destruct Hadd as (Hterms & Hcache & Hug & Hoff & Hgr).
  eexists. split; [reflexivity|]. simpl.
  split; [exact Hoff|]. split; [exact Hterms|].
  intros u g. rewrite elem_of_filter. simpl. rewrite Hug. simpl.
  rewrite (corresponding_groups_eq st o t Ht).
  assert (Hneeded : ∀ g,
    g ∈ (list_to_set (flat_map (corresponding_groups st1)
           (filter (λ o0, user o0 = user o) remaining)) : gset string) ↔
    ∃ o', o' ∈ officers st' ∧ user o' = user o ∧ g ∈ corresponding_groups st o').
  { intros g'. rewrite elem_of_list_to_set, list_elem_of_In, in_flat_map.
    rewrite Hoff. change (officers st1) with remaining. split.
    - intros (o' & Ho' & Hg'). apply list_elem_of_In, list_elem_of_filter in Ho'.
      destruct Ho' as [Hu Ho']. exists o'. repeat split; try done.
      rewrite <- (corresponding_groups_frame st st1); [|done].
      by apply list_elem_of_In.
    - intros (o' & Ho' & Hu & Hg'). exists o'. split.
      + apply list_elem_of_In. apply list_elem_of_filter. by split.
      + apply list_elem_of_In.
        rewrite (corresponding_groups_frame st st1); done. }
  rewrite elem_of_difference, elem_of_list_to_set.
  split.
  - intros [Hn Hin]. split; [done|]. intros (-> & Hg & Hnone).
    apply Hn. split; [done|]. split; [done|].
    rewrite union_empty_l_L, Hneeded. intros (o' & Ho' & Hu & Hg').
    by apply (Hnone o').
  - intros [Hin Hn]. split; [|done]. intros (-> & Hg & Hnot).
    apply Hn. split; [done|]. split; [done|].
    intros o' Ho' Hu Hg'. apply Hnot. rewrite union_empty_l_L, Hneeded.
    eauto.
Qed.

Lemma still_needed_groups_cases os acc st :
  (∀ o, o ∈ os → is_Some (terms st !! term_id o))
  ∨ ∃ st', still_needed_groups os acc st = Raise DoesNotExist st'.
Proof.
  revert acc st. induction os as [|o os IH]; intros acc st.
  - left. intros o Ho. by apply elem_of_nil in Ho.
  - destruct (terms st !! term_id o) as [t|] eqn:Ht.
    + simpl. run. unfold Officer_term at 1. rewrite Ht.
      rewrite get_corresponding_groups_run.
      match goal with
      | |- context [still_needed_groups os ?a ?s] =>
          destruct (IH a s) as [Hall | [st' Hst']]
      end.
      * left. intros o' Ho'. apply elem_of_cons in Ho' as [->|Ho'].
        -- by rewrite Ht.
        -- by apply Hall in Ho'.
      * right. eauto.
    + right. exists st. simpl. run. unfold Officer_term. by rewrite Ht.
Qed.

(** C3. Once an officer row is deleted, its user has left exactly those of
    the row's corresponding groups that no remaining officer row of the
    same user corresponds to; every other membership, and so every group
    another remaining row of that user still justifies, stays as it was. *)
Theorem officer_delete_groups (st st' : State) (o : Officer) :
  Officer_delete o st = Return tt st' →
  officers st' = filter (λ o', officer_pk o' ≠ officer_pk o) (officers st)
  ∧ terms st' = terms st
  ∧ ∀ u g,
      (u, g) ∈ user_groups st' ↔
      (u, g) ∈ user_groups st
      ∧ ¬ (u = user o ∧ g ∈ corresponding_groups st o
           ∧ ∀ o', o' ∈ officers st' → user o' = user o →
                   g ∉ corresponding_groups st o').
Proof.
  intros Hret.
  assert (Hfk : ∀ o', o' = o ∨ (o' ∈ officers st ∧ officer_pk o' ≠ officer_pk o
                                ∧ user o' = user o) →
                      is_Some (terms st !! term_id o')).
  { assert (Ho : is_Some (terms st !! term_id o)).
    { destruct (terms st !! term_id o) as [t|] eqn:Ht; [done|]. exfalso.
      revert Hret. unfold Officer_delete, officer_post_delete,
        Officer__remove_user_from_officer_groups. run.
      unfold Officer_term. simpl. by rewrite Ht. }
    intros o' [->|(Hin & Hpk & Hu)]; [done|].
    destruct Ho as [t Ht].
    revert Hret. unfold Officer_delete, officer_post_delete,
      Officer__remove_user_from_officer_groups. run.
    unfold Officer_term at 1. simpl. rewrite Ht.
    rewrite get_corresponding_groups_run.
    match goal with
    | |- context [still_needed_groups ?l ?a ?s] =>
        destruct (still_needed_groups_cases l a s) as [Hall | [st2 Hst2]]
    end.
    - intros _. apply (Hall o').
      apply list_elem_of_filter. split; [done|].
      apply list_elem_of_filter. by split.
    - rewrite Hst2. done. }
  destruct (officer_delete_run st o Hfk) as (st2 & Hrun & Hrest).
  rewrite Hrun in Hret. injection Hret as <-. exact Hrest.
Qed.

End officer_groups.

Section term_save_run.

Lemma bind_return {S A B} (m : M S A) (k : A → M S B) st a st' :
  m st = Return a st' → (m ≫= k) st = k a st'.
Proof. intros H. unfold mbind, M_bind, bind. by rewrite H. Qed.

Lemma bind_raise {S A B} (m : M S A) (k : A → M S B) st e st' :
  m st = Raise e st' → (m ≫= k) st = Raise e st'.
Proof. intros H. unfold mbind, M_bind, bind. by rewrite H. Qed.

Lemma pk_div_mod (i y m : Z) :
  0 ≤ m ≤ 4 → (i = y * 10 + m ↔ y = i `div` 10 ∧ m = i `mod` 10).
Proof. intros Hm. Z.to_euclidean_division_equations. lia. Qed.

Lemma set_cache_same st : set_cache (cache_current_term st) st = st.
Proof. by destruct st. Qed.

Lemma add_user_run o st :
  is_Some (terms st !! term_id o) →
  ∃ st', Officer__add_user_to_officer_groups o st = Return tt st'
         ∧ terms st' = terms st
         ∧ cache_current_term st' = cache_current_term st
         ∧ officers st' = officers st.
Proof.
  intros [t Ht]. unfold Officer__add_user_to_officer_groups. run.
  unfold Officer_term. rewrite Ht. rewrite get_corresponding_groups_run.
  eexists. split; [reflexivity|]. done.
Qed.

Lemma add_users_run os st :
  (∀ o, o ∈ os → is_Some (terms st !! term_id o)) →
  ∃ st', for_each os Officer__add_user_to_officer_groups st = Return tt st'
         ∧ terms st' = terms st
         ∧ cache_current_term st' = cache_current_term st
         ∧ officers st' = officers st.
Proof.
  revert st. induction os as [|o os IH]; intros st Hfk.
  - exists st. by run.
  - destruct (add_user_run o st) as (st1 & Hrun & Ht & Hc & Ho).
    { apply Hfk. set_solver. }
    destruct (IH st1) as (st2 & Hrun2 & Ht2 & Hc2 & Ho2).
    { intros o' Ho'. rewrite Ht. apply Hfk. set_solver. }
    exists st2. simpl. run. rewrite Hrun, Hrun2.
    repeat split; congruence.
Qed.

Lemma update_term_officer_groups_run self pk st :
  id self = Some pk → is_Some (terms st !! pk) →
  ∃ st', Term_update_term_officer_groups self st = Return tt st'
         ∧ terms st' = terms st
         ∧ cache_current_term st' = cache_current_term st
         ∧ officers st' = officers st.
Proof.
  intros Hid Hpk. unfold Term_update_term_officer_groups.
  destruct (current self); [|exists st; by run].
  run. set (st1 := set_user_groups _ st).
  destruct (add_users_run
              (filter (λ o, Some (term_id o) = id self) (officers st)) st1)
    as (st2 & Hrun & Ht & Hc & Ho).
  { intros o Ho. apply list_elem_of_filter in Ho as [Ho _].
    rewrite Hid in Ho. injection Ho as ->. done. }
  exists st2. rewrite Hrun. done.
Qed.

Lemma Term_check_pk_ok self st m :
  TERM_MAPPING !! term self = Some m →
  id self = None ∨ id self = Some (year self * 10 + m) →
  Term_check_pk self st = Return tt st.
Proof.
  intros Hm Hid. pose proof (TERM_MAPPING_range _ _ Hm) as Hrange.
  unfold Term_check_pk. destruct Hid as [-> | ->]; [done|].
  pose proof (proj1 (pk_div_mod (year self * 10 + m) (year self) m Hrange) eq_refl)
    as [Hd Hmod].
  rewrite bool_decide_eq_false_2 by (intros ?; done).
  unfold Term___term_as_int. rewrite Hm. run.
  rewrite bool_decide_eq_false_2 by (intros ?; done). done.
Qed.

Lemma Term_check_pk_mismatch self st m i :
  TERM_MAPPING !! term self = Some m →
  id self = Some i → i ≠ year self * 10 + m →
  Term_check_pk self st = Raise pk_mismatch st.
Proof.
  intros Hm Hid Hne. pose proof (TERM_MAPPING_range _ _ Hm) as Hrange.
  unfold Term_check_pk. rewrite Hid. case_bool_decide; [done|].
  unfold Term___term_as_int. rewrite Hm. run.
  case_bool_decide; [done|]. exfalso. apply Hne.
  apply (pk_div_mod i (year self) m Hrange). split; [tauto|].
  destruct (decide (m = i `mod` 10)); tauto.
Qed.

Lemma Term_save_atomic_run self pk st :
  id self = Some pk →
  let cleared :=
    if current self then clear_other_current (Some pk) (terms st)
    else terms st in
  if unique_together_violated pk self cleared
  then ∃ st', Term_save_atomic self st = Raise IntegrityError st'
              ∧ cache_current_term st' = cache_current_term st
  else ∃ st',
         Term_save_atomic self st = Return tt st'
         ∧ terms st' = <[pk := self]> cleared
         ∧ cache_current_term st' =
             (if current self then Some self else cache_current_term st)
         ∧ officers st' = officers st.
Proof.
  intros Hid cleared. unfold Term_save_atomic.
  set (st1 := if current self
              then set_terms (clear_other_current (id self)) st else st).
  assert (H1 : (if current self
                then modify (set_terms (clear_other_current (id self)))
                else mret ()) st = Return tt st1).
  { unfold st1. by destruct (current self). }
  assert (Ht1 : terms st1 = cleared).
  { unfold st1, cleared. rewrite Hid. by destruct (current self). }
  assert (Hc1 : cache_current_term st1 = cache_current_term st).
  { unfold st1. by destruct (current self). }
  assert (Ho1 : officers st1 = officers st).
  { unfold st1. by destruct (current self). }
  rewrite (bind_return _ _ _ _ _ H1).
  destruct (unique_together_violated pk self cleared) eqn:Hu.
  - exists st1. split; [|done]. apply bind_raise.
    unfold Model_save. cbn beta. by rewrite Hid, Ht1, Hu.
  - set (st2 := set_terms (<[pk := self]>) st1).
    assert (H2 : Model_save self st1 = Return tt st2).
    { unfold Model_save. cbn beta. by rewrite Hid, Ht1, Hu. }
    rewrite (bind_return _ _ _ _ _ H2).
    destruct (update_term_officer_groups_run self pk st2 Hid)
      as (st3 & Hrun & Ht3 & Hc3 & Ho3).
    { unfold st2. simpl. rewrite lookup_insert_eq. done. }
    rewrite (bind_return _ _ _ _ _ Hrun).
    assert (Ht3' : terms st3 = <[pk := self]> cleared).
    { rewrite Ht3. unfold st2. simpl. by rewrite Ht1. }
    assert (Hc3' : cache_current_term st3 = cache_current_term st).
    { rewrite Hc3. unfold st2. simpl. by rewrite Hc1. }
    assert (Ho3' : officers st3 = officers st).
    { rewrite Ho3. unfold st2. simpl. by rewrite Ho1. }
    clearbody st1 st2 cleared.
    destruct (current self); run; eexists; (split; [reflexivity|]); done.
Qed.

(** What [Term.save] does to a term that is not the sentinel, whose code
    is in [TERM_MAPPING] and whose [id] is unset or already right. *)
Lemma Term_save_run self st m :
  ¬ sentinel self →
  TERM_MAPPING !! term self = Some m →
  id self = None ∨ id self = Some (year self * 10 + m) →
  let pk := year self * 10 + m in
  let self' := mkTerm (Some pk) (term self) (year self) (current self) in
  let cleared :=
    if current self then clear_other_current (Some pk) (terms st)
    else terms st in
  if unique_together_violated pk self' cleared
  then Term_save self st = Raise IntegrityError st
  else ∃ st',
         Term_save self st = Return self' st'
         ∧ terms st' = <[pk := self']> cleared
         ∧ cache_current_term st' =
             (if current self then Some self' else cache_current_term st)
         ∧ officers st' = officers st.
Proof.
  intros Hsent Hm Hid pk self' cleared.
  unfold Term_save.
  assert (Hguard : bool_decide (term self = UNKNOWN)
                   && bool_decide (year self = 0) = false).
  { apply not_true_is_false. intros H. apply andb_true_iff in H as [H1 H2].
    apply bool_decide_eq_true in H1, H2. by apply Hsent. }
  rewrite Hguard.
  rewrite (bind_return _ _ _ _ _ (Term_check_pk_ok self st m Hm Hid)).
  assert (Hpk : Term__calculate_pk self st = Return pk st).
  { unfold Term__calculate_pk, Term___term_as_int. rewrite Hm. by run. }
  rewrite (bind_return _ _ _ _ _ Hpk). fold self'.
  pose proof (Term_save_atomic_run self' pk st eq_refl) as Hat.
  simpl in Hat. fold cleared in Hat.
  destruct (unique_together_violated pk self' cleared).
  - destruct Hat as (st' & Hrun & Hc). apply bind_raise.
    unfold transaction_atomic. rewrite Hrun, Hc. by rewrite set_cache_same.
  - destruct Hat as (st' & Hrun & Hrest). exists st'. split; [|exact Hrest].
    erewrite bind_return; [reflexivity|].
    unfold transaction_atomic. by rewrite Hrun.
Qed.

End term_save_run.

Section term_save_properties.

Lemma not_sentinel_guard self :
  ¬ sentinel self →
  bool_decide (term self = UNKNOWN) && bool_decide (year self = 0) = false.
Proof.
  intros Hsent. apply not_true_is_false. intros H.
  apply andb_true_iff in H as [H1 H2].
  apply bool_decide_eq_true in H1, H2. by apply Hsent.
Qed.

Lemma Term_check_pk_cases self st :
  Term_check_pk self st = Return tt st
  ∨ ∃ e, Term_check_pk self st = Raise e st.
Proof.
  unfold Term_check_pk. destruct (id self) as [i|]; [|by left].
  case_bool_decide; [right; by eexists|].
  unfold Term___term_as_int.
  destruct (TERM_MAPPING !! term self) as [n|]; run.
  - case_bool_decide; [right; by eexists | by left].
  - right. by eexists.
Qed.

(** A term whose code is not in [TERM_MAPPING] is never saved. *)
Lemma Term_save_unmapped self st :
  ¬ sentinel self → TERM_MAPPING !! term self = None →
  ∃ e, Term_save self st = Raise e st.
Proof.
  intros Hsent Hm. unfold Term_save. rewrite (not_sentinel_guard _ Hsent).
  destruct (Term_check_pk_cases self st) as [Hok | [e He]].
  - rewrite (bind_return _ _ _ _ _ Hok). exists (KeyError (term self)).
    apply bind_raise. unfold Term__calculate_pk, Term___term_as_int.
    rewrite Hm. by run.
  - exists e. by apply bind_raise.
Qed.

Lemma Term_save_mismatch self st m i :
  ¬ sentinel self → TERM_MAPPING !! term self = Some m →
  id self = Some i → i ≠ year self * 10 + m →
  Term_save self st = Raise pk_mismatch st.
Proof.
  intros Hsent Hm Hid Hne. unfold Term_save.
  rewrite (not_sentinel_guard _ Hsent). apply bind_raise.
  by apply (Term_check_pk_mismatch self st m i).
Qed.

(** Every way a save of a term other than the sentinel can return. *)
Lemma Term_save_returns self st self' st' :
  ¬ sentinel self →
  Term_save self st = Return self' st' →
  ∃ m, TERM_MAPPING !! term self = Some m
       ∧ self' = mkTerm (Some (year self * 10 + m)) (term self) (year self)
                        (current self)
       ∧ terms st' =
           <[year self * 10 + m := self']>
             (if current self
              then clear_other_current (Some (year self * 10 + m)) (terms st)
              else terms st)
       ∧ cache_current_term st' =
           (if current self then Some self' else cache_current_term st)
       ∧ officers st' = officers st
       ∧ unique_together_violated (year self * 10 + m) self'
           (if current self
            then clear_other_current (Some (year self * 10 + m)) (terms st)
            else terms st) = false.
Proof.
  intros Hsent Hret.
  destruct (TERM_MAPPING !! term self) as [m|] eqn:Hm.
  2: { destruct (Term_save_unmapped self st Hsent Hm) as [e He]. congruence. }
  exists m. split; [done|].
  assert (Hid : id self = None ∨ id self = Some (year self * 10 + m)).
  { destruct (id self) as [i|] eqn:Hi; [|by left].
    destruct (decide (i = year self * 10 + m)) as [->|Hne]; [by right|].
    rewrite (Term_save_mismatch self st m i) in Hret; done. }
  pose proof (Term_save_run self st m Hsent Hm Hid) as Hrun. simpl in Hrun.
  destruct (unique_together_violated _ _ _) eqn:Hu; [congruence|].
  destruct Hrun as (st2 & Hrun & Ht & Hc & Ho).
  rewrite Hrun in Hret. injection Hret as <- <-. done.
Qed.

Lemma Term_save_sentinel_run self st :
  sentinel self → Term_save self st = Return self st.
Proof.
  intros [Ht Hy]. unfold Term_save. by rewrite !bool_decide_eq_true_2.
Qed.

(** C10. Saving the sentinel term [(UNKNOWN, 0)] returns at once: no
    exception, and the term table, the cache, the groups, the memberships
    and the object itself are what they were. *)
Theorem Term_save_sentinel_noop (self : Term) (st : State) :
  term self = UNKNOWN → year self = 0 →
  Term_save self st = Return self st.
Proof.
  intros Ht Hy. by apply Term_save_sentinel_run.
Qed.

(** C1. For a term other than the sentinel, a save that returns leaves
    [id] at [year * 10 + m(term)] and the row stored under that key; a save
    of an object whose [id] is set to anything else raises [ValueError]
    and leaves the state as it was. *)
Theorem Term_save_primary_key (self : Term) (st : State) (m : Z) :
  ¬ sentinel self →
  (term self = UNKNOWN ∧ m = 0) ∨ (term self = WINTER ∧ m = 1)
  ∨ (term self = SPRING ∧ m = 2) ∨ (term self = SUMMER ∧ m = 3)
  ∨ (term self = FALL ∧ m = 4) →
  (∀ self' st',
     Term_save self st = Return self' st' →
     id self' = Some (year self * 10 + m)
     ∧ terms st' !! (year self * 10 + m) = Some self')
  ∧ (∀ i, id self = Some i → i ≠ year self * 10 + m →
          Term_save self st = Raise pk_mismatch st).
Proof.
  intros Hsent Hm. apply TERM_MAPPING_lookup in Hm. split.
  - intros self' st' Hret.
    destruct (Term_save_returns self st self' st' Hsent Hret)
      as (m' & Hm' & -> & Ht & _).
    assert (m' = m) as -> by congruence.
    split; [done|]. rewrite Ht. apply lookup_insert_eq.
  - intros i Hid Hne. by apply (Term_save_mismatch self st m i).
Qed.


Lemma lookup_clear_other_current pk m k :
  clear_other_current pk m !! k =
  (λ r, if current r && bool_decide (Some k ≠ pk)
        then mkTerm (id r) (term r) (year r) false else r) <$> m !! k.
Proof.
  unfold clear_other_current. rewrite map_lookup_imap.
  by destruct (m !! k).
Qed.

Lemma clear_flag_id r :
  current r = false → mkTerm (id r) (term r) (year r) false = r.
Proof. destruct r; simpl; by intros ->. Qed.

(** C9, as the code has it. A save that returns keeps the term table at no
    more than one current term.  Saving a term other than the sentinel with
    [current] set leaves every other stored term stored, with its flag
    cleared, so that at most one term is current afterwards whatever the
    table held; saving a term with [current] unset leaves every other row
    as it was. *)
Theorem Term_save_single_current (self self' : Term) (st st' : State) :
  Term_save self st = Return self' st' →
  (at_most_one_current (terms st) → at_most_one_current (terms st'))
  ∧ (¬ sentinel self → current self = true →
       at_most_one_current (terms st')
       ∧ ∀ k r, Some k ≠ id self' → terms st !! k = Some r →
                terms st' !! k = Some (mkTerm (id r) (term r) (year r) false))
  ∧ (current self = false →
       ∀ k, Some k ≠ id self' → terms st' !! k = terms st !! k).
Proof.
  intros Hret.
  destruct (decide (sentinel self)) as [Hs|Hsent].
  { rewrite (Term_save_sentinel_run self st Hs) in Hret.
    injection Hret as <- <-. split; [done|]. split; [|done].
    intros Hn. exfalso. by apply Hn. }
  destruct (Term_save_returns self st self' st' Hsent Hret)
    as (m & Hm & -> & Ht & _). simpl.
  set (pk := year self * 10 + m) in *.
  assert (Hothers : current self = true →
    ∀ k r, Some k ≠ Some pk → terms st !! k = Some r →
           terms st' !! k = Some (mkTerm (id r) (term r) (year r) false)).
  { intros Hcur k r Hk Hr. rewrite Ht, Hcur.
    rewrite lookup_insert_ne by congruence.
    rewrite lookup_clear_other_current, Hr. simpl.
    rewrite (bool_decide_eq_true_2 _ Hk), andb_true_r.
    destruct (current r) eqn:Hcr; [done|]. by rewrite clear_flag_id. }
  assert (Hsame : current self = false →
    ∀ k, Some k ≠ Some pk → terms st' !! k = terms st !! k).
  { intros Hcur k Hk. rewrite Ht, Hcur. apply lookup_insert_ne. congruence. }
  assert (Hone : current self = true → at_most_one_current (terms st')).
  { intros Hcur k1 k2 r1 r2 H1 H2 Hc1 Hc2.
    assert (Hpk : ∀ k r, terms st' !! k = Some r → current r = true → k = pk).
    { intros k r Hk Hc. destruct (decide (k = pk)) as [|Hne]; [done|].
      exfalso. rewrite Ht, Hcur, lookup_insert_ne in Hk by done.
      rewrite lookup_clear_other_current in Hk.
      destruct (terms st !! k) as [r0|]; [|done]. simpl in Hk.
      rewrite bool_decide_eq_true_2, andb_true_r in Hk by congruence.
      injection Hk as <-. destruct (current r0) eqn:Hc0; simpl in Hc; congruence. }
    rewrite (Hpk k1 r1), (Hpk k2 r2); done. }
  split; [|split; [|done]].
  - intros Hinv. destruct (current self) eqn:Hcur; [by apply Hone|].
    intros k1 k2 r1 r2 H1 H2 Hc1 Hc2.
    assert (Hold : ∀ k r, terms st' !! k = Some r → current r = true →
                          terms st !! k = Some r).
    { intros k r Hk Hc. destruct (decide (k = pk)) as [->|Hne].
      - rewrite Ht, lookup_insert_eq in Hk. injection Hk as <-.
        simpl in Hc. congruence.
      - rewrite Hsame in Hk; [done|done|congruence]. }
    eapply Hinv; eauto.
  - intros _ Hcur. split; [by apply Hone|]. by apply Hothers.
Qed.

End term_save_properties.

Section python_strings.

Lemma lstrip_head p c s : p c = false → lstrip p (String c s) = String c s.
Proof. intros H. simpl. by rewrite H. Qed.

Lemma rstrip_none p s :
  Forall (λ c, p c = false) (list_ascii_of_string s) → rstrip p s = s.
Proof.
  induction s as [|c s IH]; [done|]. simpl. intros H.
  apply Forall_cons in H as [Hc Hs]. by rewrite Hc, IH.
Qed.

Lemma strip_none p s :
  Forall (λ c, p c = false) (list_ascii_of_string s) → strip p s = s.
Proof.
  intros H. unfold strip.
  assert (lstrip p s = s) as ->; [|by apply rstrip_none].
  destruct s as [|c s]; [done|]. apply lstrip_head.
  by apply Forall_cons in H as [Hc _].
Qed.

Lemma string_of_uint_no_space d :
  Forall (λ c, is_space c = false)
         (list_ascii_of_string (NilEmpty.string_of_uint d)).
Proof. induction d; simpl; constructor; done. Qed.

Lemma digits_string_of_uint d :
  d ≠ Decimal.Nil →
  digits (NilEmpty.string_of_uint d) = Some (Z.of_uint d).
Proof.
  intros Hd. unfold digits.
  assert (NilZero.uint_of_string (NilEmpty.string_of_uint d) = Some d) as ->;
    [|done].
  rewrite <- (NilZero.usu d Hd). by destruct d.
Qed.

Lemma int_string_of_uint d :
  d ≠ Decimal.Nil →
  int (NilEmpty.string_of_uint d) = Some (Z.of_uint d).
Proof.
  intros Hd. unfold int.
  rewrite (strip_none _ _ (string_of_uint_no_space d)).
  rewrite <- (digits_string_of_uint d Hd).
  destruct d; simpl; done.
Qed.

Lemma to_uint_not_nil p : Pos.to_uint p ≠ Decimal.Nil.
Proof.
  intros H. pose proof (DecimalPos.Unsigned.of_to p) as Hp.
  rewrite H in Hp. discriminate Hp.
Qed.

(** [int(str(z)) == z] *)
Lemma int_str z : int (str z) = Some z.
Proof.
  unfold str. destruct z as [|p|p]; [reflexivity| |]; simpl.
  - assert (NilZero.string_of_uint (Pos.to_uint p)
            = NilEmpty.string_of_uint (Pos.to_uint p)) as ->.
    { pose proof (to_uint_not_nil p). by destruct (Pos.to_uint p). }
    rewrite int_string_of_uint by apply to_uint_not_nil.
    unfold Z.of_uint. by rewrite DecimalPos.Unsigned.of_to.
  - assert (NilZero.string_of_uint (Pos.to_uint p)
            = NilEmpty.string_of_uint (Pos.to_uint p)) as ->.
    { pose proof (to_uint_not_nil p). by destruct (Pos.to_uint p). }
    unfold int. rewrite strip_none.
    2: { simpl. constructor; [done|]. apply string_of_uint_no_space. }
    rewrite digits_string_of_uint by apply to_uint_not_nil.
    unfold Z.of_uint. by rewrite DecimalPos.Unsigned.of_to.
Qed.

Lemma str_take_app a b : str_take (String.length a) (a +:+ b) = a.
Proof. induction a as [|c a IH]; simpl; [by destruct b|by rewrite IH]. Qed.

Lemma str_drop_app a b : str_drop (String.length a) (a +:+ b) = b.
Proof. induction a as [|c a IH]; simpl; [by destruct b|done]. Qed.

End python_strings.

Section url_names.

Lemma TermManager_get_overflow t y st :
  ¬ storable y → TermManager_get t y st = Raise OverflowError st.
Proof.
  intros Hy. unfold TermManager_get. by rewrite bool_decide_eq_false_2.
Qed.

Lemma TermManager_get_none t y st :
  storable y →
  (∀ k r, terms st !! k = Some r → ¬ (term r = t ∧ year r = y)) →
  TermManager_get t y st = Raise DoesNotExist st.
Proof.
  intros Hy Hnone. unfold TermManager_get.
  rewrite bool_decide_eq_true_2 by done.
  assert (filter (λ kr : Z * Term, term kr.2 = t ∧ year kr.2 = y) (terms st)
          = ∅) as ->.
  { apply map_empty. intros k. apply map_lookup_filter_None.
    destruct (terms st !! k) as [r|] eqn:Hr; [right|by left].
    intros r' [= <-]. simpl. by apply (Hnone k). }
  by rewrite map_to_list_empty.
Qed.

Lemma TermManager_get_unique k r st :
  schema_ok (terms st) → storable (year r) → terms st !! k = Some r →
  TermManager_get (term r) (year r) st = Return r st.
Proof.
  intros [_ Huniq] Hst Hr. unfold TermManager_get.
  rewrite bool_decide_eq_true_2 by done.
  assert (filter (λ kr : Z * Term, term kr.2 = term r ∧ year kr.2 = year r)
            (terms st) = {[k := r]}) as ->.
  { apply map_eq. intros i. apply option_eq. intros x.
    rewrite map_lookup_filter_Some, lookup_singleton_Some. simpl. split.
    - intros (Hx & Ht & Hy).
      assert (i = k) as -> by (eapply Huniq; eauto). split; congruence.
    - intros [<- <-]. done. }
  by rewrite map_to_list_singleton.
Qed.



End url_names.

Section schema.

Lemma unique_together_ok pk self m :
  unique_together_violated pk self m = false →
  ∀ k r, m !! k = Some r → term r = term self → year r = year self → k = pk.
Proof.
  unfold unique_together_violated. intros H k r Hr Ht Hy.
  apply bool_decide_eq_false in H.
  destruct (decide (k = pk)) as [|Hne]; [done|]. exfalso. apply H.
  exists k, r. done.
Qed.

Lemma schema_ok_empty : schema_ok ∅.
Proof. split; intros *; by rewrite lookup_empty. Qed.

(** X2. A save that returns keeps the schema's constraints on the term
    table: every stored term code is in [TERM_MAPPING] and no two rows share
    [(term, year)].  They hold of the empty table, so they hold of every
    table built by saving terms. *)
Theorem Term_save_keeps_schema (self self' : Term) (st st' : State) :
  Term_save self st = Return self' st' →
  schema_ok (terms st) → schema_ok (terms st').
Proof.
  intros Hret [Hcode Huniq].
  destruct (decide (sentinel self)) as [Hs|Hsent].
  { rewrite (Term_save_sentinel_run self st Hs) in Hret.
    injection Hret as <- <-. done. }
  destruct (Term_save_returns self st self' st' Hsent Hret)
    as (m & Hm & -> & Ht & _ & _ & Hu).
  set (pk := year self * 10 + m) in *.
  set (self' := mkTerm (Some pk) (term self) (year self) (current self)) in *.
  set (cleared := if current self
                  then clear_other_current (Some pk) (terms st)
                  else terms st) in *.
  assert (Hcl : ∀ k r, cleared !! k = Some r →
                  ∃ r0, terms st !! k = Some r0
                        ∧ term r = term r0 ∧ year r = year r0).
  { intros k r. unfold cleared. destruct (current self); [|by eauto].
    rewrite lookup_clear_other_current.
    destruct (terms st !! k) as [r0|]; [|done]. simpl. intros [= <-].
    exists r0. split; [done|]. by destruct (_ && _). }
  rewrite Ht. split.
  - intros k r. rewrite lookup_insert_Some. intros [[_ <-]|[_ Hr]].
    + simpl. by rewrite Hm.
    + destruct (Hcl k r Hr) as (r0 & Hr0 & -> & _). by eapply Hcode.
  - intros k1 k2 r1 r2. rewrite !lookup_insert_Some.
    intros [[<- <-]|[Hn1 H1]] [[<- <-]|[Hn2 H2]] Hterm Hyear; [done| | |].
    + symmetry. by eapply (unique_together_ok pk self' cleared Hu).
    + by eapply (unique_together_ok pk self' cleared Hu).
    + destruct (Hcl k1 r1 H1) as (a & Ha & Hta & Hya).
      destruct (Hcl k2 r2 H2) as (b & Hb & Htb & Hyb).
      eapply Huniq; eauto; congruence.
Qed.

End schema.

Section exam_forms.

Import Exams.

Lemma check_permissions_cases instructors st :
  ((∀ i, i ∈ instructors →
         permissions st !! instructor_pk i = None
         ∨ permissions st !! instructor_pk i = Some (Some true))
   ∧ check_permissions instructors st = Return tt st)
  ∨ (∃ i, i ∈ instructors
          ∧ (permissions st !! instructor_pk i = Some None
             ∨ permissions st !! instructor_pk i = Some (Some false))
          ∧ check_permissions instructors st =
              Raise (ValidationError "Ineligible exam")
                    (set_form (set_error "instructors" (ineligible_msg i)) st)).
Proof.
  induction instructors as [|i rest IH].
  - left. split; [|done]. intros i Hi. by apply elem_of_nil in Hi.
  - simpl. run.
    destruct (permissions st !! instructor_pk i) as [[[|]|]|] eqn:Hp; simpl.
    + destruct IH as [[Hall Hrun]|(j & Hj & Hden & Hrun)].
      * left. split; [|done]. intros j Hj.
        apply elem_of_cons in Hj as [->|Hj]; [by right|by apply Hall].
      * right. exists j. split; [set_solver|]. done.
    + right. exists i. split; [set_solver|]. split; [by right|done].
    + right. exists i. split; [set_solver|]. split; [by left|done].
    + destruct IH as [[Hall Hrun]|(j & Hj & Hden & Hrun)].
      * left. split; [|done]. intros j Hj.
        apply elem_of_cons in Hj as [->|Hj]; [by left|by apply Hall].
      * right. exists j. split; [set_solver|]. done.
Qed.

Lemma instance_matches_exact term course instructors ci :
  instance_matches term course instructors ci = true
  ↔ exact_match term course instructors ci.
Proof.
  unfold instance_matches, exact_match.
  rewrite !andb_true_iff, !bool_decide_eq_true, forallb_forall.
  split.
  - intros [[[Hsz Ht] Hc] Hall]. repeat split; try done.
    intros i Hi. apply list_elem_of_In in Hi. apply Hall in Hi.
    by apply bool_decide_eq_true in Hi.
  - intros (Ht & Hc & Hsz & Hall). repeat split; try done.
    intros i Hi. apply bool_decide_eq_true. apply Hall.
    by apply list_elem_of_In.
Qed.


Lemma resolve_course_instance_run term course instructors st :
  match filter (λ ci, instance_matches term course instructors ci = true)
               (course_instances st) with
  | [] =>
      let ci := mkCourseInstance (fresh_pk (course_instances st))
                  term (Courses.course_pk course)
                  (list_to_set (instructor_pk <$> instructors)) in
      resolve_course_instance term course instructors st =
      Return tt (set_form (set_course_instance ci)
                   (set_course_instances (λ rows, rows ++ [ci]) st))
  | [ci] =>
      resolve_course_instance term course instructors st =
      Return tt (set_form (set_course_instance ci) st)
  | _ =>
      resolve_course_instance term course instructors st =
      Raise MultipleObjectsReturned st
  end.
Proof.
  unfold resolve_course_instance. run.
  destruct (filter _ (course_instances st)) as [|ci [|ci' l]]; done.
Qed.

(** The three ways the course lookup of [set_course_instance] can go. *)
Lemma set_course_instance_run st :
  let cd := cleaned_data (form st) in
  match filter (λ c, course_matches (cd_department cd) (cd_course_number cd) c
                     = true) (courses st) with
  | [] =>
      let msg := invalid_course_msg (cd_department cd) (cd_course_number cd) in
      ExamForm_set_course_instance st =
      Raise (ValidationError "Invalid course")
            (set_form (set_error "course_number" msg)
               (set_form (set_error "department" msg) st))
  | [course] =>
      let st1 := set_form (set_exam_instructors (cd_instructors cd)) st in
      match cd_instructors cd with
      | None | Some [] =>
          ExamForm_set_course_instance st =
          Raise (ValidationError "Please fill out all fields.") st1
      | Some instructors =>
          ExamForm_set_course_instance st =
          (check_permissions instructors;;
           resolve_course_instance (cd_term cd) course instructors) st1
      end
  | _ => ExamForm_set_course_instance st = Raise MultipleObjectsReturned st
  end.
Proof.
  unfold ExamForm_set_course_instance, get_object_or_none. run.
  destruct (filter _ (courses st)) as [|c [|c' l]]; simpl; [done| |done].
  destruct (cd_instructors (cleaned_data (form st))) as [[|i l]|]; done.
Qed.


(** Everything [set_course_instance] can do, by outcome. *)
Lemma set_course_instance_spec st :
  let cd := cleaned_data (form st) in
  match ExamForm_set_course_instance st with
  | Return _ st' =>
      form_frame st st'
      ∧ _errors (form st') = _errors (form st)
      ∧ ∃ course instructors,
          course_found st course
          ∧ cd_instructors cd = Some instructors ∧ instructors ≠ []
          ∧ (∀ i, i ∈ instructors →
                  permissions st !! instructor_pk i = None
                  ∨ permissions st !! instructor_pk i = Some (Some true))
          ∧ match filter (λ ci, instance_matches (cd_term cd) course
                                  instructors ci = true)
                         (course_instances st) with
            | [] =>
                let ci := mkCourseInstance (fresh_pk (course_instances st))
                            (cd_term cd) (Courses.course_pk course)
                            (list_to_set (instructor_pk <$> instructors)) in
                course_instance (form st') = Some ci
                ∧ course_instances st' = course_instances st ++ [ci]
            | [ci] =>
                course_instance (form st') = Some ci
                ∧ course_instances st' = course_instances st
            | _ => False
            end
  | Raise e st' =>
      form_frame st st'
      ∧ course_instances st' = course_instances st
      ∧ ((e = ValidationError "Invalid course"
          ∧ errors_on "instructors" st' = errors_on "instructors" st
          ∧ ∀ course, ¬ course_found st course)
         ∨ (e = MultipleObjectsReturned
            ∧ errors_on "instructors" st' = errors_on "instructors" st
            ∧ ((∀ course, ¬ course_found st course)
               ∨ (∀ i, i ∈ selected st →
                    permissions st !! instructor_pk i = None
                    ∨ permissions st !! instructor_pk i = Some (Some true))))
         ∨ (e = ValidationError "Please fill out all fields."
            ∧ errors_on "instructors" st' = errors_on "instructors" st
            ∧ selected st = [])
         ∨ (e = ValidationError "Ineligible exam"
            ∧ ∃ course i,
                course_found st course ∧ i ∈ selected st
                ∧ (permissions st !! instructor_pk i = Some None
                   ∨ permissions st !! instructor_pk i = Some (Some false))
                ∧ errors_on "instructors" st' = Some [ineligible_msg i]))
  end.
Proof.
  intros cd. pose proof (set_course_instance_run st) as Hrun.
  cbv zeta in Hrun. fold cd in Hrun.
  unfold course_found, selected, errors_on. fold cd.
  revert Hrun.
  destruct (filter _ (courses st)) as [|course [|c' l]] eqn:Hcourses;
    intros Hrun.
  - simpl in Hrun. rewrite Hrun. split; [done|]. split; [done|].
    left. split; [done|]. split; [|done]. simpl.
    rewrite !lookup_insert_ne; done.
  - simpl in Hrun. revert Hrun.
    destruct (cd_instructors cd) as [[|i0 rest]|] eqn:Hsel; intros Hrun.
    + rewrite Hrun. split; [done|]. split; [done|]. right. right. left. done.
    + rewrite Hrun. clear Hrun.
      set (st1 := set_form _ st).
      destruct (check_permissions_cases (i0 :: rest) st1)
        as [[Hall Hperm]|(i & Hi & Hden & Hperm)].
      * rewrite (bind_return _ _ _ _ _ Hperm).
        pose proof (resolve_course_instance_run (cd_term cd) course
                      (i0 :: rest) st1) as Hres.
        cbv zeta in Hres.
        change (course_instances st1) with (course_instances st) in Hres.
        revert Hres.
        destruct (filter _ (course_instances st)) as [|ci [|ci' l']] eqn:Hf;
          intros Hres.
        -- rewrite Hres. split; [done|]. split; [done|].
           exists course, (i0 :: rest). by rewrite Hf.
        -- rewrite Hres. split; [done|]. split; [done|].
           exists course, (i0 :: rest). by rewrite Hf.
        -- rewrite Hres. split; [done|]. split; [done|].
           right. left. split; [done|]. split; [done|]. by right.
      * rewrite (bind_raise _ _ _ _ _ Hperm). split; [done|]. split; [done|].
        right. right. right. split; [done|].
        exists course, i. split; [done|]. split; [done|]. split; [done|].
        simpl. by rewrite lookup_insert_eq.
    + rewrite Hrun. split; [done|]. split; [done|]. right. right. left. done.
  - rewrite Hrun. split; [done|]. split; [done|]. right. left.
    split; [done|]. split; [done|]. by left.
Qed.


Lemma fresh_pk_above rows old :
  old ∈ rows → (course_instance_pk old < fresh_pk rows)%nat.
Proof.
  unfold fresh_pk. induction rows as [|r rows IH]; intros Hin.
  - by apply elem_of_nil in Hin.
  - apply elem_of_cons in Hin as [->|Hin]; simpl; [lia|].
    specialize (IH Hin). lia.
Qed.



Lemma exam_matches_same st st1 ci e :
  cleaned_data (form st1) = cleaned_data (form st) →
  exam_matches (Some ci) (cd_exam_number (cleaned_data (form st)))
               (cd_exam_type (cleaned_data (form st))) e = true
  ↔ same_exam st ci e.
Proof.
  intros _. unfold exam_matches, same_exam. simpl.
  rewrite !andb_true_iff, !bool_decide_eq_true. split.
  - intros [[[= ->] ?] ?]. done.
  - intros (-> & ? & ?). done.
Qed.

Lemma filter_not_nil {A} (P : A → Prop) `{∀ x, Decision (P x)} (l : list A) :
  filter P l ≠ [] ↔ ∃ x, x ∈ l ∧ P x.
Proof.
  split.
  - destruct (filter P l) as [|x l'] eqn:Hf; [done|]. intros _.
    assert (Hx : x ∈ filter P l) by (rewrite Hf; set_solver).
    apply list_elem_of_filter in Hx as [? ?]. eauto.
  - intros (x & Hx & HP) Hf.
    assert (Hin : x ∈ filter P l) by (by apply list_elem_of_filter).
    rewrite Hf in Hin. by apply elem_of_nil in Hin.
Qed.

(** C5. [UploadForm.clean] raises the already-exists error exactly when
    [set_course_instance] returns and a stored exam has the resolved course
    instance and the submitted number and type; [EditForm.clean] raises its
    own under the same condition on the stored exams other than the one
    being edited. *)
Theorem clean_duplicate_exactly (st : State) :
  ((∃ st', UploadForm_clean st = Raise upload_duplicate st')
   ↔ ∃ st1 ci e,
       ExamForm_set_course_instance st = Return tt st1
       ∧ course_instance (form st1) = Some ci
       ∧ e ∈ exams st ∧ same_exam st ci e)
  ∧ ((∃ st', EditForm_clean st = Raise edit_duplicate st')
     ↔ ∃ st1 ci e,
         ExamForm_set_course_instance st = Return tt st1
         ∧ course_instance (form st1) = Some ci
         ∧ e ∈ exams st ∧ same_exam st ci e
         ∧ Some (exam_pk e) ≠ instance_pk (form st)).
Proof.
  pose proof (set_course_instance_spec st) as Hspec. cbv zeta in Hspec.
  unfold UploadForm_clean, EditForm_clean. run.
  destruct (ExamForm_set_course_instance st) as [[] st1|e st1] eqn:Hrun.
  - destruct Hspec as ((_ & _ & Hex & Hcd & Hpk) & _ & course & instrs
                        & _ & _ & _ & _ & Hci).
    assert (Hsome : ∃ ci, course_instance (form st1) = Some ci).
    { destruct (filter _ (course_instances st)) as [|ci [|ci' l]];
        [|  |done]; destruct Hci as [-> _]; eauto. }
    destruct Hsome as [ci Hsome]. rewrite Hsome, Hex, Hpk. split.
    + case_bool_decide as Hdup.
      * split; [intros _|by eauto].
        apply filter_not_nil in Hdup as (e & He & Hm).
        apply (exam_matches_same st st1) in Hm; [|done].
        exists st1, ci, e. done.
      * split; [by intros [st' Hst']|].
        intros (st2 & ci2 & e & [= <-] & Hci2 & He & Hm).
        assert (ci2 = ci) as -> by congruence.
        exfalso. eapply (proj2 (filter_not_nil _ _)); [|exact Hdup].
        exists e. split; [done|]. by apply (exam_matches_same st st1).
    + case_bool_decide as Hdup.
      * split; [intros _|by eauto].
        apply filter_not_nil in Hdup as (e & He & Hne).
        apply list_elem_of_filter in He as [Hm He].
        apply (exam_matches_same st st1) in Hm; [|done].
        exists st1, ci, e. done.
      * split; [by intros [st' Hst']|].
        intros (st2 & ci2 & e & [= <-] & Hci2 & He & Hm & Hne).
        assert (ci2 = ci) as -> by congruence.
        exfalso. eapply (proj2 (filter_not_nil _ _)); [|exact Hdup].
        exists e. split; [|done]. apply list_elem_of_filter. split; [|done].
        by apply (exam_matches_same st st1).
  - destruct Hspec as (_ & _ & Hcases).
    assert (He : e ≠ upload_duplicate ∧ e ≠ edit_duplicate).
    { destruct Hcases as [[-> _]|[[-> _]|[[-> _]|[-> _]]]]; done. }
    split; (split; [intros [st' [= -> _]]; by destruct He
                   |by intros (? & ? & ? & [=] & _)]).
Qed.

(** C6, as the code has it.  When the form's course exists, a selected
    instructor whose permission row has [permission_allowed] at [False]
    makes [set_course_instance] record an error on the instructors field
    and raise [ValidationError]; and when every selected instructor has no
    permission row or one that allows, that error is neither raised nor
    recorded. *)
Theorem set_course_instance_permission (st : State) :
  (∀ course i,
     course_found st course → i ∈ selected st →
     permissions st !! instructor_pk i = Some (Some false) →
     ∃ st', ExamForm_set_course_instance st
            = Raise (ValidationError "Ineligible exam") st'
            ∧ is_Some (errors_on "instructors" st')
            ∧ form_frame st st'
            ∧ course_instances st' = course_instances st)
  ∧ ((∀ i, i ∈ selected st →
           permissions st !! instructor_pk i = None
           ∨ permissions st !! instructor_pk i = Some (Some true)) →
     match ExamForm_set_course_instance st with
     | Return _ st' =>
         errors_on "instructors" st' = errors_on "instructors" st
     | Raise e st' =>
         e ≠ ValidationError "Ineligible exam"
         ∧ errors_on "instructors" st' = errors_on "instructors" st
     end).
Proof.
  pose proof (set_course_instance_spec st) as Hspec. cbv zeta in Hspec.
  split.
  - intros course i Hcourse Hi Hden.
    destruct (ExamForm_set_course_instance st) as [[] st'|e st'].
    + destruct Hspec as (_ & _ & c & instrs & _ & Hsel & _ & Hall & _).
      unfold selected in Hi. rewrite Hsel in Hi. simpl in Hi.
      destruct (Hall i Hi); congruence.
    + destruct Hspec as (Hframe & Hrows & Hcases).
      destruct Hcases as [(_ & _ & Hno)|[(_ & _ & [Hno|Hall])
                         |[(_ & _ & Hnil)|(-> & c & j & _ & _ & _ & Herr)]]].
      * by destruct (Hno course).
      * by destruct (Hno course).
      * destruct (Hall i Hi); congruence.
      * rewrite Hnil in Hi. by apply elem_of_nil in Hi.
      * exists st'. split; [done|]. split; [by rewrite Herr|done].
  - intros Hall.
    destruct (ExamForm_set_course_instance st) as [[] st'|e st'].
    + destruct Hspec as (_ & Herr & _). unfold errors_on. by rewrite Herr.
    + destruct Hspec as (_ & _ & Hcases).
      destruct Hcases as [(-> & Herr & _)|[(-> & Herr & _)
                         |[(-> & Herr & _)|(-> & c & j & _ & Hj & Hden & _)]]];
        try done.
      destruct (Hall j Hj), Hden; congruence.
Qed.

End exam_forms.

(** ** Course ordering: where the code and the description agree *)

Section course_order.

Import Courses.

Lemma between_spec lo hi c :
  between lo hi c = true
  ↔ (N_of_ascii lo ≤ N_of_ascii c ∧ N_of_ascii c ≤ N_of_ascii hi)%N.
Proof.
  unfold between. rewrite andb_true_iff, !N.leb_le. reflexivity.
Qed.

Lemma is_letter_above c : is_letter c = true → (65 ≤ N_of_ascii c)%N.
Proof.
  unfold is_letter. rewrite orb_true_iff, !between_spec.
  change (N_of_ascii "a") with 97%N. change (N_of_ascii "A") with 65%N.
  lia.
Qed.

Lemma digit_below c : between "0" "9" c = true → (N_of_ascii c < 65)%N.
Proof.
  rewrite between_spec. change (N_of_ascii "9") with 57%N. lia.
Qed.

Lemma digit_not_letter c : between "0" "9" c = true → is_letter c = false.
Proof.
  intros Hd. apply not_true_is_false. intros Hl.
  apply is_letter_above in Hl. apply digit_below in Hd. lia.
Qed.

Lemma digit_lt_letter c l :
  between "0" "9" c = true → is_letter l = true → Ascii.compare c l = Lt.
Proof.
  intros Hd Hl. apply is_letter_above in Hl. apply digit_below in Hd.
  unfold Ascii.compare. apply N.compare_lt_iff. lia.
Qed.

Lemma ascii_compare_refl c : Ascii.compare c c = Eq.
Proof. unfold Ascii.compare. apply N.compare_refl. Qed.

Lemma string_compare_refl s : String.compare s s = Eq.
Proof. induction s as [|c s IH]; simpl; [done|]. by rewrite ascii_compare_refl. Qed.

Lemma compare_app_l x a b :
  String.compare (x +:+ a) (x +:+ b) = String.compare a b.
Proof.
  induction x as [|c x IH]; simpl; [done|]. by rewrite ascii_compare_refl.
Qed.

(** Letters before a common tail that starts with a digit compare as the
    letters alone do. *)
Lemma compare_letters_app p1 p2 c0 x :
  between "0" "9" c0 = true →
  all_letters p1 = true → all_letters p2 = true →
  String.compare (p1 +:+ String c0 x) (p2 +:+ String c0 x)
  = String.compare p1 p2.
Proof.
  intros Hc0. revert p2. induction p1 as [|c p1 IH]; intros [|c' p2] H1 H2;
    simpl in *.
  - by rewrite ascii_compare_refl, string_compare_refl.
  - apply andb_true_iff in H2 as [Hl _]. by rewrite (digit_lt_letter c0 c').
  - apply andb_true_iff in H1 as [Hl _].
    rewrite Ascii.compare_antisym, (digit_lt_letter c0 c); done.
  - apply andb_true_iff in H1 as [_ H1]. apply andb_true_iff in H2 as [_ H2].
    destruct (Ascii.compare c c'); [by apply IH|done|done].
Qed.

Lemma string_of_uint_all_digits d :
  all_digits (NilEmpty.string_of_uint d) = true.
Proof. induction d; simpl; done. Qed.

(** [str(n)] for a natural number is a digit followed by digits. *)
Lemma str_nonneg_digits n :
  0 ≤ n → ∃ c s, str n = String c s ∧ between "0" "9" c = true
                 ∧ all_digits s = true.
Proof.
  intros Hn. unfold str. destruct n as [|p|p]; [by exists "0"%char, EmptyString| |lia].
  simpl. pose proof (to_uint_not_nil p) as Hnil.
  pose proof (string_of_uint_all_digits (Pos.to_uint p)) as Hd.
  destruct (Pos.to_uint p); [done|..]; simpl in *; eauto.
Qed.

Lemma rstrip_letters s : all_letters s = true → rstrip is_letter s = EmptyString.
Proof.
  induction s as [|c s IH]; simpl; [done|]. intros H.
  apply andb_true_iff in H as [Hc Hs]. by rewrite IH, Hc.
Qed.

Lemma rstrip_digits_letters d post :
  all_digits d = true → all_letters post = true →
  rstrip is_letter (d +:+ post) = d.
Proof.
  intros Hd Hpost. induction d as [|c d IH]; simpl.
  - by apply rstrip_letters.
  - simpl in Hd. apply andb_true_iff in Hd as [Hc Hd].
    by rewrite (IH Hd), (digit_not_letter c Hc).
Qed.

Lemma lstrip_letters_app pre c x :
  all_letters pre = true → is_letter c = false →
  lstrip is_letter (pre +:+ String c x) = String c x.
Proof.
  intros Hpre Hc. induction pre as [|l pre IH]; simpl.
  - by rewrite Hc.
  - simpl in Hpre. apply andb_true_iff in Hpre as [Hl Hpre]. rewrite Hl. auto.
Qed.

Lemma leading_letters_app pre c x :
  all_letters pre = true → is_letter c = false →
  leading_letters (pre +:+ String c x) = pre.
Proof.
  intros Hpre Hc. induction pre as [|l pre IH]; simpl.
  - by rewrite Hc.
  - simpl in Hpre. apply andb_true_iff in Hpre as [Hl Hpre].
    by rewrite Hl, IH.
Qed.

Lemma all_letters_app_digit a c b :
  is_letter c = false → all_letters (a +:+ String c b) = false.
Proof.
  intros Hc. induction a as [|l a IH]; simpl; [by rewrite Hc|].
  rewrite IH. apply andb_false_r.
Qed.

Lemma trailing_letters_all s : all_letters s = true → trailing_letters s = s.
Proof. destruct s; simpl; [done|]. by intros ->. Qed.

Lemma trailing_letters_digits d post :
  all_digits d = true → all_letters post = true →
  trailing_letters (d +:+ post) = post.
Proof.
  intros Hd Hpost. induction d as [|c d IH]; simpl.
  - by apply trailing_letters_all.
  - simpl in Hd. apply andb_true_iff in Hd as [Hc Hd].
    rewrite (digit_not_letter c Hc). simpl. auto.
Qed.

Lemma trailing_letters_app pre c d post :
  is_letter c = false →
  trailing_letters (pre +:+ String c (d +:+ post))
  = trailing_letters (String c (d +:+ post)).
Proof.
  intros Hc. induction pre as [|l pre IH]; [done|].
  change ((String l pre) +:+ String c (d +:+ post))
    with (String l (pre +:+ String c (d +:+ post))).
  cbn [trailing_letters]. rewrite IH.
  change (all_letters (String l (pre +:+ String c (d +:+ post))))
    with (is_letter l && all_letters (pre +:+ String c (d +:+ post))).
  by rewrite all_letters_app_digit, andb_false_r.
Qed.

Lemma length_app a b :
  String.length (a +:+ b) = (String.length a + String.length b)%nat.
Proof. induction a as [|c a IH]; simpl; [done|]. by rewrite IH. Qed.


Section canonical_number.

Variables (number pre post : string) (n : Z).
Hypothesis Hbase : base_number number = pre +:+ str n +:+ post.
Hypothesis Hpre : all_letters pre = true.
Hypothesis Hpost : all_letters post = true.
Hypothesis Hn : 0 ≤ n.

Lemma split_hyphen_canonical :
  split_hyphen number = (h ← suffix_of number; Some (pre +:+ str n +:+ post, h)).
Proof using Hbase.
  rewrite <- Hbase. unfold split_hyphen, suffix_of, base_number.
  destruct (split1 "-" number) as [[before after]|]; [|done].
  by destruct (int after).
Qed.

Lemma strip_canonical : strip is_letter (pre +:+ str n +:+ post) = str n.
Proof using Hpre Hpost Hn.
  destruct (str_nonneg_digits n Hn) as (c & s & Hs & Hc & Hd). rewrite Hs.
  unfold strip. change (String c s +:+ post) with (String c (s +:+ post)).
  rewrite (lstrip_letters_app pre c (s +:+ post) Hpre (digit_not_letter c Hc)).
  change (String c (s +:+ post)) with (String c s +:+ post).
  apply rstrip_digits_letters; [|done]. simpl. by rewrite Hc.
Qed.

Lemma lstrip_canonical :
  lstrip is_letter (pre +:+ str n +:+ post) = str n +:+ post.
Proof using Hpre Hn.
  destruct (str_nonneg_digits n Hn) as (c & s & Hs & Hc & Hd). rewrite Hs.
  change (String c s +:+ post) with (String c (s +:+ post)).
  apply lstrip_letters_app; [done|]. by apply digit_not_letter.
Qed.

Lemma parts_of_canonical :
  parts_of number = (h ← suffix_of number; Some (mkParts pre n post h)).
Proof using Hbase Hpre Hpost Hn.
  unfold parts_of. rewrite Hbase.
  destruct (str_nonneg_digits n Hn) as (c & s & Hs & Hc & Hd).
  assert (Hlead : leading_letters (pre +:+ str n +:+ post) = pre).
  { rewrite Hs. change (String c s +:+ post) with (String c (s +:+ post)).
    apply leading_letters_app; [done|]. by apply digit_not_letter. }
  assert (Htrail : trailing_letters (pre +:+ str n +:+ post) = post).
  { rewrite Hs. change (String c s +:+ post) with (String c (s +:+ post)).
    rewrite trailing_letters_app by (by apply digit_not_letter).
    change (String c (s +:+ post)) with (String c s +:+ post).
    apply trailing_letters_digits; [|done]. simpl. by rewrite Hc. }
  rewrite Hlead, Htrail.
  assert (Hmid : str_take
            (String.length (pre +:+ str n +:+ post) - String.length pre
             - String.length post)
            (str_drop (String.length pre) (pre +:+ str n +:+ post)) = str n).
  { rewrite str_drop_app, !length_app.
    replace (String.length pre + (String.length (str n) + String.length post)
             - String.length pre - String.length post)%nat
      with (String.length (str n)) by lia.
    apply str_take_app. }
  rewrite Hmid, int_str. done.
Qed.

End canonical_number.

(** X1. When each number is letters, the decimal writing of a natural
    number and letters (before any hyphen), [Course.__lt__] is the
    described ordering: department abbreviation, integer, trailing letters,
    leading letters, hyphenated suffix. *)
Theorem Course_lt_described (self other : Course)
    (pre1 post1 pre2 post2 : string) (n1 n2 : Z) :
  base_number (number self) = pre1 +:+ str n1 +:+ post1 →
  base_number (number other) = pre2 +:+ str n2 +:+ post2 →
  all_letters pre1 = true → all_letters post1 = true →
  all_letters pre2 = true → all_letters post2 = true →
  0 ≤ n1 → 0 ≤ n2 →
  Course___lt__ self (VCourse other) = described_lt self other.
Proof.
  intros Hb1 Hb2 Hpre1 Hpost1 Hpre2 Hpost2 Hn1 Hn2.
  unfold Course___lt__, described_lt.
  destruct (str_lt _ _); [done|]. destruct (str_gt _ _); [done|].
  rewrite (split_hyphen_canonical _ _ _ _ Hb1),
          (split_hyphen_canonical _ _ _ _ Hb2),
          (parts_of_canonical _ _ _ _ Hb1 Hpre1 Hpost1 Hn1),
          (parts_of_canonical _ _ _ _ Hb2 Hpre2 Hpost2 Hn2).
  destruct (suffix_of (number self)) as [h1|]; [|done].
  destruct (suffix_of (number other)) as [h2|]; [|done].
  simpl.
  rewrite (strip_canonical pre1 post1 n1 Hpre1 Hpost1 Hn1),
          (strip_canonical pre2 post2 n2 Hpre2 Hpost2 Hn2), !int_str.
  simpl.
  rewrite (lstrip_canonical pre1 post1 n1 Hpre1 Hn1),
          (lstrip_canonical pre2 post2 n2 Hpre2 Hn2).
  case_bool_decide; [done|]. case_bool_decide; [done|].
  assert (n1 = n2) as <- by lia. f_equal.
  unfold str_lt, str_gt, String.ltb. rewrite !compare_app_l.
  rewrite (String.compare_antisym post2 post1).
  destruct (String.compare post1 post2) eqn:Hpost; simpl; [|done|done].
  apply String.compare_eq_iff in Hpost as <-.
  destruct (str_nonneg_digits n1 Hn1) as (c & s & Hs & Hc & Hd). rewrite Hs.
  change (String c s +:+ post1) with (String c (s +:+ post1)).
  rewrite !(compare_letters_app _ _ c (s +:+ post1) Hc) by done.
  by destruct (String.compare pre1 pre2), (String.compare pre2 pre1).
Qed.

End course_order.

(** ** Concrete runs *)

Section concrete.

Example int_examples :
  int "2012" = Some 2012 ∧ int " 2012 " = Some 2012 ∧ int "02012" = Some 2012
  ∧ int "-7" = Some (-7) ∧ int "+7" = Some 7 ∧ int "" = None
  ∧ int "-" = None ∧ int "12a" = None ∧ int "- 1" = None ∧ int "1 2" = None.
Proof. repeat split; reflexivity. Qed.

Example str_examples :
  str 2012 = "2012"%string ∧ str 0 = "0"%string ∧ str (-15) = "-15"%string.
Proof. repeat split; reflexivity. Qed.

Example strip_examples :
  strip is_letter "C61AL" = "61"%string ∧ lstrip is_letter "C61AL" = "61AL"%string
  ∧ strip is_letter "H195" = "195"%string ∧ strip is_letter "abc" = ""%string
  ∧ split1 "-" "24-1" = Some ("24"%string, "1"%string) ∧ split1 "-" "24" = None.
Proof. repeat split; reflexivity. Qed.

Example db_fall_is_saved :
  Term_save fall_2012 empty_db = Return fall_2012_saved db_fall.
Proof. vm_compute. reflexivity. Qed.

Lemma Term_save_primary_key_witness :
  id fall_2012_saved = Some (year fall_2012 * 10 + 4)
  ∧ terms db_fall !! (year fall_2012 * 10 + 4) = Some fall_2012_saved.
Proof.
  assert (Hsent : ¬ sentinel fall_2012) by (intros [H _]; discriminate H).
  assert (Hm : (term fall_2012 = UNKNOWN ∧ 4 = 0)
               ∨ (term fall_2012 = WINTER ∧ 4 = 1)
               ∨ (term fall_2012 = SPRING ∧ 4 = 2)
               ∨ (term fall_2012 = SUMMER ∧ 4 = 3)
               ∨ (term fall_2012 = FALL ∧ 4 = 4)).
  { right. right. right. right. split; reflexivity. }
  apply (proj1 (Term_save_primary_key fall_2012 empty_db 4 Hsent Hm)).
  vm_compute. reflexivity.
Defined.

Lemma Term_save_sentinel_noop_witness :
  Term_save sentinel_current db_fall = Return sentinel_current db_fall.
Proof.
  apply (Term_save_sentinel_noop sentinel_current db_fall); reflexivity.
Defined.

(** Two saves that return and do not leave what the claim says.  Saving
    the sentinel with [current] set leaves the stored current term current.
    Saving a term with [current] unset on a table with two current terms
    leaves both current. *)
Lemma Term_save_not_single_current :
  (Term_save sentinel_current db_fall = Return sentinel_current db_fall
   ∧ current sentinel_current = true
   ∧ terms db_fall !! 20124 = Some fall_2012_saved
   ∧ id sentinel_current ≠ Some 20124
   ∧ current fall_2012_saved = true)
  ∧ (Term_save spring_2013 db_two_current
     = Return spring_2013_saved db_two_current_after
     ∧ terms db_two_current_after !! 20114 = Some fall_2011_saved
     ∧ terms db_two_current_after !! 20124 = Some fall_2012_saved
     ∧ current fall_2011_saved = true
     ∧ current fall_2012_saved = true
     ∧ ¬ at_most_one_current (terms db_two_current_after)).
Proof.
  split; [repeat split; done|].
  assert (H1 : terms db_two_current_after !! 20114 = Some fall_2011_saved)
    by (vm_compute; reflexivity).
  assert (H2 : terms db_two_current_after !! 20124 = Some fall_2012_saved)
    by (vm_compute; reflexivity).
  split; [vm_compute; reflexivity|]. repeat split; try done.
  intros Hone.
  discriminate (Hone 20114 20124 _ _ H1 H2 eq_refl eq_refl).
Qed.

Example db_spring_current_is_saved :
  Term_save spring_2013_current db_fall
  = Return spring_2013_current_saved db_spring_current.
Proof. vm_compute. reflexivity. Qed.

(** Saving Spring 2013 as current over the stored current Fall 2012 clears
    the flag of Fall 2012 and leaves one current term; saving it with
    [current] unset leaves the row of Fall 2012 as it was. *)
Lemma Term_save_single_current_witness :
  (at_most_one_current (terms db_spring_current)
   ∧ terms db_spring_current !! 20124
     = Some (mkTerm (Some 20124) FALL 2012 false))
  ∧ terms db_spring !! 20124 = terms db_fall !! 20124.
Proof.
  assert (Hsent : ¬ sentinel spring_2013_current)
    by (intros [H _]; discriminate H).
  assert (Hrun : Term_save spring_2013_current db_fall
                 = Return spring_2013_current_saved db_spring_current)
    by (vm_compute; reflexivity).
  assert (Hrun' : Term_save spring_2013 db_fall
                  = Return spring_2013_saved db_spring)
    by (vm_compute; reflexivity).
  assert (Hne : Some 20124 ≠ Some 20132) by discriminate.
  split.
  - destruct (proj1 (proj2 (Term_save_single_current spring_2013_current
                              spring_2013_current_saved db_fall
                              db_spring_current Hrun)) Hsent eq_refl)
      as [Hone Hcleared].
    split; [exact Hone|].
    apply (Hcleared 20124 fall_2012_saved Hne). reflexivity.
  - apply (proj2 (proj2 (Term_save_single_current spring_2013
                           spring_2013_saved db_fall db_spring Hrun'))
             eq_refl 20124 Hne).
Defined.

Lemma schema_ok_db_fall : schema_ok (terms db_fall).
Proof.
  unfold db_fall. simpl. split.
  - intros k r Hk. apply lookup_singleton_Some in Hk as [_ <-]. by eexists.
  - intros k1 k2 r1 r2 H1 H2 _ _.
    apply lookup_singleton_Some in H1 as [<- _].
    by apply lookup_singleton_Some in H2 as [<- _].
Qed.

Lemma years_storable_db_fall : years_storable (terms db_fall).
Proof.
  intros k r Hk. unfold db_fall in Hk. simpl in Hk.
  apply lookup_singleton_Some in Hk as [_ <-]. unfold storable. simpl. lia.
Qed.



Example db_officers_after_value :
  officers db_officers_after = [officer_historian]
  ∧ ((7%nat, "Officer"%string) ∈ user_groups db_officers_after)
  ∧ ((7%nat, "Current Historian"%string) ∈ user_groups db_officers_after)
  ∧ ((7%nat, "President"%string) ∉ user_groups db_officers_after)
  ∧ ((7%nat, "Current Executive"%string) ∉ user_groups db_officers_after).
Proof.
  split; [vm_compute; reflexivity|].
  repeat split; apply (bool_decide_unpack _); vm_compute; exact I.
Qed.

Lemma officer_delete_groups_witness :
  officers db_officers_after
  = filter (λ o', officer_pk o' ≠ officer_pk officer_president)
           (officers db_officers)
  ∧ terms db_officers_after = terms db_officers
  ∧ ∀ u g,
      (u, g) ∈ user_groups db_officers_after ↔
      (u, g) ∈ user_groups db_officers
      ∧ ¬ (u = user officer_president
           ∧ g ∈ corresponding_groups db_officers officer_president
           ∧ ∀ o', o' ∈ officers db_officers_after →
                   user o' = user officer_president →
                   g ∉ corresponding_groups db_officers o').
Proof.
  apply (officer_delete_groups db_officers db_officers_after
           officer_president).
  vm_compute. reflexivity.
Defined.

Lemma Course_lt_described_witness :
  Courses.Course___lt__ cs_61A (Courses.VCourse cs_C61AL)
  = Courses.described_lt cs_61A cs_C61AL.
Proof.
  apply (Course_lt_described cs_61A cs_C61AL "" "A" "C" "AL" 61 61);
    first [reflexivity | lia].
Defined.

Lemma Term_save_keeps_schema_witness : schema_ok (terms db_fall).
Proof.
  apply (Term_save_keeps_schema fall_2012 fall_2012_saved empty_db db_fall).
  - vm_compute. reflexivity.
  - apply schema_ok_empty.
Defined.

(** C4. On [061B] and [61A] of one department, [Course.__lt__] answers
    [True] where the described ordering answers [False]: the integers are
    both 61 and the trailing letters are [B] and [A], while the code
    compares [061B] with [61A]. *)
Theorem Course_lt_leading_zero :
  Courses.Course___lt__ cs_061B (Courses.VCourse cs_61A) = Some true
  ∧ Courses.described_lt cs_061B cs_61A = Some false.
Proof. split; vm_compute; reflexivity. Qed.

(** The refused instructor is selected, and no error is recorded on the
    instructors field: the course does not exist, so the form stops there. *)
Lemma set_course_instance_unknown_course :
  (∃ i, i ∈ selected exams_no_course
        ∧ Exams.permissions exams_no_course !! Exams.instructor_pk i
          = Some (Some false))
  ∧ ¬ (∃ e st', Exams.ExamForm_set_course_instance exams_no_course
                = Raise e st'
                ∧ is_Some (errors_on "instructors" st')).
Proof.
  split.
  - exists harvey. split; [vm_compute; set_solver|reflexivity].
  - intros (e & st' & Hrun & Herr). vm_compute in Hrun.
    injection Hrun as <- <-. vm_compute in Herr. by destruct Herr.
Qed.

Lemma set_course_instance_permission_witness :
  ∃ st', Exams.ExamForm_set_course_instance exams_refused
         = Raise (ValidationError "Ineligible exam") st'
         ∧ is_Some (errors_on "instructors" st')
         ∧ form_frame exams_refused st'
         ∧ Exams.course_instances st' = Exams.course_instances exams_refused.
Proof.
  apply (proj1 (set_course_instance_permission exams_refused) cs_61A harvey).
  - reflexivity.
  - vm_compute. set_solver.
  - reflexivity.
Defined.


End concrete.

(** ** Term: ordering *)

Section term_order.

Lemma term_as_int_run self m st :
  TERM_MAPPING !! term self = Some m →
  Term___term_as_int self st = Return m st.
Proof. intros Hm. unfold Term___term_as_int. by rewrite Hm. Qed.

Lemma calculate_pk_inv self pk st st' :
  Term__calculate_pk self st = Return pk st' →
  ∃ m, TERM_MAPPING !! term self = Some m ∧ pk = year self * 10 + m
       ∧ 0 ≤ m ≤ 4 ∧ st' = st.
Proof.
  unfold Term__calculate_pk, Term___term_as_int. run.
  destruct (TERM_MAPPING !! term self) as [m|] eqn:Hm; run; [|done].
  intros [= <- <-]. exists m. repeat split; try done;
    by apply (TERM_MAPPING_range (term self)).
Qed.

Lemma TERM_MAPPING_inj s1 s2 m :
  TERM_MAPPING !! s1 = Some m → TERM_MAPPING !! s2 = Some m → s1 = s2.
Proof.
  rewrite !TERM_MAPPING_lookup. intros H1 H2.
  destruct H1 as [[-> ->]|[[-> ->]|[[-> ->]|[[-> ->]|[-> ->]]]]];
    destruct H2 as [[-> ?]|[[-> ?]|[[-> ?]|[[-> ?]|[-> ?]]]]];
    first [reflexivity | lia].
Qed.

Lemma Term_lt_run (y : Z) a b ma mb st :
  TERM_MAPPING !! term a = Some ma → TERM_MAPPING !! term b = Some mb →
  Term___lt__ y a (OTerm b) st
  = Return (bool_decide (year a * 10 + ma < year b * 10 + mb)) st.
Proof.
  intros Ha Hb. pose proof (TERM_MAPPING_range _ _ Ha).
  pose proof (TERM_MAPPING_range _ _ Hb).
  unfold Term___lt__. simpl.
  case_bool_decide as H1.
  { run. f_equal. symmetry. apply bool_decide_eq_true. lia. }
  case_bool_decide as H2.
  { run. f_equal. symmetry. apply bool_decide_eq_false. lia. }
  rewrite (bind_return _ _ _ _ _ (term_as_int_run a ma st Ha)).
  rewrite (bind_return _ _ _ _ _ (term_as_int_run b mb st Hb)).
  run. f_equal. apply bool_decide_ext. lia.
Qed.

Lemma Term_eq_run (y : Z) a b ma mb :
  TERM_MAPPING !! term a = Some ma → TERM_MAPPING !! term b = Some mb →
  Term___eq__ y a (OTerm b)
  = bool_decide (year a * 10 + ma = year b * 10 + mb).
Proof.
  intros Ha Hb. pose proof (TERM_MAPPING_range _ _ Ha).
  pose proof (TERM_MAPPING_range _ _ Hb).
  unfold Term___eq__. simpl.
  destruct (decide (year a * 10 + ma = year b * 10 + mb)) as [Heq|Hne].
  - rewrite (bool_decide_eq_true_2 _ Heq).
    assert (ma = mb) as -> by lia. assert (year a = year b) by lia.
    rewrite (TERM_MAPPING_inj _ _ _ Ha Hb).
    by rewrite !bool_decide_eq_true_2.
  - rewrite (bool_decide_eq_false_2 _ Hne).
    apply andb_false_iff.
    destruct (decide (term a = term b)) as [Ht|Ht];
      [|left; by apply bool_decide_eq_false].
    right. apply bool_decide_eq_false. intros Hy. apply Hne.
    rewrite Ht in Ha. congruence.
Qed.

(** X3. On terms whose codes are in [TERM_MAPPING], the six comparisons
    are the comparisons of the primary keys [_calculate_pk] gives, so they
    order terms as [Meta.ordering = ('id',)] does; an operand that is no
    term counts as the [UNKNOWN] term of the current year. *)
Theorem Term_comparisons_by_primary_key
    (y : Z) (a : Term) (other : operand) (pa pb : Z) (st : State) :
  Term__calculate_pk a st = Return pa st →
  Term__calculate_pk (as_term y other) st = Return pb st →
  Term___lt__ y a other st = Return (bool_decide (pa < pb)) st
  ∧ Term___le__ y a other st = Return (bool_decide (pa ≤ pb)) st
  ∧ Term___gt__ y a other st = Return (bool_decide (pb < pa)) st
  ∧ Term___ge__ y a other st = Return (bool_decide (pb ≤ pa)) st
  ∧ Term___eq__ y a other = bool_decide (pa = pb)
  ∧ Term___ne__ y a other = bool_decide (pa ≠ pb).
Proof.
  intros Ha Hb.
  apply calculate_pk_inv in Ha as (ma & Hma & -> & _ & _).
  apply calculate_pk_inv in Hb as (mb & Hmb & -> & _ & _).
  set (b := as_term y other) in *.
  assert (Hlt : Term___lt__ y a other st = Term___lt__ y a (OTerm b) st)
    by done.
  assert (Heq : Term___eq__ y a other = Term___eq__ y a (OTerm b)) by done.
  rewrite Hlt, Heq.
  unfold Term___le__, Term___gt__, Term___ge__, Term___ne__. fold b. simpl.
  rewrite (Term_lt_run y a b ma mb st Hma Hmb).
  rewrite (bind_return _ _ _ _ _ (Term_lt_run y a b ma mb st Hma Hmb)).
  rewrite (bind_return _ _ _ _ _ (Term_lt_run y b a mb ma st Hmb Hma)).
  rewrite (Term_lt_run y b a mb ma st Hmb Hma).
  rewrite (Term_eq_run y a b ma mb Hma Hmb). run.
  repeat split; try done; f_equal;
    repeat case_bool_decide; simpl; first [reflexivity | lia].
Qed.

(** X4. Compared with a value that is no term, a term is below it exactly
    when its year is before the current year, and equal to it exactly when
    it is the [UNKNOWN] term of the current year; the term code is only
    read, and only then can raise, when the years are equal. *)
Theorem Term_against_non_term (y : Z) (a : Term) (st : State) :
  (year a ≠ y →
   Term___lt__ y a OOther st = Return (bool_decide (year a < y)) st)
  ∧ (∀ m, TERM_MAPPING !! term a = Some m →
          Term___lt__ y a OOther st = Return (bool_decide (year a < y)) st
          ∧ Term___ge__ y a OOther st = Return (bool_decide (y ≤ year a)) st)
  ∧ (year a = y → TERM_MAPPING !! term a = None →
     Term___lt__ y a OOther st = Raise (KeyError (term a)) st)
  ∧ Term___eq__ y a OOther
    = bool_decide (term a = UNKNOWN ∧ year a = y).
Proof.
  split; [|split; [|split]].
  - intros Hy. unfold Term___lt__. simpl.
    case_bool_decide; [done|]. case_bool_decide; [done|]. lia.
  - intros m Hm.
    assert (H0 : TERM_MAPPING !! term (as_term y OOther) = Some 0)
      by (by apply TERM_MAPPING_lookup; left).
    pose proof (TERM_MAPPING_range _ _ Hm).
    unfold Term___ge__. simpl.
    rewrite (bind_return _ _ _ _ _ (Term_lt_run y a _ m 0 st Hm H0)).
    change (Term___lt__ y a OOther st)
      with (Term___lt__ y a (OTerm (as_term y OOther)) st).
    rewrite (Term_lt_run y a _ m 0 st Hm H0). simpl. run.
    split; f_equal; repeat case_bool_decide; simpl; first [reflexivity | lia].
  - intros Hy Hm. unfold Term___lt__. simpl.
    rewrite !bool_decide_eq_false_2 by lia.
    apply bind_raise. unfold Term___term_as_int. by rewrite Hm.
  - unfold Term___eq__. simpl.
    destruct (decide (term a = UNKNOWN)), (decide (year a = y));
      repeat case_bool_decide; simpl; first [reflexivity | tauto].
Qed.

End term_order.

(** ** TermManager: keys and the current term *)

Section term_manager.

Lemma TermManager_get_cases c y st :
  storable y →
  (TermManager_get c y st = Raise DoesNotExist st
   ∧ ∀ k t, terms st !! k = Some t → ¬ (term t = c ∧ year t = y))
  ∨ ∃ k t, terms st !! k = Some t ∧ term t = c ∧ year t = y.
Proof.
  intros Hy.
  destruct (map_to_list (filter (λ kr : Z * Term, term kr.2 = c ∧ year kr.2 = y)
                                (terms st))) as [|[k t] l] eqn:Hl.
  - left. apply map_to_list_empty_iff in Hl.
    assert (Hnone : ∀ k t, terms st !! k = Some t → ¬ (term t = c ∧ year t = y)).
    { intros k t Hk Hm.
      assert (filter (λ kr : Z * Term, term kr.2 = c ∧ year kr.2 = y)
                (terms st) !! k = Some t) as Hf
        by (by apply map_lookup_filter_Some).
      rewrite Hl in Hf. by rewrite lookup_empty in Hf. }
    split; [|done]. by apply TermManager_get_none.
  - right. exists k, t.
    assert (Hin : (k, t) ∈ map_to_list
              (filter (λ kr : Z * Term, term kr.2 = c ∧ year kr.2 = y) (terms st)))
      by (rewrite Hl; set_solver).
    apply elem_of_map_to_list, map_lookup_filter_Some in Hin as [Hk [Ht Hy']].
    done.
Qed.

(** X5. Under the schema's constraints, with stored years within the 64
    bits the database takes, [get_by_natural_key] undoes [natural_key]: a
    stored term is found from its own key.  For a year within 64 bits the
    answer is [None] exactly when no stored term has the pair, and nothing
    is raised or changed; for a year beyond them the lookup raises
    [OverflowError], which is not caught. *)
Theorem get_by_natural_key_roundtrip (st : State) :
  schema_ok (terms st) → years_storable (terms st) →
  (∀ k t, terms st !! k = Some t →
          TermManager_get_by_natural_key (natural_key t).1 (natural_key t).2 st
          = Return (Some t) st)
  ∧ (∀ c y, storable y →
            (TermManager_get_by_natural_key c y st = Return None st
             ↔ ∀ k t, terms st !! k = Some t → ¬ (term t = c ∧ year t = y))
            ∧ ∃ res, TermManager_get_by_natural_key c y st = Return res st)
  ∧ (∀ c y, ¬ storable y →
            TermManager_get_by_natural_key c y st = Raise OverflowError st).
Proof.
  intros Hschema Hyears.
  assert (Hfound : ∀ k t, terms st !! k = Some t →
            TermManager_get_by_natural_key (term t) (year t) st
            = Return (Some t) st).
  { intros k t Hk. unfold TermManager_get_by_natural_key.
    by rewrite (TermManager_get_unique k t st Hschema (Hyears k t Hk) Hk). }
  split; [exact Hfound|]. split.
  - intros c y Hy. destruct (TermManager_get_cases c y st Hy)
      as [[Hget Hnone]|(k & t & Hk & <- & <-)].
    + unfold TermManager_get_by_natural_key. rewrite Hget.
      split; [done|by exists None].
    + rewrite (Hfound k t Hk). split; [|by exists (Some t)].
      split; [done|]. intros Hnone. by destruct (Hnone k t Hk).
  - intros c y Hy. unfold TermManager_get_by_natural_key.
    by rewrite TermManager_get_overflow.
Qed.

Lemma get_current_none st :
  (∀ k t, terms st !! k = Some t → current t = false) →
  TermManager_get_current st = Raise DoesNotExist st.
Proof.
  intros Hnone. unfold TermManager_get_current.
  assert (filter (λ kr : Z * Term, current kr.2 = true) (terms st) = ∅) as ->.
  { apply map_empty. intros k. apply map_lookup_filter_None.
    destruct (terms st !! k) as [r|] eqn:Hr; [right|by left].
    intros r' [= <-]. simpl. rewrite (Hnone k r Hr). done. }
  by rewrite map_to_list_empty.
Qed.

Lemma get_current_unique st k t :
  at_most_one_current (terms st) →
  terms st !! k = Some t → current t = true →
  TermManager_get_current st = Return t st.
Proof.
  intros Hone Hk Hc. unfold TermManager_get_current.
  assert (filter (λ kr : Z * Term, current kr.2 = true) (terms st)
          = {[k := t]}) as ->.
  { apply map_eq. intros i. apply option_eq. intros x.
    rewrite map_lookup_filter_Some, lookup_singleton_Some. simpl. split.
    - intros [Hx Hcx]. assert (i = k) as -> by (eapply Hone; eauto).
      split; congruence.
    - intros [<- <-]. done. }
  by rewrite map_to_list_singleton.
Qed.

(** X6. [get_current_term] answers from the cache when it is filled.
    With an empty cache and at most one current term stored, it returns
    that term and caches it, so that the next call is a cache hit; with no
    current term it returns [None] and leaves the cache empty. *)
Theorem get_current_term_lookup (st : State) :
  (∀ c, cache_current_term st = Some c →
        TermManager_get_current_term st = Return (Some c) st)
  ∧ (cache_current_term st = None → at_most_one_current (terms st) →
     (∀ k t, terms st !! k = Some t → current t = true →
             TermManager_get_current_term st
             = Return (Some t) (set_cache (Some t) st)
             ∧ TermManager_get_current_term (set_cache (Some t) st)
               = Return (Some t) (set_cache (Some t) st))
     ∧ ((∀ k t, terms st !! k = Some t → current t = false) →
        TermManager_get_current_term st = Return None st)).
Proof.
  split.
  - intros c Hc. unfold TermManager_get_current_term. run. by rewrite Hc.
  - intros Hc Hone. split.
    + intros k t Hk Hcur. unfold TermManager_get_current_term. run.
      rewrite Hc. by rewrite (get_current_unique st k t Hone Hk Hcur).
    + intros Hnone. unfold TermManager_get_current_term. run.
      rewrite Hc. by rewrite (get_current_none st Hnone).
Qed.

(** X7. After a save of a term other than the sentinel with [current] set,
    [get_current_term] returns the object that was saved, which is stored
    under its key and is the only stored term that is current. *)
Theorem save_current_then_get_current_term
    (self self' : Term) (st st' : State) :
  ¬ sentinel self → current self = true →
  Term_save self st = Return self' st' →
  TermManager_get_current_term st' = Return (Some self') st'
  ∧ (∃ k, id self' = Some k ∧ terms st' !! k = Some self')
  ∧ current self' = true
  ∧ ∀ k r, terms st' !! k = Some r → current r = true → r = self'.
Proof.
  intros Hsent Hcur Hret.
  destruct (Term_save_returns self st self' st' Hsent Hret)
    as (m & Hm & -> & Ht & Hc & _). rewrite Hcur in *.
  set (pk := year self * 10 + m) in *.
  split; [|split; [|split]].
  - unfold TermManager_get_current_term. run. by rewrite Hc.
  - exists pk. split; [done|]. rewrite Ht. apply lookup_insert_eq.
  - done.
  - intros k r Hk Hr. rewrite Ht in Hk.
    destruct (decide (k = pk)) as [->|Hne].
    + rewrite lookup_insert_eq in Hk. congruence.
    + rewrite lookup_insert_ne in Hk by done.
      rewrite lookup_clear_other_current in Hk.
      destruct (terms st !! k) as [r0|]; [|done]. simpl in Hk.
      rewrite bool_decide_eq_true_2, andb_true_r in Hk by congruence.
      injection Hk as <-. destruct (current r0) eqn:E; simpl in Hr; congruence.
Qed.

(** X8. A save with [current] unset never touches the cache: whatever term
    the cache held is what [get_current_term] keeps returning afterwards,
    also when the saved row was that term and no stored term is current any
    more. *)
Theorem save_not_current_keeps_cache
    (self self' c : Term) (st st' : State) :
  current self = false →
  Term_save self st = Return self' st' →
  cache_current_term st = Some c →
  TermManager_get_current_term st' = Return (Some c) st'.
Proof.
  intros Hcur Hret Hc.
  assert (Hc' : cache_current_term st' = Some c).
  { destruct (decide (sentinel self)) as [Hs|Hsent].
    - rewrite (Term_save_sentinel_run self st Hs) in Hret.
      by injection Hret as <- <-.
    - destruct (Term_save_returns self st self' st' Hsent Hret)
        as (m & _ & _ & _ & Hcache & _).
      rewrite Hcur in Hcache. congruence. }
  unfold TermManager_get_current_term. run. by rewrite Hc'.
Qed.

End term_manager.

(** ** TermManager.get_terms *)

Section get_terms.

Lemma StronglySorted_filter {A} (R : relation A) (P : A → Prop)
    `{∀ x, Decision (P x)} (l : list A) :
  StronglySorted R l → StronglySorted R (filter P l).
Proof.
  induction 1 as [|x l Hl IH Hx]; [constructor|].
  rewrite filter_cons. destruct (decide (P x)); [|done].
  constructor; [done|]. apply Forall_forall. intros y Hy.
  apply list_elem_of_filter in Hy as [_ Hy].
  rewrite Forall_forall in Hx. by apply Hx.
Qed.

Lemma StronglySorted_strict (R S : relation (Z * Term)) (l : list (Z * Term)) :
  (∀ a b, R a b → a.1 ≠ b.1 → S a b) →
  StronglySorted R l → NoDup (l.*1) → StronglySorted S l.
Proof.
  intros HRS. induction 1 as [|x l Hl IH Hx]; [constructor|].
  rewrite fmap_cons, NoDup_cons. intros [Hnotin Hnd].
  constructor; [by apply IH|]. apply Forall_forall. intros y Hy.
  rewrite Forall_forall in Hx. apply HRS; [by apply Hx|].
  intros Heq. apply Hnotin. rewrite Heq. apply list_elem_of_fmap. eauto.
Qed.

Lemma key_lt_NoDup (l : list (Z * Term)) :
  StronglySorted key_lt l → NoDup (l.*1).
Proof.
  induction 1 as [|x l Hl IH Hx]; [constructor|].
  rewrite fmap_cons. constructor; [|done].
  intros Hin. apply list_elem_of_fmap in Hin as (y & Heq & Hy).
  rewrite Forall_forall in Hx. specialize (Hx y Hy). unfold key_lt in Hx. lia.
Qed.

#[local] Instance key_le_trans : Transitive key_le.
Proof. unfold key_le. intros a b c. lia. Qed.
#[local] Instance key_le_total : Total key_le.
Proof. unfold key_le. intros a b. lia. Qed.
#[local] Instance key_ge_trans : Transitive key_ge.
Proof. unfold key_ge. intros a b c. lia. Qed.
#[local] Instance key_ge_total : Total key_ge.
Proof. unfold key_ge. intros a b. lia. Qed.

(** The rows of the table, by ascending key. *)
Lemma all_terms_spec st :
  (∀ k t, (k, t) ∈ all_terms st ↔ terms st !! k = Some t)
  ∧ StronglySorted key_lt (all_terms st).
Proof.
  unfold all_terms. split.
  - intros k t. rewrite merge_sort_Permutation. apply elem_of_map_to_list.
  - apply (StronglySorted_strict key_le).
    + unfold key_le, key_lt. intros a b. lia.
    + apply StronglySorted_merge_sort; apply _.
    + rewrite merge_sort_Permutation. apply NoDup_fst_map_to_list.
Qed.

Lemma sort_descending (rows : list (Z * Term)) :
  StronglySorted key_lt rows →
  merge_sort key_ge rows = reverse rows.
Proof.
  intros Hs. pose proof (key_lt_NoDup rows Hs) as Hnd.
  apply (StronglySorted_unique_strong key_ge).
  - intros x1 x2 H1 H2 Hge Hle. unfold key_ge in *.
    rewrite merge_sort_Permutation in H1. rewrite elem_of_reverse in H2.
    assert (Hk : x1.1 = x2.1) by lia.
    destruct (decide (x1 = x2)) as [|Hne]; [done|]. exfalso.
    clear Hge Hle. induction Hs as [|x l Hl IH Hx]; [by apply elem_of_nil in H1|].
    rewrite Forall_forall in Hx. unfold key_lt in Hx.
    apply elem_of_cons in H1 as [->|H1]; apply elem_of_cons in H2 as [->|H2].
    + done.
    + specialize (Hx _ H2). lia.
    + specialize (Hx _ H1). lia.
    + apply IH; [|done|done]. rewrite fmap_cons in Hnd.
      by apply NoDup_cons in Hnd as [_ ?].
  - apply StronglySorted_merge_sort; apply _.
  - clear Hnd. induction Hs as [|x l Hl IH Hx]; [constructor|].
    rewrite reverse_cons. apply StronglySorted_app_2; [|done|repeat constructor].
    intros x1 x2 Hx1 Hx2. apply list_elem_of_singleton in Hx2 as ->.
    rewrite elem_of_reverse in Hx1. rewrite Forall_forall in Hx.
    specialize (Hx _ Hx1). unfold key_lt, key_ge in *. lia.
  - rewrite merge_sort_Permutation. by rewrite reverse_Permutation.
Qed.

Lemma StronglySorted_reverse_key (rows : list (Z * Term)) :
  StronglySorted key_lt rows → StronglySorted key_gt (reverse rows).
Proof.
  induction 1 as [|x l Hl IH Hx]; [constructor|].
  rewrite reverse_cons. apply StronglySorted_app_2; [|done|repeat constructor].
  intros x1 x2 Hx1 Hx2. apply list_elem_of_singleton in Hx2 as ->.
  rewrite elem_of_reverse in Hx1. rewrite Forall_forall in Hx.
  specialize (Hx _ Hx1). unfold key_lt, key_gt in *. lia.
Qed.

Lemma static_rows_spec tt s u st :
  (∀ k t, (k, t) ∈ static_rows tt s u st ↔
          terms st !! k = Some t
          ∧ (u = false → term t ≠ UNKNOWN)
          ∧ (s = false → term t ≠ SUMMER)
          ∧ (getattr_TERM_TYPE tt = "semester"%string → term t ≠ WINTER))
  ∧ StronglySorted key_lt (static_rows tt s u st).
Proof.
  destruct (all_terms_spec st) as [Hel Hs]. unfold static_rows. split.
  - intros k t.
    destruct u, s; simpl; case_bool_decide;
      rewrite ?list_elem_of_filter, Hel; simpl; naive_solver.
  - destruct u, s; simpl; case_bool_decide;
      repeat apply StronglySorted_filter; done.
Qed.


Lemma get_terms_unfold tt f s u r st :
  TermManager_get_terms tt f s u r st
  = match selected_rows tt f s u st with
    | Return rows st' =>
        Return ((if r then merge_sort key_ge rows else rows).*2) st'
    | Raise e st' => Raise e st'
    end.
Proof.
  unfold TermManager_get_terms, selected_rows, static_rows. run.
  destruct f; simpl; [by destruct r|].
  destruct (TermManager_get_current_term st) as [[c|] st1|e st1]; simpl;
    [|by destruct r|done].
  destruct (id c); simpl; [by destruct r|done].
Qed.

Lemma selected_rows_spec tt f s u st rows st' :
  selected_rows tt f s u st = Return rows st' →
  ∃ cur,
    (if f then st' = st
     else TermManager_get_current_term st = Return cur st')
    ∧ (∀ k t, (k, t) ∈ rows ↔
              terms st !! k = Some t ∧ term_listed tt f s u cur k t)
    ∧ StronglySorted key_lt rows.
Proof.
  destruct (static_rows_spec tt s u st) as [Hel Hs].
  unfold selected_rows, term_listed. run. destruct f; simpl.
  - intros [= <- <-]. exists None. split; [done|]. split; [|done].
    intros k t. rewrite Hel. naive_solver.
  - destruct (TermManager_get_current_term st) as [[c|] st1|e st1]; simpl;
      [| |done].
    + destruct (id c) as [i|] eqn:Hid; simpl; [|done].
      intros [= <- <-]. exists (Some c). split; [done|]. split.
      * intros k t. rewrite list_elem_of_filter, Hel. simpl. split.
        -- intros (Hle & Hk & Hu & Hsu & Hw). repeat split; try done.
           intros _ c' i' [= <-] Hi'. congruence.
        -- intros (Hk & Hu & Hsu & Hw & Hf). repeat split; try done.
           by apply (Hf eq_refl c i).
      * by apply StronglySorted_filter.
    + intros [= <- <-]. exists None. split; [done|]. split; [|done].
      intros k t. rewrite Hel. naive_solver.
Qed.

(** X9. [get_terms] returns exactly the stored terms that pass its
    filters: no [UNKNOWN] and no [SUMMER] term unless asked for, no
    [WINTER] term under the semester setting, and, unless future terms are
    asked for, no term whose key is above that of the current term as
    [get_current_term] gives it.  The terms come by ascending key, or by
    descending key for [reverse]. *)
Theorem get_terms_rows (tt : option string) (f s u r : bool)
    (st st' : State) (l : list Term) :
  TermManager_get_terms tt f s u r st = Return l st' →
  ∃ cur rows,
    (if f then st' = st
     else TermManager_get_current_term st = Return cur st')
    ∧ l = rows.*2
    ∧ (∀ k t, (k, t) ∈ rows ↔
              terms st !! k = Some t ∧ term_listed tt f s u cur k t)
    ∧ StronglySorted (if r then key_gt else key_lt) rows.
Proof.
  rewrite get_terms_unfold.
  destruct (selected_rows tt f s u st) as [rows st1|e st1] eqn:Hsel; [|done].
  intros [= <- <-].
  destruct (selected_rows_spec tt f s u st rows st1 Hsel) as (cur & Hst & Hel & Hs).
  exists cur. destruct r.
  - exists (reverse rows). rewrite (sort_descending rows Hs).
    split; [done|]. split; [done|]. split.
    + intros k t. by rewrite elem_of_reverse.
    + by apply StronglySorted_reverse_key.
  - exists rows. done.
Qed.

(** X10. With [reverse] set, [get_terms] returns the terms it returns
    without it, in the opposite order, and leaves the same state; it raises
    when the other does. *)
Theorem get_terms_reverse (tt : option string) (f s u : bool) (st : State) :
  match TermManager_get_terms tt f s u false st with
  | Return l st' =>
      TermManager_get_terms tt f s u true st = Return (reverse l) st'
  | Raise e st' => TermManager_get_terms tt f s u true st = Raise e st'
  end.
Proof.
  rewrite !get_terms_unfold.
  destruct (selected_rows tt f s u st) as [rows st1|e st1] eqn:Hsel; [|done].
  destruct (selected_rows_spec tt f s u st rows st1 Hsel) as (cur & _ & _ & Hs).
  rewrite (sort_descending rows Hs). by rewrite fmap_reverse.
Qed.

End get_terms.

(** ** Officers and their groups *)

Section officer_membership.

Lemma elem_of_memberships_of st os u g :
  (u, g) ∈ memberships_of st os ↔
  ∃ o, o ∈ os ∧ user o = u ∧ g ∈ corresponding_groups st o.
Proof.
  unfold memberships_of.
  rewrite elem_of_list_to_set, list_elem_of_In, in_flat_map. split.
  - intros (o & Ho & Hg). apply list_elem_of_In in Ho.
    apply list_elem_of_In, list_elem_of_fmap in Hg as (g' & Heq & Hg').
    injection Heq as -> ->. eauto.
  - intros (o & Ho & <- & Hg). exists o. split; [by apply list_elem_of_In|].
    apply list_elem_of_In, list_elem_of_fmap. eauto.
Qed.

Lemma memberships_of_frame st st' os :
  terms st' = terms st → memberships_of st' os = memberships_of st os.
Proof.
  intros Ht. unfold memberships_of. f_equal. apply flat_map_ext. intros o.
  by rewrite (corresponding_groups_frame st st').
Qed.

(** What [_add_user_to_officer_groups] does when the term exists. *)
Lemma add_user_members o st :
  is_Some (terms st !! term_id o) →
  ∃ st', Officer__add_user_to_officer_groups o st = Return tt st'
         ∧ terms st' = terms st
         ∧ cache_current_term st' = cache_current_term st
         ∧ officers st' = officers st
         ∧ user_groups st' = user_groups st ∪ memberships_of st [o]
         ∧ groups st' = list_to_set (corresponding_groups st o) ∪ groups st.
Proof.
  intros [t Ht]. unfold Officer__add_user_to_officer_groups. run.
  unfold Officer_term. rewrite Ht. rewrite get_corresponding_groups_run.
  eexists. split; [reflexivity|]. simpl. repeat split.
  - unfold memberships_of. simpl. rewrite app_nil_r.
    by rewrite (corresponding_groups_eq st o t Ht).
  - by rewrite (corresponding_groups_eq st o t Ht).
Qed.

Lemma add_users_members os st :
  (∀ o, o ∈ os → is_Some (terms st !! term_id o)) →
  ∃ st', for_each os Officer__add_user_to_officer_groups st = Return tt st'
         ∧ terms st' = terms st
         ∧ cache_current_term st' = cache_current_term st
         ∧ officers st' = officers st
         ∧ user_groups st' = user_groups st ∪ memberships_of st os
         ∧ groups st ⊆ groups st'.
Proof.
  revert st. induction os as [|o os IH]; intros st Hfk.
  - exists st. run. repeat split; try done.
    unfold memberships_of. simpl. set_solver.
  - destruct (add_user_members o st) as (st1 & Hrun & Ht & Hc & Ho & Hug & Hg).
    { apply Hfk. set_solver. }
    destruct (IH st1) as (st2 & Hrun2 & Ht2 & Hc2 & Ho2 & Hug2 & Hg2).
    { intros o' Ho'. rewrite Ht. apply Hfk. set_solver. }
    exists st2. simpl. run. rewrite Hrun, Hrun2.
    repeat split; try congruence.
    + rewrite Hug2, Hug, (memberships_of_frame st st1 os Ht).
      apply set_eq. intros [u g].
      rewrite !elem_of_union, !elem_of_memberships_of. split.
      * intros [[?|(o' & Ho' & ? & ?)]|(o' & Ho' & ? & ?)]; [by left|..];
          right; exists o'; set_solver.
      * intros [?|(o' & Ho' & ? & ?)]; [by left; left|].
        apply elem_of_cons in Ho' as [->|Ho'].
        -- left. right. exists o. set_solver.
        -- right. exists o'. done.
    + rewrite Hg in Hg2. set_solver.
Qed.


Lemma update_term_officer_groups_members self pk st :
  id self = Some pk → is_Some (terms st !! pk) →
  ∃ st', Term_update_term_officer_groups self st = Return tt st'
         ∧ terms st' = terms st
         ∧ cache_current_term st' = cache_current_term st
         ∧ officers st' = officers st
         ∧ groups st ⊆ groups st'
         ∧ user_groups st' =
             if current self
             then filter (λ p, ¬ (p.2 ∈ groups st ∧ contains "Current" p.2))
                         (user_groups st)
                  ∪ memberships_of st
                      (filter (λ o, Some (term_id o) = id self) (officers st))
             else user_groups st.
Proof.
  intros Hid Hpk. unfold Term_update_term_officer_groups.
  destruct (current self); [|exists st; by run].
  run. set (st1 := set_user_groups _ st).
  destruct (add_users_members
              (filter (λ o, Some (term_id o) = id self) (officers st)) st1)
    as (st2 & Hrun & Ht & Hc & Ho & Hug & Hg).
  { intros o Ho. apply list_elem_of_filter in Ho as [Ho _].
    rewrite Hid in Ho. injection Ho as ->. done. }
  exists st2. rewrite Hrun. repeat split; try done.
  rewrite Hug. by rewrite (memberships_of_frame st st1).
Qed.

Lemma Term_save_atomic_members self pk st st' :
  id self = Some pk →
  Term_save_atomic self st = Return tt st' →
  officers st' = officers st
  ∧ groups st ⊆ groups st'
  ∧ user_groups st' =
      if current self
      then filter (λ p, ¬ (p.2 ∈ groups st ∧ contains "Current" p.2))
                  (user_groups st)
           ∪ memberships_of st'
               (filter (λ o, Some (term_id o) = id self) (officers st))
      else user_groups st.
Proof.
  intros Hid. unfold Term_save_atomic.
  set (st1 := if current self
              then set_terms (clear_other_current (id self)) st else st).
  assert (H1 : (if current self
                then modify (set_terms (clear_other_current (id self)))
                else mret ()) st = Return tt st1).
  { unfold st1. by destruct (current self). }
  assert (Hframe1 : officers st1 = officers st ∧ groups st1 = groups st
                    ∧ user_groups st1 = user_groups st).
  { unfold st1. by destruct (current self). }
  destruct Hframe1 as (Ho1 & Hg1 & Hug1).
  rewrite (bind_return _ _ _ _ _ H1). clearbody st1.
  destruct (Model_save self st1) as [[] st2|e st2] eqn:Hsave.
  2: { rewrite (bind_raise _ _ _ _ _ Hsave). done. }
  rewrite (bind_return _ _ _ _ _ Hsave).
  assert (Hst2 : st2 = set_terms (<[pk := self]>) st1).
  { revert Hsave. unfold Model_save. rewrite Hid.
    destruct (unique_together_violated _ _ _); [done|]. by intros [= <-]. }
  destruct (update_term_officer_groups_members self pk st2 Hid)
    as (st3 & Hrun & Ht3 & Hc3 & Ho3 & Hg3 & Hug3).
  { rewrite Hst2. simpl. rewrite lookup_insert_eq. done. }
  rewrite (bind_return _ _ _ _ _ Hrun).
  assert (Hfacts : officers st3 = officers st ∧ groups st ⊆ groups st3
    ∧ user_groups st3 =
        if current self
        then filter (λ p, ¬ (p.2 ∈ groups st ∧ contains "Current" p.2))
                    (user_groups st)
             ∪ memberships_of st3
                 (filter (λ o, Some (term_id o) = id self) (officers st))
        else user_groups st).
  { rewrite Ho3, Hug3, (memberships_of_frame st2 st3 _ Ht3).
    rewrite Hst2 in *. simpl in *. rewrite Ho1, Hg1, Hug1 in *. done. }
  clear Hug3 Hg3 Ho3.
  destruct (current self); run; intros [= <-]; simpl;
    destruct Hfacts as (? & ? & Hug); repeat split; try done.
  rewrite Hug. f_equal. by apply memberships_of_frame.
Qed.

Lemma Term_save_inv self st self' st' :
  ¬ sentinel self →
  Term_save self st = Return self' st' →
  ∃ m, TERM_MAPPING !! term self = Some m
       ∧ self' = mkTerm (Some (year self * 10 + m)) (term self) (year self)
                        (current self)
       ∧ Term_save_atomic self' st = Return tt st'.
Proof.
  intros Hsent Hret.
  destruct (Term_save_returns self st self' st' Hsent Hret)
    as (m & Hm & -> & _). exists m. split; [done|]. split; [done|].
  assert (Hid : id self = None ∨ id self = Some (year self * 10 + m)).
  { destruct (id self) as [i|] eqn:Hi; [|by left].
    destruct (decide (i = year self * 10 + m)) as [->|Hne]; [by right|].
    rewrite (Term_save_mismatch self st m i) in Hret; done. }
  revert Hret. unfold Term_save. rewrite (not_sentinel_guard _ Hsent).
  rewrite (bind_return _ _ _ _ _ (Term_check_pk_ok self st m Hm Hid)).
  assert (Hpk : Term__calculate_pk self st = Return (year self * 10 + m) st).
  { unfold Term__calculate_pk, Term___term_as_int. rewrite Hm. by run. }
  rewrite (bind_return _ _ _ _ _ Hpk).
  unfold transaction_atomic. run.
  destruct (Term_save_atomic _ st) as [[] st1|e st1]; [|done].
  by intros [= <-].
Qed.


Lemma next_officer_pk_above rows o :
  o ∈ rows → (officer_pk o < next_officer_pk rows)%nat.
Proof.
  unfold next_officer_pk. induction rows as [|r rows IH]; intros Hin.
  - by apply elem_of_nil in Hin.
  - apply elem_of_cons in Hin as [->|Hin]; simpl; [lia|].
    specialize (IH Hin). lia.
Qed.

(** The two ways [Officer_create] can go. *)
Lemma Officer_create_adds_run u p tid st :
  Officer_create u p tid st = Raise IntegrityError st
  ∨ ∃ o st',
      Officer_create u p tid st = Return o st'
      ∧ officers st' = officers st ++ [o]
      ∧ terms st' = terms st
      ∧ ∀ u' g, (u', g) ∈ user_groups st' ↔
                (u', g) ∈ user_groups st
                ∨ (u' = user o ∧ g ∈ corresponding_groups st' o).
Proof.
  unfold Officer_create. run.
  destruct (bool_decide _ || bool_decide (terms st !! tid = None)) eqn:Hguard;
    [by left|right].
  apply orb_false_iff in Hguard as [_ Hterm].
  apply bool_decide_eq_false in Hterm.
  assert (Hsome : is_Some (terms st !! tid))
    by (destruct (terms st !! tid); [done|congruence]).
  set (o := mkOfficer (next_officer_pk (officers st)) u p tid).
  set (st1 := set_officers _ st).
  destruct (add_user_members o st1 Hsome)
    as (st2 & Hrun & Ht & Hc & Ho & Hug & Hg).
  unfold officer_post_save. rewrite Hrun. exists o, st2.
  split; [done|]. repeat split; try done.
  - rewrite Hug, elem_of_union, elem_of_memberships_of.
    rewrite (corresponding_groups_frame st1 st2) by done.
    intros [?|(o' & Ho' & <- & ?)]; [by left|].
    apply list_elem_of_singleton in Ho' as ->. by right.
  - rewrite Hug, elem_of_union, elem_of_memberships_of.
    rewrite (corresponding_groups_frame st1 st2) by done.
    intros [?|[-> ?]]; [by left|]. right. exists o. set_solver.
Qed.

(** X11. Creating an officer row is refused with [IntegrityError], and
    changes nothing, when the user already holds the position in the term
    or the term is not stored.  Otherwise the row enters the table under a
    fresh key and its user joins exactly the groups the row corresponds to:
    nobody leaves a group and no other user joins one. *)
Theorem Officer_create_adds
    (u : nat) (p : OfficerPosition) (tid : Z) (st : State) :
  let taken :=
    Exists (λ o, user o = u ∧ short_name (position o) = short_name p
                 ∧ term_id o = tid) (officers st) in
  (taken ∨ terms st !! tid = None →
   Officer_create u p tid st = Raise IntegrityError st)
  ∧ (¬ taken → is_Some (terms st !! tid) →
     ∃ o st',
       Officer_create u p tid st = Return o st'
       ∧ user o = u ∧ position o = p ∧ term_id o = tid
       ∧ (∀ o', o' ∈ officers st → officer_pk o' ≠ officer_pk o)
       ∧ officers st' = officers st ++ [o]
       ∧ terms st' = terms st
       ∧ (∀ g, g ∈ corresponding_groups st' o → g ∈ groups st')
       ∧ ∀ u' g, (u', g) ∈ user_groups st' ↔
                 (u', g) ∈ user_groups st
                 ∨ (u' = u ∧ g ∈ corresponding_groups st' o)).
Proof.
  intros taken. unfold Officer_create. run. split.
  - intros [Htaken|Hnone].
    + by rewrite (bool_decide_eq_true_2 _ Htaken).
    + by rewrite (bool_decide_eq_true_2 _ Hnone), orb_true_r.
  - intros Hfree Hterm.
    rewrite (bool_decide_eq_false_2 _ Hfree). simpl.
    rewrite bool_decide_eq_false_2 by (by destruct Hterm as [? ->]).
    set (o := mkOfficer (next_officer_pk (officers st)) u p tid).
    set (st1 := set_officers _ st).
    destruct (add_user_members o st1 Hterm)
      as (st2 & Hrun & Ht & Hc & Ho & Hug & Hg).
    unfold officer_post_save. rewrite Hrun. exists o, st2.
    split; [done|]. repeat split; try done.
    + intros o' Ho'. pose proof (next_officer_pk_above _ _ Ho'). simpl. lia.
    + intros g Hg'. rewrite Hg.
      rewrite (corresponding_groups_frame st1 st2) in Hg' by done.
      set_solver.
    + rewrite Hug, elem_of_union, elem_of_memberships_of.
      rewrite (corresponding_groups_frame st1 st2) by done.
      intros [?|(o' & Ho' & <- & ?)]; [by left|].
      apply list_elem_of_singleton in Ho' as ->. by right.
    + rewrite Hug, elem_of_union, elem_of_memberships_of.
      rewrite (corresponding_groups_frame st1 st2) by done.
      intros [?|[-> ?]]; [by left|]. right. exists o. set_solver.
Qed.

Lemma Officer_delete_inv st st' o :
  Officer_delete o st = Return tt st' →
  officers st' = filter (λ o', officer_pk o' ≠ officer_pk o) (officers st)
  ∧ terms st' = terms st
  ∧ ∀ u g,
      (u, g) ∈ user_groups st' ↔
      (u, g) ∈ user_groups st
      ∧ ¬ (u = user o ∧ g ∈ corresponding_groups st o
           ∧ ∀ o', o' ∈ officers st' → user o' = user o →
                   g ∉ corresponding_groups st o').
Proof.
  intros Hret.
  assert (Ho : is_Some (terms st !! term_id o)).
  { destruct (terms st !! term_id o) as [t|] eqn:Ht; [done|]. exfalso.
    revert Hret. unfold Officer_delete, officer_post_delete,
      Officer__remove_user_from_officer_groups. run.
    unfold Officer_term. simpl. by rewrite Ht. }
  assert (Hfk : ∀ o', o' = o ∨ (o' ∈ officers st ∧ officer_pk o' ≠ officer_pk o
                                ∧ user o' = user o) →
                      is_Some (terms st !! term_id o')).
  { intros o' [->|(Hin & Hpk & Hu)]; [done|].
    destruct Ho as [t Ht].
    revert Hret. unfold Officer_delete, officer_post_delete,
      Officer__remove_user_from_officer_groups. run.
    unfold Officer_term at 1. simpl. rewrite Ht.
    rewrite get_corresponding_groups_run.
    match goal with
    | |- context [still_needed_groups ?l ?a ?s] =>
        destruct (still_needed_groups_cases l a s) as [Hall | [st2 Hst2]]
    end.
    - intros _. apply (Hall o').
      apply list_elem_of_filter. split; [done|].
      apply list_elem_of_filter. by split.
    - rewrite Hst2. done. }
  destruct (officer_delete_run st o Hfk) as (st2 & Hrun & Hrest).
  rewrite Hrun in Hret. injection Hret as <-. exact Hrest.
Qed.

(** X12. Creating an officer and deleting one both keep every remaining
    officer row's user in all the groups that row corresponds to. *)
Theorem officer_rows_stay_justified (st : State) :
  groups_justified st →
  (∀ u p tid o st', Officer_create u p tid st = Return o st' →
                    groups_justified st')
  ∧ (∀ o st', Officer_delete o st = Return tt st' → groups_justified st').
Proof.
  intros Hinv. split.
  - intros u p tid o st' Hret.
    pose proof (Officer_create_adds_run u p tid st) as Hrun.
    destruct Hrun as [Hraise|(o1 & st1 & Hrun & Hrows & Hterms & Hmem)];
      [congruence|].
    rewrite Hrun in Hret. injection Hret as <- <-.
    intros o' g Ho' Hg. apply Hmem. rewrite Hrows in Ho'.
    apply elem_of_app in Ho' as [Ho'|Ho'].
    + left. apply Hinv; [done|].
      by rewrite <- (corresponding_groups_frame st st1).
    + apply list_elem_of_singleton in Ho' as ->. by right.
  - intros o st' Hret.
    destruct (Officer_delete_inv st st' o Hret) as (Hrows & Hterms & Hmem).
    intros o' g Ho' Hg.
    rewrite (corresponding_groups_frame st st') in Hg by done.
    apply Hmem. split.
    + apply Hinv; [|done]. rewrite Hrows in Ho'.
      by apply list_elem_of_filter in Ho' as [_ ?].
    + intros (Hu & _ & Hnone). by apply (Hnone o').
Qed.


(** X13. After a save of a term other than the sentinel with [current]
    set, when memberships point at existing groups, a user is in a group
    exactly when the membership was there before and the group's name does
    not contain [Current], or an officer row of the saved term with that
    user corresponds to the group.  [name__contains] is the case-sensitive
    containment Django documents; SQLite matches it without regard to
    case. *)
Theorem Term_save_current_groups (self self' : Term) (st st' : State) :
  ¬ sentinel self → current self = true →
  memberships_have_groups st →
  Term_save self st = Return self' st' →
  ∀ u g,
    (u, g) ∈ user_groups st' ↔
    ((u, g) ∈ user_groups st ∧ contains "Current" g = false)
    ∨ ∃ o, o ∈ officers st' ∧ Some (term_id o) = id self' ∧ user o = u
           ∧ g ∈ corresponding_groups st' o.
Proof.
  intros Hsent Hcur Hfk Hret.
  destruct (Term_save_inv self st self' st' Hsent Hret) as (m & Hm & -> & Hat).
  edestruct Term_save_atomic_members as (Ho & Hg & Hug);
    [|exact Hat|]; [reflexivity|]. simpl in Hug. rewrite Hcur in Hug.
  intros u g. rewrite Hug, elem_of_union, elem_of_filter.
  rewrite elem_of_memberships_of. simpl. rewrite Ho. split.
  - intros [[Hn Hin]|(o & Hin & <- & Hcorr)].
    + left. split; [done|]. apply not_true_is_false. intros Hc.
      apply Hn. split; [by apply (Hfk u)|by rewrite Hc].
    + right. exists o. apply list_elem_of_filter in Hin as [? ?]. done.
  - intros [[Hin Hc]|(o & Hin & Hid & <- & Hcorr)].
    + left. split; [|done]. intros [_ Hc']. rewrite Hc in Hc'. done.
    + right. exists o. split; [|done]. by apply list_elem_of_filter.
Qed.

Lemma base_group_not_current p g :
  contains "Current" (long_name p) = false →
  g ∈ position_group_names p → contains "Current" g = false.
Proof.
  intros Hp. rewrite elem_of_position_group_names.
  intros [->|[[_ ->]|[_ ->]]]; [done|reflexivity|reflexivity].
Qed.

Lemma corresponding_groups_lookup st o g :
  g ∈ corresponding_groups st o →
  ∃ t, terms st !! term_id o = Some t
       ∧ g ∈ with_current (current t) (position_group_names (position o)).
Proof.
  destruct (terms st !! term_id o) as [t|] eqn:Ht.
  - rewrite (corresponding_groups_eq st o t Ht). eauto.
  - unfold corresponding_groups, Officer_term. rewrite Ht.
    intros H. by apply elem_of_nil in H.
Qed.

(** X14. [Term.save] keeps every officer row's user in all the groups the
    row corresponds to, provided officer rows point at stored terms and no
    officer's position has [Current] in its long name. *)
Theorem Term_save_keeps_groups_justified
    (self self' : Term) (st st' : State) :
  officers_have_terms st →
  (∀ o, o ∈ officers st →
        contains "Current" (long_name (position o)) = false) →
  groups_justified st →
  Term_save self st = Return self' st' →
  groups_justified st'.
Proof.
  intros Hfk Hnames Hinv Hret.
  destruct (decide (sentinel self)) as [Hs|Hsent].
  { rewrite (Term_save_sentinel_run self st Hs) in Hret.
    by injection Hret as <- <-. }
  destruct (Term_save_returns self st self' st' Hsent Hret)
    as (m & Hm0 & _ & Hterms & _).
  destruct (Term_save_inv self st self' st' Hsent Hret) as (m' & Hm & -> & Hat).
  assert (m = m') as -> by congruence.
  edestruct Term_save_atomic_members as (Ho & Hg & Hug);
    [|exact Hat|]; [reflexivity|]. simpl in Hug, Hterms.
  set (pk := year self * 10 + m') in *.
  intros o g Hin Hcorr. rewrite Ho in Hin.
  destruct (corresponding_groups_lookup st' o g Hcorr) as (t' & Ht' & Hg').
  destruct (decide (term_id o = pk)) as [Hpk|Hpk].
  - (* an officer of the saved term *)
    destruct (current self) eqn:Hcur.
    + rewrite Hug. apply elem_of_union_r, elem_of_memberships_of.
      exists o. split; [|done]. apply list_elem_of_filter.
      split; [by rewrite Hpk|done].
    + rewrite Hug. apply Hinv; [done|].
      destruct (Hfk o Hin) as [r Hr].
      rewrite (corresponding_groups_eq st o r Hr).
      rewrite Hterms, Hpk, lookup_insert_eq in Ht'. injection Ht' as <-.
      cbn [current] in Hg'. apply elem_of_with_current.
      left. apply elem_of_with_current in Hg' as [?|[? _]]; done.
  - (* an officer of another term *)
    rewrite Hterms, lookup_insert_ne in Ht' by done.
    destruct (current self) eqn:Hcur.
    + rewrite lookup_clear_other_current in Ht'.
      destruct (terms st !! term_id o) as [r|] eqn:Hr; [|done].
      simpl in Ht'. rewrite bool_decide_eq_true_2, andb_true_r in Ht'
        by congruence.
      assert (Hbase : g ∈ position_group_names (position o)).
      { injection Ht' as <-. destruct (current r) eqn:Hcr; cbn [current] in Hg'.
        - apply elem_of_with_current in Hg' as [?|[? _]]; done.
        - rewrite Hcr in Hg'.
          apply elem_of_with_current in Hg' as [?|[? _]]; done. }
      rewrite Hug. apply elem_of_union_l, elem_of_filter. split.
      * intros [_ Hc]. simpl in Hc.
        rewrite (base_group_not_current (position o) g) in Hc; [done| |done].
        by apply Hnames.
      * apply Hinv; [done|]. rewrite (corresponding_groups_eq st o r Hr).
        apply elem_of_with_current. by left.
    + rewrite Hug. apply Hinv; [done|].
      by rewrite (corresponding_groups_eq st o t' Ht').
Qed.

End officer_membership.

(** ** Course: the ordering *)

Section course_strict_order.

Import Courses.

Lemma ascii_compare_eq a b : Ascii.compare a b = Eq ↔ a = b.
Proof.
  split; [apply Ascii.compare_eq_iff|intros ->; apply ascii_compare_refl].
Qed.

Lemma ascii_compare_trans a b c :
  Ascii.compare a b = Lt → Ascii.compare b c = Lt → Ascii.compare a c = Lt.
Proof. unfold Ascii.compare. rewrite !N.compare_lt_iff. lia. Qed.

#[local] Instance string_ordering : Ordering String.compare.
Proof.
  split.
  - intros x y. split; [apply String.compare_eq_iff|].
    intros ->. apply string_compare_refl.
  - intros x y. apply String.compare_antisym.
  - intros x. induction x as [|a x IH]; intros [|b y] [|c z]; simpl; try done.
    destruct (Ascii.compare a b) eqn:Hab; [|intros _|done].
    + apply ascii_compare_eq in Hab as ->.
      destruct (Ascii.compare b c); [apply IH|done|done].
    + destruct (Ascii.compare b c) eqn:Hbc; [|intros _|done].
      * apply ascii_compare_eq in Hbc as ->. by rewrite Hab.
      * by rewrite (ascii_compare_trans a b c).
Qed.

#[local] Instance Z_ordering : Ordering Z.compare.
Proof.
  split.
  - apply Z.compare_eq_iff.
  - intros x y. apply Z.compare_antisym.
  - intros x y z. rewrite !Z.compare_lt_iff. lia.
Qed.

#[local] Instance lex_ordering {A B} (cmpA : A → A → comparison)
    (cmpB : B → B → comparison) `{!Ordering cmpA, !Ordering cmpB} :
  Ordering (lex cmpA cmpB).
Proof.
  split.
  - intros [a1 b1] [a2 b2]. unfold lex. simpl.
    destruct (cmpA a1 a2) eqn:Ha.
    + apply cmp_eq in Ha as ->. rewrite cmp_eq. split; congruence.
    + split; [done|]. intros [= -> _].
      rewrite (proj2 (cmp_eq a2 a2) eq_refl) in Ha. done.
    + split; [done|]. intros [= -> _].
      rewrite (proj2 (cmp_eq a2 a2) eq_refl) in Ha. done.
  - intros [a1 b1] [a2 b2]. unfold lex. simpl.
    rewrite (cmp_opp a1 a2). destruct (cmpA a1 a2); simpl; [|done|done].
    apply cmp_opp.
  - intros [a1 b1] [a2 b2] [a3 b3]. unfold lex. simpl.
    destruct (cmpA a1 a2) eqn:H12; [|intros _|done].
    + apply cmp_eq in H12 as ->.
      destruct (cmpA a2 a3); [apply cmp_trans|done|done].
    + destruct (cmpA a2 a3) eqn:H23; [|intros _|done].
      * apply cmp_eq in H23 as ->. by rewrite H12.
      * by rewrite (cmp_trans a1 a2 a3).
Qed.

#[local] Instance key_ordering : Ordering key_compare.
Proof. unfold key_compare. apply _. Qed.

Lemma str_lt_compare a b : str_lt a b = bool_decide (String.compare a b = Lt).
Proof. unfold str_lt, String.ltb. by destruct (String.compare a b). Qed.

Lemma str_gt_compare a b : str_gt a b = bool_decide (String.compare a b = Gt).
Proof.
  unfold str_gt, String.ltb. rewrite (String.compare_antisym b a).
  by destruct (String.compare a b).
Qed.

Lemma Z_lt_compare a b : bool_decide (a < b) = bool_decide (Z.compare a b = Lt).
Proof. apply bool_decide_ext. symmetry. apply Z.compare_lt_iff. Qed.

Lemma Z_gt_compare a b : bool_decide (a > b) = bool_decide (Z.compare a b = Gt).
Proof. apply bool_decide_ext. rewrite Z.compare_gt_iff. lia. Qed.

(** [Course.__lt__] is "the three-way comparison says less". *)
Lemma Course_lt_compare a b :
  Course___lt__ a (VCourse b)
  = (λ c, bool_decide (c = Lt)) <$> course_compare a b.
Proof.
  unfold Course___lt__, course_compare.
  rewrite str_lt_compare, str_gt_compare.
  destruct (String.compare _ _); simpl; [|done|done].
  unfold number_key.
  destruct (split_hyphen (number a)) as [[num1 h1]|]; simpl; [|done].
  destruct (split_hyphen (number b)) as [[num2 h2]|]; simpl.
  2: { by destruct (int (strip is_letter num1)). }
  destruct (int (strip is_letter num1)) as [i1|]; simpl; [|done].
  destruct (int (strip is_letter num2)) as [i2|]; simpl; [|done].
  rewrite !str_lt_compare, !str_gt_compare, !Z_lt_compare, Z_gt_compare.
  unfold key_compare, lex. simpl.
  destruct (i1 ?= i2); simpl; [|done|done].
  destruct (String.compare (lstrip is_letter num1) (lstrip is_letter num2));
    simpl; [|done|done].
  by destruct (String.compare num1 num2).
Qed.

Lemma course_compare_opp a b :
  course_compare b a = CompOpp <$> course_compare a b.
Proof.
  unfold course_compare.
  rewrite (cmp_opp (abbreviation (department a)) (abbreviation (department b))).
  destruct (String.compare _ _); simpl; [|done|done].
  destruct (number_key (number a)) as [ka|], (number_key (number b)) as [kb|];
    simpl; try done.
  by rewrite (cmp_opp ka kb).
Qed.

Lemma course_compare_trans a b c :
  course_compare a b = Some Lt → course_compare b c = Some Lt →
  course_compare a c = Some Lt.
Proof.
  unfold course_compare.
  destruct (String.compare (abbreviation (department a))
                           (abbreviation (department b))) eqn:Hab; [| |done].
  - apply cmp_eq in Hab as ->.
    destruct (String.compare (abbreviation (department b)) _); [| |done].
    + destruct (number_key (number a)) as [ka|]; simpl; [|done].
      destruct (number_key (number b)) as [kb|]; simpl; [|done].
      destruct (number_key (number c)) as [kc|]; simpl; [|done].
      intros [= H1] [= H2]. by rewrite (cmp_trans ka kb kc).
    + done.
  - intros _.
    destruct (String.compare (abbreviation (department b))
                             (abbreviation (department c))) eqn:Hbc; [| |done].
    + apply cmp_eq in Hbc as <-. by rewrite Hab.
    + intros _. by rewrite (cmp_trans _ _ _ Hab Hbc).
Qed.

Lemma Course_lt_true a b :
  Course___lt__ a (VCourse b) = Some true ↔ course_compare a b = Some Lt.
Proof.
  rewrite Course_lt_compare. destruct (course_compare a b) as [[]|]; simpl;
    split; intros H; try done; by injection H.
Qed.

Lemma Course_lt_false a b :
  Course___lt__ a (VCourse b) = Some false ↔
  course_compare a b = Some Eq ∨ course_compare a b = Some Gt.
Proof.
  rewrite Course_lt_compare. destruct (course_compare a b) as [[]|]; simpl;
    split; intros H; try done; try (by left); try (by right);
    destruct H as [H|H]; done.
Qed.

(** X15. Whatever the numbers look like, [Course.__lt__] is a strict
    order where it answers: no course is below itself, two courses are
    never below each other, and below is transitive.  When two courses are
    not below each other either way, they have the same department
    abbreviation and the same integer, letters and suffix. *)
Theorem Course_lt_strict_order (a b c : Course) :
  Course___lt__ a (VCourse a) ≠ Some true
  ∧ (Course___lt__ a (VCourse b) = Some true →
     Course___lt__ b (VCourse a) = Some false)
  ∧ (Course___lt__ a (VCourse b) = Some true →
     Course___lt__ b (VCourse c) = Some true →
     Course___lt__ a (VCourse c) = Some true)
  ∧ (Course___lt__ a (VCourse b) = Some false →
     Course___lt__ b (VCourse a) = Some false →
     abbreviation (department a) = abbreviation (department b)
     ∧ is_Some (number_key (number a))
     ∧ number_key (number a) = number_key (number b)).
Proof.
  split; [|split; [|split]].
  - rewrite Course_lt_true. unfold course_compare.
    rewrite (proj2 (cmp_eq _ _) eq_refl).
    destruct (number_key (number a)) as [ka|]; simpl; [|done].
    by rewrite (proj2 (cmp_eq ka ka) eq_refl).
  - rewrite Course_lt_true, Course_lt_false, (course_compare_opp a b).
    intros ->. by right.
  - rewrite !Course_lt_true. apply course_compare_trans.
  - rewrite !Course_lt_false, (course_compare_opp a b).
    unfold course_compare.
    destruct (String.compare _ _) eqn:Hab; simpl.
    + apply cmp_eq in Hab. split; [done|].
      destruct (number_key (number a)) as [ka|]; simpl in *;
        [|destruct H as [?|?]; done].
      destruct (number_key (number b)) as [kb|]; simpl in *;
        [|destruct H as [?|?]; done].
      split; [done|]. f_equal. apply (cmp_eq (cmp := key_compare)).
      destruct (key_compare ka kb); [done|..];
        destruct H as [?|?], H0 as [?|?]; done.
    + intros [?|?] [?|?]; done.
    + intros [?|?] [?|?]; done.
Qed.

Lemma course_compare_eq_trans a b c :
  course_compare a b = Some Eq →
  course_compare a c = course_compare b c.
Proof.
  unfold course_compare.
  destruct (String.compare (abbreviation (department a))
                           (abbreviation (department b))) eqn:Hab; [|done|done].
  apply cmp_eq in Hab as ->.
  destruct (number_key (number a)) as [ka|]; simpl; [|done].
  destruct (number_key (number b)) as [kb|]; simpl; [|done].
  intros [= ->%cmp_eq]. done.
Qed.

Lemma Course_le_true a b :
  Course___le__ a (VCourse b) = Some true ↔
  course_compare a b = Some Lt ∨ course_compare a b = Some Eq.
Proof.
  unfold Course___le__. rewrite Course_lt_compare, (course_compare_opp a b).
  destruct (course_compare a b) as [[]|]; simpl; split; intros H; try done;
    try (by left); try (by right); destruct H as [H|H]; done.
Qed.

(** X16. The derived comparisons agree with [__lt__]: [a <= b] holds
    exactly when [a < b] or neither is below the other, [a >= b] is
    [b <= a], and, where they answer, [<=] is reflexive, transitive and
    total.  Two courses that [__eq__] calls equal and whose departments
    carry the same abbreviation are never strictly ordered. *)
Theorem Course_le_total_preorder (a b c : Course) :
  (Course___le__ a (VCourse b) = Some true ↔
     Course___lt__ a (VCourse b) = Some true
     ∨ (Course___lt__ a (VCourse b) = Some false
        ∧ Course___lt__ b (VCourse a) = Some false))
  ∧ Course___ge__ a (VCourse b) = Course___le__ b (VCourse a)
  ∧ Course___le__ a (VCourse a) ≠ Some false
  ∧ (Course___le__ a (VCourse b) = Some true →
     Course___le__ b (VCourse c) = Some true →
     Course___le__ a (VCourse c) = Some true)
  ∧ (is_Some (Course___le__ a (VCourse b)) →
     Course___le__ a (VCourse b) = Some true
     ∨ Course___le__ b (VCourse a) = Some true)
  ∧ (Course___eq__ a (VCourse b) = true →
     abbreviation (department a) = abbreviation (department b) →
     Course___lt__ a (VCourse b) ≠ Some true).
Proof.
  repeat split.
  - rewrite Course_le_true, Course_lt_true, !Course_lt_false,
      (course_compare_opp a b).
    destruct (course_compare a b) as [[]|]; simpl; naive_solver.
  - rewrite Course_le_true, Course_lt_true, !Course_lt_false,
      (course_compare_opp a b).
    destruct (course_compare a b) as [[]|]; simpl; naive_solver.
  - unfold Course___le__. rewrite Course_lt_compare.
    unfold course_compare. rewrite (proj2 (cmp_eq _ _) eq_refl).
    destruct (number_key (number a)) as [ka|]; simpl; [|done].
    by rewrite (proj2 (cmp_eq ka ka) eq_refl).
  - rewrite !Course_le_true. intros [Hab|Hab] [Hbc|Hbc].
    + left. by apply (course_compare_trans a b c).
    + left. pose proof (course_compare_opp b c) as Ho. rewrite Hbc in Ho.
      apply course_compare_eq_trans with (c := a) in Ho.
            simpl in Ho. rewrite (course_compare_opp c a), Ho, (course_compare_opp a b), Hab.
      done.
    + left. by rewrite (course_compare_eq_trans a b c).
    + right. by rewrite (course_compare_eq_trans a b c).
  - intros [r Hr]. rewrite !Course_le_true, (course_compare_opp a b).
    revert Hr. unfold Course___le__.
    rewrite Course_lt_compare, (course_compare_opp a b).
    destruct (course_compare a b) as [[]|]; simpl; naive_solver.
  - unfold Course___eq__. intros [Hn _]%andb_true_iff Hd.
    apply bool_decide_eq_true in Hn.
    rewrite Course_lt_true. unfold course_compare. rewrite Hd, Hn.
    rewrite (proj2 (cmp_eq _ _) eq_refl).
    destruct (number_key (number b)) as [kb|]; simpl; [|done].
    by rewrite (proj2 (cmp_eq kb kb) eq_refl).
Qed.

End course_strict_order.

(** ** Course.save *)

Section course_save.

Import Courses.

Lemma upper_char_not_lower c : between "a" "z" (upper_char c) = false.
Proof.
  unfold upper_char. destruct (between "a" "z" c) eqn:Hc; [|done].
  revert Hc. unfold between.
  rewrite !andb_true_iff, !N.leb_le. intros [H1 H2].
  rewrite N_ascii_embedding by (simpl in *; lia).
  apply andb_false_iff. left. apply N.leb_gt. simpl in *. lia.
Qed.

Lemma upper_char_space c : is_space (upper_char c) = is_space c.
Proof.
  unfold upper_char. destruct (between "a" "z" c) eqn:Hc; [|done].
  destruct c as [[] [] [] [] [] [] [] []]; vm_compute in Hc |- *; congruence.
Qed.

Lemma upper_not_lower s :
  Forall (λ c, between "a" "z" c = false) (list_ascii_of_string (upper s)).
Proof.
  induction s as [|c s IH]; simpl; constructor; [|done].
  apply upper_char_not_lower.
Qed.

Lemma upper_fixed s :
  Forall (λ c, between "a" "z" c = false) (list_ascii_of_string s) →
  upper s = s.
Proof.
  induction s as [|c s IH]; simpl; [done|].
  intros [Hc Hs]%Forall_cons. rewrite IH by done.
  unfold upper_char. by rewrite Hc.
Qed.

Lemma lstrip_suffix p s :
  ∃ n, lstrip p s = str_drop n s.
Proof.
  induction s as [|c s [n IH]]; simpl; [by exists 0%nat|].
  destruct (p c); [by exists (S n)|by exists 0%nat].
Qed.

Lemma Forall_str_drop (P : ascii → Prop) n s :
  Forall P (list_ascii_of_string s) →
  Forall P (list_ascii_of_string (str_drop n s)).
Proof.
  revert s. induction n as [|n IH]; intros [|c s]; simpl; try done.
  intros [_ Hs]%Forall_cons. by apply IH.
Qed.

Lemma Forall_rstrip (P : ascii → Prop) p s :
  Forall P (list_ascii_of_string s) →
  Forall P (list_ascii_of_string (rstrip p s)).
Proof.
  induction s as [|c s IH]; simpl; [done|].
  intros [Hc Hs]%Forall_cons.
  destruct (p c && _); simpl; [constructor|]. constructor; auto.
Qed.

Lemma rstrip_idem p s : rstrip p (rstrip p s) = rstrip p s.
Proof.
  induction s as [|c s IH]; simpl; [done|].
  destruct (p c && (rstrip p s =? "")%string) eqn:Hc; simpl; [done|].
  by rewrite IH, Hc.
Qed.

Lemma lstrip_fixed_rstrip p s :
  lstrip p s = s → lstrip p (rstrip p s) = rstrip p s.
Proof.
  destruct s as [|c s]; simpl; [done|].
  destruct (p c) eqn:Hc; simpl.
  - intros Hs. exfalso.
    destruct (lstrip_suffix p s) as [n Hn]. rewrite Hn in Hs.
    assert (∀ n s, String.length (str_drop n s) ≤ String.length s)%nat as Hlen.
    { clear. induction n as [|n IH]; intros [|c s]; simpl; try lia.
      specialize (IH s). lia. }
    specialize (Hlen n s). rewrite Hs in Hlen. simpl in Hlen. lia.
  - intros _. by rewrite Hc.
Qed.

Lemma lstrip_idem p s : lstrip p (lstrip p s) = lstrip p s.
Proof.
  induction s as [|c s IH]; simpl; [done|].
  destruct (p c) eqn:Hc; [done|]. simpl. by rewrite Hc.
Qed.

(** What [Course.save] writes is normalised, and normalising a normalised
    number changes nothing. *)
Lemma strip_upper_normalised s : normalised (strip is_space (upper s)).
Proof.
  unfold normalised, strip. split; [|split].
  - apply Forall_rstrip. destruct (lstrip_suffix is_space (upper s)) as [n ->].
    apply Forall_str_drop, upper_not_lower.
  - apply lstrip_fixed_rstrip, lstrip_idem.
  - apply rstrip_idem.
Qed.

Lemma normalised_fixed s : normalised s → strip is_space (upper s) = s.
Proof.
  intros (Hl & Hs1 & Hs2). rewrite (upper_fixed _ Hl). unfold strip.
  by rewrite Hs1, Hs2.
Qed.

Lemma Course_save_run self rows :
  let self' := mkCourse (course_pk self) (department self)
                        (strip is_space (upper (number self))) in
  Course_save self rows
  = match Course_Model_save self' rows with
    | Return _ rows' => Return self' rows'
    | Raise e rows' => Raise e rows'
    end.
Proof. unfold Course_save. simpl. unfold mbind, M_bind, bind. done. Qed.

Lemma Model_save_replace_fixed (self : Course) (rows : list Course) :
  (∀ r, r ∈ rows → course_pk r = course_pk self → r = self) →
  (λ r, if bool_decide (course_pk r = course_pk self) then self else r) <$> rows
  = rows.
Proof.
  intros H. induction rows as [|r rows IH]; [done|].
  rewrite fmap_cons.
  rewrite IH by (intros; apply H; [by right|done]).
  case_bool_decide; [|done]. f_equal. symmetry. apply H; [by left|done].
Qed.

(** X17. When [Course.save] returns, the number it stored has no
    lower-case letter and no white space at either end, the course is a row
    of the table, and saving the course again changes nothing. *)
Theorem Course_save_normalises (self self' : Course) (rows rows' : list Course) :
  Course_save self rows = Return self' rows' →
  course_pk self' = course_pk self
  ∧ department self' = department self
  ∧ number self' = strip is_space (upper (number self))
  ∧ normalised (number self')
  ∧ self' ∈ rows'
  ∧ Course_save self' rows' = Return self' rows'.
Proof.
  rewrite Course_save_run. cbv zeta.
  set (s := mkCourse _ _ _).
  unfold Course_Model_save.
  case_bool_decide as Hdup; [done|].
  assert (Hnorm : strip is_space (upper (number s)) = number s).
  { apply normalised_fixed, strip_upper_normalised. }
  assert (Hs : mkCourse (course_pk s) (department s)
                        (strip is_space (upper (number s))) = s).
  { rewrite Hnorm. done. }
  case_bool_decide as Hpk; intros [= <- <-].
  - split_and!; try done; [apply strip_upper_normalised| |].
    + apply Exists_exists in Hpk as (r & Hr & Hrpk).
      apply list_elem_of_fmap. exists r. by rewrite bool_decide_eq_true_2.
    + rewrite Course_save_run. cbv zeta. rewrite Hs.
      unfold Course_Model_save.
      rewrite bool_decide_eq_false_2.
      2: { intros (r' & Hr' & Hne & Hd & Hn)%Exists_exists.
           apply list_elem_of_fmap in Hr' as (r & -> & Hr).
           case_bool_decide; [done|].
           apply Hdup, Exists_exists. by exists r. }
      rewrite bool_decide_eq_true_2.
      2: { apply Exists_exists in Hpk as (r & Hr & Hrpk).
           apply Exists_exists. exists s. split; [|done].
           apply list_elem_of_fmap. exists r. by rewrite bool_decide_eq_true_2. }
      f_equal. apply Model_save_replace_fixed.
      intros r' (r & -> & Hr)%list_elem_of_fmap.
      by case_bool_decide.
  - split_and!; try done; [apply strip_upper_normalised| |].
    + apply elem_of_app. right. by left.
    + rewrite Course_save_run. cbv zeta. rewrite Hs.
      unfold Course_Model_save.
      rewrite bool_decide_eq_false_2.
      2: { intros (r & [Hr|Hr%list_elem_of_singleton]%elem_of_app & Hne & Hd & Hn)%Exists_exists.
           - apply Hdup, Exists_exists. by exists r.
           - by subst. }
      rewrite bool_decide_eq_true_2.
      2: { apply Exists_exists. exists s. split; [|done].
           apply elem_of_app. right. by left. }
      f_equal. apply Model_save_replace_fixed.
      intros r [Hr|Hr%list_elem_of_singleton]%elem_of_app Hrpk; [|done].
      exfalso. apply Hpk, Exists_exists. by exists r.
Qed.

(** X18. [Course.save] keeps the course table well formed: unique
    primary keys, a unique pair of department and number, every number
    normalised.  This holds whether the call returns or raises. *)
Theorem Course_save_keeps_table (self : Course) (rows : list Course) :
  course_table_ok rows →
  match Course_save self rows with
  | Return _ rows' => course_table_ok rows'
  | Raise e rows' => e = IntegrityError ∧ rows' = rows
  end.
Proof.
  intros (Hpks & Huniq & Hnorm).
  rewrite Course_save_run. cbv zeta.
  set (s := mkCourse _ _ _).
  assert (Hsn : normalised (number s)) by apply strip_upper_normalised.
  unfold Course_Model_save.
  case_bool_decide as Hdup; [done|].
  case_bool_decide as Hpk.
  - split; [|split].
    + rewrite <- list_fmap_compose.
      erewrite list_fmap_ext; [exact Hpks|].
      intros i r _. simpl. by case_bool_decide.
    + intros r1' r2' (r1 & -> & Hr1)%list_elem_of_fmap
        (r2 & -> & Hr2)%list_elem_of_fmap.
      do 2 case_bool_decide; try done.
      * intros Hd Hn. destruct (decide (course_pk r2 = course_pk s)) as [|Hne];
          [done|]. exfalso. apply Hdup, Exists_exists. by exists r2.
      * intros Hd Hn. destruct (decide (course_pk r1 = course_pk s)) as [|Hne];
          [done|]. exfalso. apply Hdup, Exists_exists. by exists r1.
      * by apply Huniq.
    + apply Forall_fmap. eapply Forall_impl; [exact Hnorm|].
      intros r Hr. simpl. by case_bool_decide.
  - split; [|split].
    + rewrite fmap_app. simpl. apply NoDup_app. split; [done|]. split.
      * intros pk (r & -> & Hr)%list_elem_of_fmap Hs%list_elem_of_singleton.
        apply Hpk, Exists_exists. by exists r.
      * apply NoDup_singleton.
    + intros r1 r2 [Hr1|Hr1%list_elem_of_singleton]%elem_of_app
        [Hr2|Hr2%list_elem_of_singleton]%elem_of_app; subst; try done.
      * by apply Huniq.
      * intros Hd Hn. destruct (decide (course_pk r1 = course_pk s)) as [|Hne];
          [done|]. exfalso. apply Hdup, Exists_exists. by exists r1.
      * intros Hd Hn. destruct (decide (course_pk r2 = course_pk s)) as [|Hne];
          [done|]. exfalso. apply Hdup, Exists_exists. by exists r2.
    + apply Forall_app. split; [done|]. by constructor.
Qed.

(** X19. In a well-formed table, a course whose number is another
    row's up to letter case and surrounding white space, in the same
    department, is refused with [IntegrityError], and the table is as it
    was. *)
Theorem Course_save_refuses_same_number (self r : Course) (rows : list Course) :
  course_table_ok rows →
  r ∈ rows →
  course_pk r ≠ course_pk self →
  department_pk (department r) = department_pk (department self) →
  strip is_space (upper (number r)) = strip is_space (upper (number self)) →
  Course_save self rows = Raise IntegrityError rows.
Proof.
  intros (_ & _ & Hnorm) Hr Hpk Hd Hn.
  rewrite Course_save_run. cbv zeta. unfold Course_Model_save.
  rewrite bool_decide_eq_true_2; [done|].
  apply Exists_exists. exists r. repeat split; try done. simpl.
  rewrite <- Hn. symmetry. apply normalised_fixed.
  by apply (proj1 (Forall_forall _ _) Hnorm).
Qed.

End course_save.

(** ** Exam forms: what validation leaves behind *)

Section exam_forms_more.

Import Exams.

Lemma exam_matches_pk ci number type e :
  exam_matches (Some ci) number type e = true →
  exam_course_instance e = course_instance_pk ci.
Proof.
  unfold exam_matches. rewrite !andb_true_iff, !bool_decide_eq_true. simpl.
  intros [[[= ->] _] _]. done.
Qed.

(** A [set_course_instance] that returned either created nothing, or
    resolved an instance no stored exam points at. *)
Lemma set_course_instance_created st st1 :
  exams_reference_instances st →
  ExamForm_set_course_instance st = Return tt st1 →
  course_instances st1 = course_instances st
  ∨ ∃ ci, course_instance (form st1) = Some ci
          ∧ ∀ e, e ∈ exams st1 → exam_course_instance e ≠ course_instance_pk ci.
Proof.
  intros Hfk Hrun.
  pose proof (set_course_instance_spec st) as Hspec. cbv zeta in Hspec.
  rewrite Hrun in Hspec.
  destruct Hspec as ((_ & _ & Hex & _) & _ & course & instrs
                      & _ & _ & _ & _ & Hci).
  destruct (filter _ (course_instances st)) as [|ci [|ci' l]]; [| |done].
  - right. destruct Hci as [Hci Hrows]. eexists. split; [exact Hci|].
    intros e He Hpk. rewrite Hex in He.
    destruct (Hfk e He) as (ci0 & Hci0 & Hpk0).
    apply fresh_pk_above in Hci0. simpl in Hpk. lia.
  - left. by destruct Hci as [_ Hrows].
Qed.

(** X20. Under the foreign key of [Exam.course_instance], a [clean]
    that raises, of the upload form or of the edit form, leaves every
    table as it was: no course instance is created by a submission that is
    refused. *)
Theorem clean_refused_creates_nothing (st : State) :
  exams_reference_instances st →
  (∀ e st', UploadForm_clean st = Raise e st' →
     form_frame st st' ∧ course_instances st' = course_instances st)
  ∧ (∀ e st', EditForm_clean st = Raise e st' →
       form_frame st st' ∧ course_instances st' = course_instances st).
Proof.
  intros Hfk.
  pose proof (set_course_instance_spec st) as Hspec. cbv zeta in Hspec.
  pose proof (set_course_instance_created st) as Hcreated.
  unfold UploadForm_clean, EditForm_clean. run.
  destruct (ExamForm_set_course_instance st) as [[] st1|e1 st1] eqn:Hrun.
  - destruct Hspec as (Hframe & _).
    assert (Hrows : ∀ e, e ∈ exams st1 →
              exam_matches (course_instance (form st1))
                (cd_exam_number (cleaned_data (form st)))
                (cd_exam_type (cleaned_data (form st))) e = true →
              course_instances st1 = course_instances st).
    { intros e He Hm.
      destruct (Hcreated st1 Hfk eq_refl) as [|(ci & Hci & Hnone)]; [done|].
      rewrite Hci in Hm. apply exam_matches_pk in Hm.
      by destruct (Hnone e He). }
    split; intros e st'; case_bool_decide as Hdup; try done;
      intros [= <- <-]; (split; [done|]);
      apply filter_not_nil in Hdup as (x & Hx & Hm).
    + by apply (Hrows x).
    + apply list_elem_of_filter in Hx as [Hx1 Hx2]. by apply (Hrows x).
  - destruct Hspec as (Hframe & Hrows & _).
    split; intros e st' [= <- <-]; done.
Qed.

Lemma check_permissions_allowed instructors st :
  (∀ i, i ∈ instructors →
        permissions st !! instructor_pk i = None
        ∨ permissions st !! instructor_pk i = Some (Some true)) →
  check_permissions instructors st = Return tt st.
Proof.
  intros Hall.
  destruct (check_permissions_cases instructors st)
    as [[_ Hrun]|(i & Hi & Hden & _)]; [done|].
  destruct (Hall i Hi) as [H|H], Hden as [H'|H']; congruence.
Qed.

Lemma set_exam_instructors_same (f : Form) :
  set_exam_instructors (exam_instructors f) f = f.
Proof. by destruct f. Qed.

Lemma set_form_same (f : Form → Form) st :
  f (form st) = form st → set_form f st = st.
Proof. destruct st. unfold set_form. simpl. by intros ->. Qed.

Lemma created_instance_matches term course instructors :
  NoDup (instructor_pk <$> instructors) →
  instance_matches term course instructors
    (mkCourseInstance (fresh_pk []) term (Courses.course_pk course)
       (list_to_set (instructor_pk <$> instructors))) = true
  ∧ ∀ pk, instance_matches term course instructors
            (mkCourseInstance pk term (Courses.course_pk course)
               (list_to_set (instructor_pk <$> instructors))) = true.
Proof.
  intros Hnd.
  assert (H : ∀ pk, instance_matches term course instructors
            (mkCourseInstance pk term (Courses.course_pk course)
               (list_to_set (instructor_pk <$> instructors))) = true).
  { intros pk. apply instance_matches_exact. unfold exact_match. simpl.
    split; [done|]. split; [done|]. split.
    - rewrite size_list_to_set by done. by rewrite length_fmap.
    - intros i Hi. apply elem_of_list_to_set, list_elem_of_fmap. by exists i. }
  split; [apply H|exact H].
Qed.

Lemma resolve_course_instance_again term course instructors st st' :
  NoDup (instructor_pk <$> instructors) →
  resolve_course_instance term course instructors st = Return tt st' →
  resolve_course_instance term course instructors st' = Return tt st'.
Proof.
  intros Hnd.
  pose proof (resolve_course_instance_run term course instructors st) as H1.
  pose proof (resolve_course_instance_run term course instructors st') as H2.
  revert H1. cbv zeta.
  destruct (filter _ (course_instances st)) as [|ci [|ci' l]] eqn:Hf;
    intros ->; [| |done]; intros [= <-]; revert H2; cbv zeta;
    cbn [course_instances set_form set_course_instances].
  - rewrite filter_app, Hf.
    rewrite filter_cons_True
      by apply (created_instance_matches term course instructors Hnd).
    rewrite filter_nil. cbn [app]. intros ->. reflexivity.
  - rewrite Hf. intros ->. reflexivity.
Qed.

Lemma resolve_course_instance_keeps term course instructors st st' :
  resolve_course_instance term course instructors st = Return tt st' →
  exam_instructors (form st') = exam_instructors (form st).
Proof.
  pose proof (resolve_course_instance_run term course instructors st) as H1.
  revert H1. cbv zeta.
  destruct (filter _ (course_instances st)) as [|ci [|ci' l]];
    intros ->; [| |done]; intros [= <-]; done.
Qed.

(** X21. When the selected instructors are distinct, validation is
    stable: a [set_course_instance] that returned, called again, returns
    with the same state: it finds the course instance the first call found
    or created, and creates nothing. *)
Theorem set_course_instance_idempotent (st st' : State) :
  NoDup (instructor_pk <$> selected st) →
  ExamForm_set_course_instance st = Return tt st' →
  ExamForm_set_course_instance st' = Return tt st'.
Proof.
  intros Hnd Hrun.
  pose proof (set_course_instance_run st) as H1.
  pose proof (set_course_instance_run st') as H2.
  pose proof (set_course_instance_spec st) as Hspec.
  cbv zeta in H1, H2, Hspec. rewrite Hrun in Hspec.
  destruct Hspec as ((Hc & Hp & He & Hcd & Hpk) & _ & _).
  rewrite Hcd, Hc in H2. unfold selected in Hnd.
  destruct (filter _ (courses st)) as [|course [|c' l]];
    [congruence| |congruence].
  destruct (cd_instructors (cleaned_data (form st))) as [instructors|] eqn:Hsel;
    [|congruence].
  simpl in Hnd.
  assert (H1' : ExamForm_set_course_instance st
                = (check_permissions instructors;;
                   resolve_course_instance (cd_term (cleaned_data (form st)))
                     course instructors)
                    (set_form (set_exam_instructors (Some instructors)) st)).
  { destruct instructors; [congruence|done]. }
  assert (H2' : ExamForm_set_course_instance st'
                = (check_permissions instructors;;
                   resolve_course_instance (cd_term (cleaned_data (form st)))
                     course instructors)
                    (set_form (set_exam_instructors (Some instructors)) st')).
  { destruct instructors; [congruence|done]. }
  clear H1 H2. rewrite Hrun in H1'. symmetry in H1'.
  set (st1 := set_form _ st) in H1'.
  set (term := cd_term (cleaned_data (form st))) in *.
  destruct (check_permissions_cases instructors st1)
    as [[Hall Hperm]|(i & _ & _ & Hperm)].
  2: { rewrite (bind_raise _ _ _ _ _ Hperm) in H1'. done. }
  rewrite (bind_return _ _ _ _ _ Hperm) in H1'.
  assert (Hst1 : set_form (set_exam_instructors (Some instructors)) st' = st').
  { apply set_form_same.
    rewrite <- (set_exam_instructors_same (form st')) at 2. f_equal.
    by rewrite (resolve_course_instance_keeps _ _ _ _ _ H1'). }
  rewrite H2', Hst1.
  rewrite (bind_return _ _ _ tt st').
  2: { apply check_permissions_allowed. rewrite Hp. exact Hall. }
  by apply (resolve_course_instance_again _ _ _ st1).
Qed.

Lemma UploadForm_save_blacklisted_run instructors b st :
  UploadForm_save_blacklisted instructors b st
  = Return (b || existsb (λ i, bool_decide (permissions st !! instructor_pk i
                                           = Some (Some false))) instructors)
           st.
Proof.
  revert b. induction instructors as [|i rest IH]; intros b; simpl.
  - run. by rewrite orb_false_r.
  - run. destruct (permissions st !! instructor_pk i) as [[[|]|]|]; simpl;
      rewrite IH; try done.
    by rewrite orb_true_r.
Qed.

(** X22. The loop of [UploadForm.save] sets [blacklisted] exactly when
    a selected instructor's permission row has [permission_allowed] at
    [False], and it changes nothing else; after a [clean] that returned
    there is no such instructor, so the loop leaves [blacklisted] as it
    found it. *)
Theorem save_after_clean_not_blacklisted (st : State)
    (selection : list Instructor) (blacklisted : bool) :
  UploadForm_save_blacklisted selection blacklisted st
  = Return (blacklisted
            || bool_decide (Exists (λ i, permissions st !! instructor_pk i
                                         = Some (Some false)) selection))
           st
  ∧ ∀ cd st',
      UploadForm_clean st = Return cd st' →
      ∃ instructors,
        exam_instructors (form st') = Some instructors
        ∧ instructors ≠ []
        ∧ UploadForm_save_blacklisted instructors blacklisted st'
          = Return blacklisted st'.
Proof.
  split.
  { rewrite UploadForm_save_blacklisted_run. do 2 f_equal.
    apply eq_true_iff_eq.
    rewrite existsb_exists, bool_decide_eq_true, Exists_exists.
    split; intros (i & Hi & Hb); exists i.
    - apply list_elem_of_In in Hi. by apply bool_decide_eq_true in Hb.
    - split; [by apply list_elem_of_In|by apply bool_decide_eq_true]. }
  intros cd st'.
  unfold UploadForm_clean. run.
  pose proof (set_course_instance_run st) as H1.
  pose proof (set_course_instance_spec st) as Hspec.
  cbv zeta in H1, Hspec.
  destruct (ExamForm_set_course_instance st) as [[] st1|e1 st1] eqn:Hrun;
    [|done].
  case_bool_decide; [done|]. intros [= <- <-].
  destruct Hspec as ((_ & Hp & _) & _ & course & instrs & _ & Hsel & Hne
                      & Hall & _).
  exists instrs. split; [|split; [done|]].
  - rewrite Hsel in H1.
    destruct (filter _ (courses st)) as [|c [|c' l]]; [done| |done].
    assert (H1' : Return tt st1
                  = (check_permissions instrs;;
                     resolve_course_instance (cd_term (cleaned_data (form st)))
                       c instrs)
                      (set_form (set_exam_instructors (Some instrs)) st)).
    { destruct instrs; done. }
    clear H1. symmetry in H1'. set (st0 := set_form _ st) in H1'.
    destruct (check_permissions_cases instrs st0)
      as [[_ Hperm]|(i & _ & _ & Hperm)].
    2: { rewrite (bind_raise _ _ _ _ _ Hperm) in H1'. done. }
    rewrite (bind_return _ _ _ _ _ Hperm) in H1'.
    by rewrite (resolve_course_instance_keeps _ _ _ _ _ H1').
  - rewrite UploadForm_save_blacklisted_run. f_equal.
    destruct (existsb _ instrs) eqn:Hex; [|by rewrite orb_false_r].
    apply existsb_exists in Hex as (i & Hi%list_elem_of_In & Hb).
    apply bool_decide_eq_true in Hb. rewrite Hp in Hb.
    destruct (Hall i Hi) as [H'|H']; congruence.
Qed.

End exam_forms_more.

(** ** Concrete runs of the further properties *)

Section concrete_more.

Example db_spring_is_saved :
  Term_save spring_2013 db_fall = Return spring_2013_saved db_spring.
Proof. vm_compute. reflexivity. Qed.

Example db_officers_spring_is_saved :
  Term_save spring_2013_current db_officers
  = Return spring_2013_current_saved db_officers_spring.
Proof. vm_compute. reflexivity. Qed.

Lemma Term_comparisons_by_primary_key_witness :
  Term___lt__ 2013 fall_2012_saved (OTerm spring_2013_saved) db_spring
  = Return (bool_decide (20124 < 20132)) db_spring
  ∧ Term___le__ 2013 fall_2012_saved (OTerm spring_2013_saved) db_spring
    = Return (bool_decide (20124 ≤ 20132)) db_spring
  ∧ Term___gt__ 2013 fall_2012_saved (OTerm spring_2013_saved) db_spring
    = Return (bool_decide (20132 < 20124)) db_spring
  ∧ Term___ge__ 2013 fall_2012_saved (OTerm spring_2013_saved) db_spring
    = Return (bool_decide (20132 ≤ 20124)) db_spring
  ∧ Term___eq__ 2013 fall_2012_saved (OTerm spring_2013_saved)
    = bool_decide (20124 = 20132)
  ∧ Term___ne__ 2013 fall_2012_saved (OTerm spring_2013_saved)
    = bool_decide (20124 ≠ 20132).
Proof.
  apply (Term_comparisons_by_primary_key 2013 fall_2012_saved
           (OTerm spring_2013_saved) 20124 20132 db_spring);
    vm_compute; reflexivity.
Defined.

Lemma get_by_natural_key_roundtrip_witness :
  TermManager_get_by_natural_key (natural_key fall_2012_saved).1
    (natural_key fall_2012_saved).2 db_fall
  = Return (Some fall_2012_saved) db_fall.
Proof.
  apply (proj1 (get_by_natural_key_roundtrip db_fall schema_ok_db_fall
                  years_storable_db_fall) 20124).
  reflexivity.
Defined.

Lemma save_current_then_get_current_term_witness :
  TermManager_get_current_term db_fall = Return (Some fall_2012_saved) db_fall
  ∧ (∃ k, id fall_2012_saved = Some k
          ∧ terms db_fall !! k = Some fall_2012_saved)
  ∧ current fall_2012_saved = true
  ∧ ∀ k r, terms db_fall !! k = Some r → current r = true →
           r = fall_2012_saved.
Proof.
  apply (save_current_then_get_current_term fall_2012 fall_2012_saved
           empty_db db_fall).
  - intros [H _]. discriminate H.
  - reflexivity.
  - vm_compute. reflexivity.
Defined.

Lemma save_not_current_keeps_cache_witness :
  TermManager_get_current_term db_spring
  = Return (Some fall_2012_saved) db_spring.
Proof.
  apply (save_not_current_keeps_cache spring_2013 spring_2013_saved
           fall_2012_saved db_fall db_spring).
  - reflexivity.
  - vm_compute. reflexivity.
  - reflexivity.
Defined.

Lemma get_terms_rows_witness :
  ∃ cur rows,
    TermManager_get_current_term db_spring = Return cur db_spring
    ∧ [fall_2012_saved] = rows.*2
    ∧ (∀ k t, (k, t) ∈ rows ↔
              terms db_spring !! k = Some t
              ∧ term_listed (Some "semester"%string) false false false cur k t)
    ∧ StronglySorted key_lt rows.
Proof.
  apply (get_terms_rows (Some "semester"%string) false false false false
           db_spring db_spring [fall_2012_saved]).
  vm_compute. reflexivity.
Defined.

Lemma groups_justified_db_officers : groups_justified db_officers.
Proof.
  assert (H : Forall (λ o, Forall (λ g, (user o, g) ∈ user_groups db_officers)
                             (corresponding_groups db_officers o))
                     (officers db_officers)).
  { apply (bool_decide_unpack _). vm_compute. exact I. }
  intros o g Ho Hg.
  apply (proj1 (Forall_forall _ _) (proj1 (Forall_forall _ _) H o Ho) g Hg).
Qed.

Lemma officer_rows_stay_justified_witness :
  groups_justified db_officers_after.
Proof.
  apply (proj2 (officer_rows_stay_justified db_officers
                  groups_justified_db_officers) officer_president).
  vm_compute. reflexivity.
Defined.

Lemma memberships_have_groups_db_officers :
  memberships_have_groups db_officers.
Proof.
  assert (H : set_Forall (λ ug : nat * string, ug.2 ∈ groups db_officers)
                         (user_groups db_officers)).
  { apply (bool_decide_unpack _). vm_compute. exact I. }
  intros u g Hug. apply (H (u, g) Hug).
Qed.

Lemma Term_save_current_groups_witness :
  (7%nat, "Current President"%string) ∈ user_groups db_officers_spring ↔
  ((7%nat, "Current President"%string) ∈ user_groups db_officers
   ∧ contains "Current" "Current President" = false)
  ∨ ∃ o, o ∈ officers db_officers_spring
         ∧ Some (term_id o) = id spring_2013_current_saved ∧ user o = 7%nat
         ∧ "Current President"%string ∈ corresponding_groups db_officers_spring o.
Proof.
  apply (Term_save_current_groups spring_2013_current
           spring_2013_current_saved db_officers db_officers_spring).
  - intros [H _]. discriminate H.
  - reflexivity.
  - apply memberships_have_groups_db_officers.
  - vm_compute. reflexivity.
Defined.

Lemma Term_save_keeps_groups_justified_witness :
  groups_justified db_officers_spring.
Proof.
  apply (Term_save_keeps_groups_justified spring_2013_current
           spring_2013_current_saved db_officers db_officers_spring).
  - assert (H : Forall (λ o, is_Some (terms db_officers !! term_id o))
                       (officers db_officers)).
    { apply (bool_decide_unpack _). vm_compute. exact I. }
    exact (proj1 (Forall_forall _ _) H).
  - assert (H : Forall (λ o, contains "Current" (long_name (position o)) = false)
                       (officers db_officers)).
    { apply (bool_decide_unpack _). vm_compute. exact I. }
    exact (proj1 (Forall_forall _ _) H).
  - apply groups_justified_db_officers.
  - vm_compute. reflexivity.
Defined.

Lemma course_table_ok_61A : course_table_ok [cs_61A].
Proof.
  split; [|split].
  - apply NoDup_singleton.
  - by intros r1 r2 ->%list_elem_of_singleton ->%list_elem_of_singleton.
  - constructor; [|constructor]. split; [|split]; [|reflexivity..].
    repeat constructor.
Qed.

Lemma Course_save_normalises_witness :
  Courses.course_pk cs_61B = Courses.course_pk cs_61b_typed
  ∧ Courses.department cs_61B = Courses.department cs_61b_typed
  ∧ Courses.number cs_61B
    = strip is_space (Courses.upper (Courses.number cs_61b_typed))
  ∧ normalised (Courses.number cs_61B)
  ∧ cs_61B ∈ [cs_61A; cs_61B]
  ∧ Courses.Course_save cs_61B [cs_61A; cs_61B]
    = Return cs_61B [cs_61A; cs_61B].
Proof.
  apply (Course_save_normalises cs_61b_typed cs_61B [cs_61A] [cs_61A; cs_61B]).
  vm_compute. reflexivity.
Defined.

Lemma Course_save_keeps_table_witness : course_table_ok [cs_61A; cs_61B].
Proof.
  apply (Course_save_keeps_table cs_61b_typed [cs_61A] course_table_ok_61A).
Defined.

Lemma Course_save_refuses_same_number_witness :
  Courses.Course_save cs_61a_typed [cs_61A] = Raise IntegrityError [cs_61A].
Proof.
  apply (Course_save_refuses_same_number cs_61a_typed cs_61A [cs_61A]
           course_table_ok_61A).
  - by left.
  - discriminate.
  - reflexivity.
  - reflexivity.
Defined.

Lemma exams_stored_reference_instances :
  exams_reference_instances exams_stored.
Proof.
  intros e ->%list_elem_of_singleton. exists instance_61A.
  split; [by left|reflexivity].
Qed.

Lemma clean_refused_creates_nothing_witness :
  form_frame exams_stored exams_stored_after
  ∧ Exams.course_instances exams_stored_after
    = Exams.course_instances exams_stored.
Proof.
  apply (proj1 (clean_refused_creates_nothing exams_stored
                  exams_stored_reference_instances)
           Exams.upload_duplicate exams_stored_after).
  vm_compute. reflexivity.
Defined.

Lemma set_course_instance_idempotent_witness :
  Exams.ExamForm_set_course_instance exams_fresh_after
  = Return tt exams_fresh_after.
Proof.
  apply (set_course_instance_idempotent exams_fresh exams_fresh_after).
  - vm_compute. apply NoDup_singleton.
  - vm_compute. reflexivity.
Defined.

End concrete_more.

(** ** Term: names *)

Section term_names.

Lemma str_inj a b : str a = str b → a = b.
Proof.
  intros H. pose proof (int_str a) as Ha. rewrite H, int_str in Ha.
  by injection Ha.
Qed.

Lemma str_no_space z :
  Forall (λ c, is_space c = false) (list_ascii_of_string (str z)).
Proof.
  unfold str. destruct z as [|p|p]; simpl.
  - repeat constructor.
  - assert (NilZero.string_of_uint (Pos.to_uint p)
            = NilEmpty.string_of_uint (Pos.to_uint p)) as ->.
    { pose proof (to_uint_not_nil p). by destruct (Pos.to_uint p). }
    apply string_of_uint_no_space.
  - assert (NilZero.string_of_uint (Pos.to_uint p)
            = NilEmpty.string_of_uint (Pos.to_uint p)) as ->.
    { pose proof (to_uint_not_nil p). by destruct (Pos.to_uint p). }
    constructor; [done|]. apply string_of_uint_no_space.
Qed.

Lemma list_ascii_of_string_app a b :
  list_ascii_of_string (a +:+ b)
  = list_ascii_of_string a ++ list_ascii_of_string b.
Proof.
  induction a as [|c a IH]; [done|].
  change (c :: list_ascii_of_string (a +:+ b)
          = c :: (list_ascii_of_string a ++ list_ascii_of_string b)).
  by f_equal.
Qed.

Lemma append_inv_tail a b s : a +:+ s = b +:+ s → a = b.
Proof.
  intros H. apply (f_equal list_ascii_of_string) in H.
  rewrite !list_ascii_of_string_app in H. apply app_inv_tail in H.
  apply (f_equal string_of_list_ascii) in H.
  by rewrite !string_of_list_ascii_of_string in H.
Qed.

Lemma app_space_not_str a b z : a +:+ String " " b ≠ str z.
Proof.
  intros H. pose proof (str_no_space z) as Hz. rewrite <- H in Hz. clear H.
  rewrite list_ascii_of_string_app in Hz.
  apply Forall_app in Hz as [_ Hz]. simpl in Hz.
  by apply Forall_cons in Hz as [Hc _].
Qed.

Lemma get_term_display_valid t m :
  TERM_MAPPING !! term t = Some m →
  get_term_display t ∈ ["Unknown"; "Winter"; "Spring"; "Summer"; "Fall"]%string
  ∧ (∀ t', get_term_display t' = get_term_display t →
           is_Some (TERM_MAPPING !! term t') → term t' = term t).
Proof.
  intros Ht. split.
  - apply TERM_MAPPING_lookup in Ht.
    unfold get_term_display.
    destruct Ht as [[-> _]|[[-> _]|[[-> _]|[[-> _]|[-> _]]]]];
      vm_compute; set_solver.
  - intros t' Heq [m' Ht']. revert Heq.
    apply TERM_MAPPING_lookup in Ht, Ht'. unfold get_term_display.
    destruct Ht as [[-> _]|[[-> _]|[[-> _]|[[-> _]|[-> _]]]]];
      destruct Ht' as [[-> _]|[[-> _]|[[-> _]|[[-> _]|[-> _]]]]];
      vm_compute; congruence.
Qed.

Lemma verbose_name_inj t1 t2 s1 s2 :
  is_Some (TERM_MAPPING !! term t1) → is_Some (TERM_MAPPING !! term t2) →
  verbose_name t1 +:+ s1 = verbose_name t2 +:+ s2 →
  term t1 = term t2 ∧ str (year t1) +:+ s1 = str (year t2) +:+ s2.
Proof.
  intros [m1 H1] [m2 H2]. unfold verbose_name.
  destruct (get_term_display_valid t1 m1 H1) as [Hd1 _].
  destruct (get_term_display_valid t2 m2 H2) as [Hd2 Hinj].
  specialize (Hinj t1).
  revert Hd1 Hd2 Hinj.
  generalize (get_term_display t1) (get_term_display t2). intros d1 d2.
  rewrite !elem_of_cons, !elem_of_nil.
  intros [->|[->|[->|[->|[->|[]]]]]] [->|[->|[->|[->|[->|[]]]]]] Hinj;
    simpl; intros H; try discriminate H;
    (split; [apply Hinj; [done|by eexists]|]); by simplify_eq.
Qed.

(** X23. Among terms whose codes are in [TERM_MAPPING], the names
    identify the term: two terms with the same [verbose_name] have the same
    code and year, and two terms with the same [__str__] also agree on
    whether they are current. *)
Theorem Term_names_identify (t1 t2 : Term) :
  is_Some (TERM_MAPPING !! term t1) → is_Some (TERM_MAPPING !! term t2) →
  (verbose_name t1 = verbose_name t2 →
   term t1 = term t2 ∧ year t1 = year t2)
  ∧ (Term___str__ t1 = Term___str__ t2 →
     term t1 = term t2 ∧ year t1 = year t2 ∧ current t1 = current t2).
Proof.
  intros H1 H2.
  assert (Happ : ∀ s : string, s +:+ "" = s).
  { induction s as [|c s IH]; [done|].
    change (String c (s +:+ "") = String c s). by f_equal. }
  split.
  - intros H.
    destruct (verbose_name_inj t1 t2 "" "" H1 H2) as [Ht Hy].
    { by rewrite !Happ. }
    rewrite !Happ in Hy. split; [done|by apply str_inj].
  - unfold Term___str__. cbv zeta.
    destruct (current t1) eqn:Hc1, (current t2) eqn:Hc2; intros H.
    + destruct (verbose_name_inj t1 t2 _ _ H1 H2 H) as [Ht Hy].
      split; [done|]. split; [|done].
      by apply str_inj, (append_inv_tail _ _ _ Hy).
    + exfalso. rewrite <- (Happ (verbose_name t2)) in H.
      destruct (verbose_name_inj t1 t2 _ _ H1 H2 H) as [_ Hy].
      rewrite Happ in Hy. by apply app_space_not_str in Hy.
    + exfalso. rewrite <- (Happ (verbose_name t1)) in H.
      destruct (verbose_name_inj t1 t2 _ _ H1 H2 H) as [_ Hy].
      rewrite Happ in Hy. symmetry in Hy. by apply app_space_not_str in Hy.
    + destruct (verbose_name_inj t1 t2 "" "" H1 H2) as [Ht Hy].
      { by rewrite !Happ. }
      rewrite !Happ in Hy. split; [done|]. split; [by apply str_inj|done].
Qed.

Lemma Term_names_identify_witness :
  (verbose_name fall_2012 = verbose_name fall_2012_saved →
   term fall_2012 = term fall_2012_saved
   ∧ year fall_2012 = year fall_2012_saved)
  ∧ (Term___str__ fall_2012 = Term___str__ fall_2012_saved →
     term fall_2012 = term fall_2012_saved
     ∧ year fall_2012 = year fall_2012_saved
     ∧ current fall_2012 = current fall_2012_saved).
Proof.
  apply (Term_names_identify fall_2012 fall_2012_saved);
    exists 4; reflexivity.
Defined.

End term_names.
